(** * FPV video analysis: temporal segmentation and aggregation engine

    A shallow embedding of [src/analysis/static.py] and
    [src/analysis/aggregation.py] together with the parts of
    [src/models/schema.py], [src/config.py] and [src/analysis/frames.py] they
    use, of the reading loop of [FrameExtractor.extract_frames_opencv], of
    [OllamaVisionClient.analyze_frame], of the stages of
    [AnalysisPipeline.analyze_video] that follow extraction, and of the
    checks of the [POST /analyze] route in [src/api/routes.py].

    Conventions of the embedding:
    - a Python [float] is an exact rational ([Q]); rounding, infinities and
      NaN are outside the model;
    - a Python [int] is a [Z];
    - a Python [str] is a [string] of single-byte characters, and
      [str.lower] is the ASCII lower-casing;
    - a Python exception is the result [None] of an [option];
    - a [collections.Counter] is an association list in insertion order, which
      is the order [Counter.items] iterates in;
    - the [for] loops over adjacent elements recurse on the list and carry the
      previous element. *)

From Stdlib Require Import ZArith QArith Qround Lqa Lia List String Ascii Bool.
From Stdlib Require Import Sorted Permutation.
From Stdlib Require Import DecimalString DecimalN.
Import ListNotations.

(** ** Python primitives *)

Module Py.

(** Monadic bind over results that may raise. *)
Definition bind {A B : Type} (m : option A) (k : A -> option B) : option B :=
  match m with
  | Some a => k a
  | None => None
  end.

Definition Qltb (a b : Q) : bool := negb (Qle_bool b a).

(** [x or d] on an optional float argument: [None] and [0.0] are falsy. *)
Definition or_float (x : option Q) (d : Q) : Q :=
  match x with
  | Some v => if Qeq_bool v 0 then d else v
  | None => d
  end.

(** [x or d] on an optional int argument. *)
Definition or_int (x : option Z) (d : Z) : Z :=
  match x with
  | Some v => if Z.eqb v 0 then d else v
  | None => d
  end.

(** [max(a, b)] and [min(a, b)] return the first of two equal arguments. *)
Definition max_float (a b : Q) : Q := if Qltb a b then b else a.
Definition min_float (a b : Q) : Q := if Qltb b a then b else a.
Definition max_int (a b : Z) : Z := if Z.ltb a b then b else a.
Definition min_int (a b : Z) : Z := if Z.ltb b a then b else a.

(** [a / b] on floats raises [ZeroDivisionError] when [b] is zero. *)
Definition truediv (a b : Q) : option Q :=
  if Qeq_bool b 0 then None else Some (a / b)%Q.

(** [a // b] on ints raises [ZeroDivisionError] when [b] is zero and rounds
    towards minus infinity otherwise. *)
Definition floordiv (a b : Z) : option Z :=
  if Z.eqb b 0 then None else Some (a / b)%Z.

(** [int(x)] on a float truncates towards zero. *)
Definition int (x : Q) : Z := Z.quot (Qnum x) (Z.pos (Qden x)).

(** [xs[-1]] on a non-empty list; [d] stands for the unreachable case. *)
Definition last_item {A : Type} (xs : list A) (d : A) : A := last xs d.

(** [s.lower()] on single-byte characters. *)
Definition lower_char (c : ascii) : ascii :=
  let n := nat_of_ascii c in
  if ((65 <=? n) && (n <=? 90))%nat then ascii_of_nat (n + 32) else c.

Fixpoint lower (s : string) : string :=
  match s with
  | EmptyString => EmptyString
  | String c s' => String (lower_char c) (lower s')
  end.

(** [needle in hay] on strings: [needle] occurs in [hay] as a substring. *)
Fixpoint contains (needle hay : string) : bool :=
  if String.prefix needle hay then true
  else
    match hay with
    | EmptyString => false
    | String _ hay' => contains needle hay'
    end.

(** [x in xs] on a list of strings. *)
Definition mem (x : string) (xs : list string) : bool :=
  existsb (String.eqb x) xs.

(** [sorted(xs, key=key, reverse=True)], also [xs.sort(key=key, reverse=True)]:
    a stable sort, so elements with equal keys keep their order.  A stable
    sort has one result; it is computed here by insertion. *)
Section Sorting.
Context {A : Type} (key : A -> Z).

Fixpoint insert_desc (x : A) (xs : list A) : list A :=
  match xs with
  | [] => [x]
  | y :: ys =>
      if (key x <? key y)%Z then y :: insert_desc x ys else x :: y :: ys
  end.

Fixpoint sorted_desc (xs : list A) : list A :=
  match xs with
  | [] => []
  | x :: xs' => insert_desc x (sorted_desc xs')
  end.

(** [max(xs, key=key)]: the first element with the greatest key; raises
    [ValueError] on an empty list. *)
Fixpoint max_from (best : A) (xs : list A) : A :=
  match xs with
  | [] => best
  | x :: xs' => max_from (if (key best <? key x)%Z then x else best) xs'
  end.

Definition max_by (xs : list A) : option A :=
  match xs with
  | [] => None
  | x :: xs' => Some (max_from x xs')
  end.

End Sorting.

(** [sum(xs)] on ints. *)
Definition sum (xs : list Z) : Z := fold_left Z.add xs 0%Z.

End Py.

(** ** collections.Counter *)

Module Counter.

(** Keys in insertion order, each with its count. *)
Definition t := list (string * Z).

Definition empty : t := [].

(** [c[k]]: the count of [k], zero when [k] is missing. *)
Fixpoint get (c : t) (k : string) : Z :=
  match c with
  | [] => 0%Z
  | (k', n) :: c' => if String.eqb k k' then n else get c' k
  end.

(** [c[k] += 1]: a present key keeps its place, a new key goes last. *)
Fixpoint incr (c : t) (k : string) : t :=
  match c with
  | [] => [(k, 1%Z)]
  | (k', n) :: c' =>
      if String.eqb k k' then (k', (n + 1)%Z) :: c' else (k', n) :: incr c' k
  end.

(** [c.items()]. *)
Definition items (c : t) : list (string * Z) := c.

(** [c.most_common(n)]: the [n] entries with the greatest counts, greatest
    first, entries with equal counts in insertion order. *)
Definition most_common (n : nat) (c : t) : list (string * Z) :=
  firstn n (Py.sorted_desc snd (items c)).

End Counter.

Notation "x <- m ;; k" := (Py.bind m (fun x => k))
  (at level 61, m at next level, right associativity).

(** ** src/config.py *)

Module Config.

(** The fields of [Settings] the analysis reads. *)
Record Settings := {
  static_threshold : Q;
  min_static_duration : Q;
  highlight_score_threshold : Z;
  highlight_min_duration : Q;
  tag_frequency_threshold : Q
}.

(** The defaults of the class, used when no environment variable overrides
    them. *)
Definition settings : Settings := {|
  static_threshold := 0.02;
  min_static_duration := 1.0;
  highlight_score_threshold := 7;
  highlight_min_duration := 5.0;
  tag_frequency_threshold := 0.2
|}.

End Config.

(** ** src/analysis/frames.py *)

Module Frames.

(** A [Frame]: its timestamp and the path of its image.  The pixel data is
    only read by the similarity measure, which is a parameter below. *)
Record Frame := {
  timestamp : Q;
  image_path : string
}.

End Frames.

(** ** src/models/schema.py *)

Module Schema.

Inductive StaticReason :=
| PRE_ARM
| POST_LAND
| DVR_FREEZE
| SIGNAL_LOSS
| UNKNOWN.

Module StaticSegment.
Record t := {
  start : Q;
  end_ : Q;
  reason : StaticReason;
  confidence : Q
}.
End StaticSegment.

Module Highlight.
Record t := {
  start : Q;
  end_ : Q;
  score : Z;
  description : string;
  tags : list string
}.
End Highlight.

Module FrameAnalysis.
Record t := {
  timestamp : Q;
  description : string;
  environment : list string;
  flight_style : string;
  interest_score : Z;
  quality_issues : list string
}.

(** The constraint [Field(ge=1, le=10)] every constructed record satisfies. *)
Definition valid (fa : t) : Prop :=
  (1 <= interest_score fa <= 10)%Z.
End FrameAnalysis.

(** A [{"start": ..., "end": ...}] entry of [signal_loss_segments]. *)
Module Span.
Record t := {
  start : Q;
  end_ : Q
}.
End Span.

Module QualityMetadata.
Record t := {
  overall_score : Z;
  issues : list string;
  dvr_artifacts_detected : bool;
  signal_loss_segments : list Span.t
}.

(** [QualityMetadata()]: every field at its default. *)
Definition default : t := {|
  overall_score := 5;
  issues := [];
  dvr_artifacts_detected := false;
  signal_loss_segments := []
|}.
End QualityMetadata.

End Schema.

(** ** src/analysis/static.py *)

Module Static.
Import Py Config Frames Schema.
Import StaticSegment.

Record StaticDetector := {
  threshold : Q;
  min_duration : Q
}.

(** [StaticDetector.__init__], reading its defaults from [cfg]. *)
Definition init (cfg : Settings) (threshold min_duration : option Q)
  : StaticDetector :=
  {| threshold := or_float threshold (static_threshold cfg);
     min_duration := or_float min_duration (min_static_duration cfg) |}.

Definition classify_static (start end_ video_duration : Q) : StaticReason :=
  if Qltb start 30 then PRE_ARM
  else if Qltb (video_duration - 30) end_ then POST_LAND
  else DVR_FREEZE.

(** The local variables of [detect_static_segments] that live across loop
    iterations. *)
Record LoopState := {
  segments : list StaticSegment.t;
  in_static : bool;
  static_start : Q
}.

Definition initial : LoopState :=
  {| segments := []; in_static := false; static_start := 0.0 |}.

Section Detector.

(** [compute_frame_difference]: one minus the structural similarity of the two
    frames' images, computed by an external image library. *)
Variable compute_frame_difference : Frame -> Frame -> Q.

Variable self : StaticDetector.
Variable video_duration : Q.

(** The body of the loop at index [i], with [prev = frames[i - 1]] and
    [cur = frames[i]]. *)
Definition loop_body (prev cur : Frame) (st : LoopState) : option LoopState :=
  let diff := compute_frame_difference prev cur in
  if Qltb diff (threshold self) then
    if negb (in_static st) then
      Some {| segments := segments st;
              in_static := true;
              static_start := timestamp prev |}
    else Some st
  else
    if in_static st then
      let static_end := timestamp cur in
      let duration := static_end - static_start st in
      segs <- (if Qle_bool (min_duration self) duration then
                 let reason :=
                   classify_static (static_start st) static_end video_duration in
                 ratio <- truediv diff (threshold self) ;;
                 let confidence := 1.0 - ratio in
                 let confidence := max_float 0.0 (min_float 1.0 confidence) in
                 Some (segments st ++
                         [{| start := static_start st;
                             end_ := static_end;
                             reason := reason;
                             confidence := confidence |}])
               else Some (segments st)) ;;
      Some {| segments := segs;
              in_static := false;
              static_start := static_start st |}
    else Some st.

(** [for i in range(1, len(frames))], started with [prev = frames[0]] and
    [rest = frames[1:]]. *)
Fixpoint loop (prev : Frame) (rest : list Frame) (st : LoopState)
  : option LoopState :=
  match rest with
  | [] => Some st
  | cur :: rest' =>
      st' <- loop_body prev cur st ;;
      loop cur rest' st'
  end.

(** The code after the loop: a run still open closes at [frames[-1]]. *)
Definition close_at_end (last_frame : Frame) (st : LoopState)
  : list StaticSegment.t :=
  if in_static st then
    let static_end := timestamp last_frame in
    let duration := static_end - static_start st in
    if Qle_bool (min_duration self) duration then
      let reason :=
        classify_static (static_start st) static_end video_duration in
      segments st ++
        [{| start := static_start st;
            end_ := static_end;
            reason := reason;
            confidence := 0.9 |}]
    else segments st
  else segments st.

Definition detect_static_segments (frames : list Frame)
  : option (list StaticSegment.t) :=
  if (List.length frames <? 2)%nat then Some []
  else
    match frames with
    | [] => Some []
    | first :: rest =>
        st <- loop first rest initial ;;
        Some (close_at_end (last_item frames first) st)
    end.

(** The three ways one iteration can go. *)
Inductive step_kind (prev cur : Frame) (st st' : LoopState) : Prop :=
| step_low :
    compute_frame_difference prev cur < threshold self ->
    st' = (if in_static st then st
           else {| segments := segments st;
                   in_static := true;
                   static_start := timestamp prev |}) ->
    step_kind prev cur st st'
| step_idle :
    threshold self <= compute_frame_difference prev cur ->
    in_static st = false ->
    st' = st ->
    step_kind prev cur st st'
| step_short :
    threshold self <= compute_frame_difference prev cur ->
    in_static st = true ->
    timestamp cur - static_start st < min_duration self ->
    st' = {| segments := segments st;
             in_static := false;
             static_start := static_start st |} ->
    step_kind prev cur st st'
| step_emit ratio :
    threshold self <= compute_frame_difference prev cur ->
    in_static st = true ->
    min_duration self <= timestamp cur - static_start st ->
    truediv (compute_frame_difference prev cur) (threshold self) = Some ratio ->
    st' = {| segments :=
               segments st ++
                 [{| StaticSegment.start := static_start st;
                     StaticSegment.end_ := timestamp cur;
                     StaticSegment.reason :=
                       classify_static (static_start st) (timestamp cur)
                         video_duration;
                     StaticSegment.confidence :=
                       max_float 0.0 (min_float 1.0 (1.0 - ratio)) |}];
             in_static := false;
             static_start := static_start st |} ->
    step_kind prev cur st st'.

(** Every adjacent pair of [prev :: rest] is below the threshold: the frames
    form one static run. *)
Fixpoint all_low (prev : Frame) (rest : list Frame) : Prop :=
  match rest with
  | [] => True
  | cur :: rest' =>
      compute_frame_difference prev cur < threshold self /\ all_low cur rest'
  end.

End Detector.

End Static.

(** ** src/analysis/aggregation.py *)

Module Aggregation.
Import Py Schema.

Record Aggregator := {
  tag_threshold : Q;
  highlight_score_threshold : Z;
  highlight_min_duration : Q
}.

(** [Aggregator.__init__], reading its defaults from [cfg]. *)
Definition init (cfg : Config.Settings) (tag_threshold : option Q)
    (highlight_score_threshold : option Z) (highlight_min_duration : option Q)
  : Aggregator :=
  {| tag_threshold :=
       or_float tag_threshold (Config.tag_frequency_threshold cfg);
     highlight_score_threshold :=
       or_int highlight_score_threshold (Config.highlight_score_threshold cfg);
     highlight_min_duration :=
       or_float highlight_min_duration (Config.highlight_min_duration cfg) |}.

(** [fa.flight_style and fa.flight_style not in ["unknown", "stationary"]] *)
Definition meaningful_style (fa : FrameAnalysis.t) : bool :=
  negb (String.eqb (FrameAnalysis.flight_style fa) EmptyString)
  && negb (mem (FrameAnalysis.flight_style fa) ["unknown"; "stationary"]%string).

(** The body of the tag-counting loop, the same in [extract_tags] and
    [_create_highlight]. *)
Definition count_frame (tag_counter : Counter.t) (fa : FrameAnalysis.t)
  : Counter.t :=
  let tag_counter :=
    fold_left Counter.incr (FrameAnalysis.environment fa) tag_counter in
  if meaningful_style fa
  then Counter.incr tag_counter (FrameAnalysis.flight_style fa)
  else tag_counter.

Definition count_tags (frames : list FrameAnalysis.t) : Counter.t :=
  fold_left count_frame frames Counter.empty.

Section Methods.

Variable self : Aggregator.

Definition extract_tags (frame_analyses : list FrameAnalysis.t)
  : list string :=
  match frame_analyses with
  | [] => []
  | _ =>
      let tag_counter := count_tags frame_analyses in
      let total_frames := Z.of_nat (List.length frame_analyses) in
      let threshold_count :=
        int (inject_Z total_frames * tag_threshold self) in
      let tags :=
        map fst
          (filter (fun item => (threshold_count <=? snd item)%Z)
             (Counter.items tag_counter)) in
      sorted_desc (Counter.get tag_counter) tags
  end.

Definition _create_highlight (start end_ : Q) (frames : list FrameAnalysis.t)
  : option Highlight.t :=
  avg_score <- floordiv (sum (map FrameAnalysis.interest_score frames))
                 (Z.of_nat (List.length frames)) ;;
  let tag_counter := count_tags frames in
  let top_tags := map fst (Counter.most_common 5 tag_counter) in
  best_frame <- max_by FrameAnalysis.interest_score frames ;;
  let description := FrameAnalysis.description best_frame in
  Some {| Highlight.start := start;
          Highlight.end_ := end_;
          Highlight.score := avg_score;
          Highlight.description := description;
          Highlight.tags := top_tags |}.

(** The local variables of [detect_highlights] that live across loop
    iterations. *)
Record LoopState := {
  highlights : list Highlight.t;
  in_highlight : bool;
  highlight_start : Q;
  highlight_frames : list FrameAnalysis.t
}.

Definition initial : LoopState :=
  {| highlights := [];
     in_highlight := false;
     highlight_start := 0.0;
     highlight_frames := [] |}.

(** The body of the loop at index [i], with [fa = frame_analyses[i]] and
    [prev = frame_analyses[i - 1]]. *)
Definition loop_body (prev fa : FrameAnalysis.t) (st : LoopState)
  : option LoopState :=
  if (highlight_score_threshold self <=? FrameAnalysis.interest_score fa)%Z then
    if negb (in_highlight st) then
      Some {| highlights := highlights st;
              in_highlight := true;
              highlight_start := FrameAnalysis.timestamp fa;
              highlight_frames := [fa] |}
    else
      Some {| highlights := highlights st;
              in_highlight := true;
              highlight_start := highlight_start st;
              highlight_frames := highlight_frames st ++ [fa] |}
  else
    if in_highlight st then
      let highlight_end := FrameAnalysis.timestamp prev in
      let duration := highlight_end - highlight_start st in
      hs <- (if Qle_bool (highlight_min_duration self) duration then
               highlight <- _create_highlight (highlight_start st)
                              highlight_end (highlight_frames st) ;;
               Some (highlights st ++ [highlight])
             else Some (highlights st)) ;;
      Some {| highlights := hs;
              in_highlight := false;
              highlight_start := highlight_start st;
              highlight_frames := [] |}
    else Some st.

(** [for i, fa in enumerate(frame_analyses)]; [prev] is
    [frame_analyses[i - 1]], which at [i = 0] is the last element. *)
Fixpoint loop (prev : FrameAnalysis.t) (rest : list FrameAnalysis.t)
    (st : LoopState) : option LoopState :=
  match rest with
  | [] => Some st
  | fa :: rest' =>
      st' <- loop_body prev fa st ;;
      loop fa rest' st'
  end.

(** The code after the loop: a run still open closes at
    [frame_analyses[-1]]. *)
Definition close_at_end (last_fa : FrameAnalysis.t) (st : LoopState)
  : option (list Highlight.t) :=
  if in_highlight st then
    let highlight_end := FrameAnalysis.timestamp last_fa in
    let duration := highlight_end - highlight_start st in
    if Qle_bool (highlight_min_duration self) duration then
      highlight <- _create_highlight (highlight_start st) highlight_end
                     (highlight_frames st) ;;
      Some (highlights st ++ [highlight])
    else Some (highlights st)
  else Some (highlights st).

Definition detect_highlights (frame_analyses : list FrameAnalysis.t)
  : option (list Highlight.t) :=
  match frame_analyses with
  | [] => Some []
  | first :: _ =>
      let last_fa := last_item frame_analyses first in
      st <- loop last_fa frame_analyses initial ;;
      close_at_end last_fa st
  end.

(** [fa] is a member of a highlight run. *)
Definition passes (fa : FrameAnalysis.t) : bool :=
  (highlight_score_threshold self <=? FrameAnalysis.interest_score fa)%Z.

(** The five ways one iteration can go. *)
Inductive step_kind (prev fa : FrameAnalysis.t) (st st' : LoopState) : Prop :=
| step_enter :
    passes fa = true ->
    in_highlight st = false ->
    st' = {| highlights := highlights st;
             in_highlight := true;
             highlight_start := FrameAnalysis.timestamp fa;
             highlight_frames := [fa] |} ->
    step_kind prev fa st st'
| step_extend :
    passes fa = true ->
    in_highlight st = true ->
    st' = {| highlights := highlights st;
             in_highlight := true;
             highlight_start := highlight_start st;
             highlight_frames := highlight_frames st ++ [fa] |} ->
    step_kind prev fa st st'
| step_idle :
    passes fa = false ->
    in_highlight st = false ->
    st' = st ->
    step_kind prev fa st st'
| step_short :
    passes fa = false ->
    in_highlight st = true ->
    FrameAnalysis.timestamp prev - highlight_start st
      < highlight_min_duration self ->
    st' = {| highlights := highlights st;
             in_highlight := false;
             highlight_start := highlight_start st;
             highlight_frames := [] |} ->
    step_kind prev fa st st'
| step_emit highlight :
    passes fa = false ->
    in_highlight st = true ->
    highlight_min_duration self
      <= FrameAnalysis.timestamp prev - highlight_start st ->
    _create_highlight (highlight_start st) (FrameAnalysis.timestamp prev)
      (highlight_frames st) = Some highlight ->
    st' = {| highlights := highlights st ++ [highlight];
             in_highlight := false;
             highlight_start := highlight_start st;
             highlight_frames := [] |} ->
    step_kind prev fa st st'.

End Methods.

(** The local variables of the first loop of [assess_quality]. *)
Record QualityState := {
  issue_counter : Counter.t;
  dvr_artifacts_detected : bool;
  signal_loss_segments : list Span.t
}.

(** The body of [for issue in fa.quality_issues]. *)
Definition scan_issue (fa : FrameAnalysis.t) (st : QualityState)
    (issue : string) : QualityState :=
  let issue_counter := Counter.incr (issue_counter st) issue in
  let dvr_artifacts_detected :=
    if contains "dvr" (lower issue) || contains "artifact" (lower issue)
    then true else dvr_artifacts_detected st in
  let signal_loss_segments :=
    if contains "signal" (lower issue) || contains "loss" (lower issue)
    then signal_loss_segments st ++
           [{| Span.start := FrameAnalysis.timestamp fa;
               Span.end_ := FrameAnalysis.timestamp fa + 1.0 |}]
    else signal_loss_segments st in
  {| issue_counter := issue_counter;
     dvr_artifacts_detected := dvr_artifacts_detected;
     signal_loss_segments := signal_loss_segments |}.

(** The body of [for fa in frame_analyses]. *)
Definition scan_frame (st : QualityState) (fa : FrameAnalysis.t)
  : QualityState :=
  fold_left (scan_issue fa) (FrameAnalysis.quality_issues fa) st.

(** The body of [for issue in significant_issues]. *)
Definition deduct (overall_score : Z) (issue : string) : Z :=
  if contains "blur" (lower issue) then overall_score - 2
  else if contains "artifact" (lower issue) || contains "dvr" (lower issue)
  then overall_score - 3
  else if contains "signal" (lower issue) || contains "loss" (lower issue)
  then overall_score - 4
  else if contains "fog" (lower issue) || contains "weather" (lower issue)
  then overall_score - 1
  else overall_score.

Definition assess_quality (frame_analyses : list FrameAnalysis.t)
  : QualityMetadata.t :=
  match frame_analyses with
  | [] => QualityMetadata.default
  | _ =>
      let st :=
        fold_left scan_frame frame_analyses
          {| issue_counter := Counter.empty;
             dvr_artifacts_detected := false;
             signal_loss_segments := [] |} in
      let total_frames := Z.of_nat (List.length frame_analyses) in
      let threshold := max_int 1 (int (inject_Z total_frames * 0.1)) in
      let significant_issues :=
        map fst
          (filter (fun item => (threshold <=? snd item)%Z)
             (Counter.items (issue_counter st))) in
      let overall_score := fold_left deduct significant_issues 10%Z in
      let overall_score := max_int 1 (min_int 10 overall_score) in
      {| QualityMetadata.overall_score := overall_score;
         QualityMetadata.issues := significant_issues;
         QualityMetadata.dvr_artifacts_detected := dvr_artifacts_detected st;
         QualityMetadata.signal_loss_segments := signal_loss_segments st |}
  end.

End Aggregation.

(** ** Strings and paths *)

Module PyStr.

(** [s.endswith(suffix)] *)
Fixpoint endswith (suffix s : string) : bool :=
  if String.eqb s suffix then true
  else
    match s with
    | EmptyString => false
    | String _ s' => endswith suffix s'
    end.

(** [str(n)] for [n >= 0]: the decimal digits. *)
Definition digits (n : Z) : string :=
  NilZero.string_of_uint (N.to_uint (Z.to_N n)).

Fixpoint zeros (k : nat) : string :=
  match k with
  | O => EmptyString
  | S k' => String "0" (zeros k')
  end.

(** [f"{n:04d}"]: at least four characters, zeros after the sign. *)
Definition format_04d (n : Z) : string :=
  if (n <? 0)%Z then
    let d := digits (- n) in
    String "-" (zeros (3 - String.length d) ++ d)
  else
    let d := digits n in
    zeros (4 - String.length d) ++ d.

(** [os.path.join(a, b)] on POSIX. *)
Definition path_join (a b : string) : string :=
  if String.prefix "/" b then b
  else if String.eqb a EmptyString || endswith "/" a then a ++ b
  else a ++ "/" ++ b.

End PyStr.

(** ** src/analysis/frames.py: FrameExtractor *)

Module FrameExtractor.
Import Py PyStr Frames.

(** The exceptions of [extract_frames_opencv]. *)
Inductive exn :=
| ValueError
| ZeroDivisionError.

Inductive result (A : Type) :=
| Ok (a : A)
| Raise (e : exn).
Arguments Ok {A} a.
Arguments Raise {A} e.

(** The fields of [Settings] the extractor reads, with their defaults. *)
Record Settings := {
  frame_sample_interval : Q;
  max_frames_per_video : Z
}.

Definition settings : Settings :=
  {| frame_sample_interval := 2.0; max_frames_per_video := 100 |}.

Record t := {
  sample_interval : Q;
  max_frames : Z
}.

(** [FrameExtractor.__init__] *)
Definition init (cfg : Settings) (sample_interval : option Q)
    (max_frames : option Z) : t :=
  {| sample_interval := or_float sample_interval (frame_sample_interval cfg);
     max_frames := or_int max_frames (max_frames_per_video cfg) |}.

(** The local variables of the reading loop. *)
Record LoopState := {
  frames : list Frame;
  frame_count : Z;
  saved_count : Z
}.

Definition initial : LoopState :=
  {| frames := []; frame_count := 0; saved_count := 0 |}.

Section Extract.

(** The decoded images [cap.read()] returns; resizing and writing them
    changes no value of the result. *)
Variable Image : Type.

Variable self : t.
Variable output_dir : string.

(** [cap.get(cv2.CAP_PROP_FPS)] *)
Variable fps : Q.

Definition frame_interval : Z := int (fps * sample_interval self).

(** The body of the loop after a successful [cap.read()]. *)
Definition loop_body (st : LoopState) : result LoopState :=
  if (frame_interval =? 0)%Z then Raise ZeroDivisionError
  else
    if ((frame_count st mod frame_interval =? 0)
        || (frame_count st =? 0))%Z
    then
      if Qeq_bool fps 0 then Raise ZeroDivisionError
      else
        let timestamp := inject_Z (frame_count st) / fps in
        let frame_filename :=
          ("frame_" ++ format_04d (saved_count st) ++ ".jpg")%string in
        let frame_path := path_join output_dir frame_filename in
        Ok {| frames :=
                frames st ++
                  [{| Frames.timestamp := timestamp;
                      Frames.image_path := frame_path |}];
              frame_count := frame_count st + 1;
              saved_count := saved_count st + 1 |}
    else
      Ok {| frames := frames st;
            frame_count := frame_count st + 1;
            saved_count := saved_count st |}.

(** [while cap.isOpened() and saved_count < self.max_frames]; the capture
    stays open until it is released, and [video] holds the images still to
    be read. *)
Fixpoint loop (video : list Image) (st : LoopState) : result LoopState :=
  if (saved_count st <? max_frames self)%Z then
    match video with
    | [] => Ok st
    | _ :: video' =>
        match loop_body st with
        | Ok st' => loop video' st'
        | Raise e => Raise e
        end
    end
  else Ok st.

(** [extract_frames_opencv]; [opened] is [cap.isOpened()] after the capture
    is made. *)
Definition extract_frames_opencv (opened : bool) (video : list Image)
  : result (list Frame) :=
  if negb opened then Raise ValueError
  else
    match loop video initial with
    | Ok st => Ok (frames st)
    | Raise e => Raise e
    end.

End Extract.

End FrameExtractor.

(** ** src/api/routes.py *)

Module Routes.
Import Py PyStr.

Definition video_extensions : list string :=
  [".mp4"; ".mov"; ".avi"; ".mkv"]%string.

(** [any(request.path.lower().endswith(ext) for ext in video_extensions)] *)
Definition is_video_file (path : string) : bool :=
  existsb (fun ext => endswith ext (lower path)) video_extensions.

Definition sidecar_path (path : string) : string :=
  (path ++ ".meta.json")%string.

(** The fields of [AnalyzeRequest] the route reads. *)
Record AnalyzeRequest := {
  path : string;
  force : bool
}.

(** How the call of [pipe.analyze_video] ends: with the metadata, with
    [FileExistsError] or with another exception. *)
Inductive Outcome (Metadata : Type) :=
| Returned (metadata : Metadata)
| FileExists
| Failed.
Arguments Returned {Metadata} metadata.
Arguments FileExists {Metadata}.
Arguments Failed {Metadata}.

(** The response of the route: the [AnalyzeResponse] made from the metadata
    and the sidecar path, or an [HTTPException] with its status code. *)
Inductive Response (Metadata : Type) :=
| Complete (metadata : Metadata) (sidecar : string)
| HTTPException (status_code : Z).
Arguments Complete {Metadata} metadata sidecar.
Arguments HTTPException {Metadata} status_code.

Section Route.

Variable Metadata : Type.

(** [os.path.exists] *)
Variable path_exists : string -> bool.

(** [pipe.check_ollama_health()] *)
Variable ollama_available : bool.

(** [pipe.analyze_video(path, force=force)] *)
Variable run_pipeline : string -> bool -> Outcome Metadata.

(** [POST /analyze] *)
Definition analyze_video (request : AnalyzeRequest) : Response Metadata :=
  if negb (path_exists (path request)) then HTTPException 400
  else if negb (is_video_file (path request)) then HTTPException 400
  else
    let sidecar_path := sidecar_path (path request) in
    if path_exists sidecar_path && negb (force request)
    then HTTPException 409
    else if negb ollama_available then HTTPException 503
    else
      match run_pipeline (path request) (force request) with
      | Returned metadata => Complete metadata sidecar_path
      | FileExists => HTTPException 409
      | Failed => HTTPException 500
      end.

End Route.

End Routes.

(** ** src/analysis/vision.py *)

Module Vision.
Import Py Schema.

(** The dictionary [json.loads] gives for a reply of the shape the prompt
    asks for: each field has the type the schema expects, and is [None] when
    its key is missing. *)
Record AnalysisData := {
  description : option string;
  environment : option (list string);
  flight_style : option string;
  interest_score : option Z;
  quality_issues : option (list string)
}.

(** What the request for one frame comes to. *)
Inductive Reply :=
| Failed
    (** an exception inside the outer [try]: the image cannot be read, the
        request fails, the status is not 200, or a field is not of the type
        the schema expects *)
| Unparsed
    (** the response text is not JSON: [json.loads] raises
        [JSONDecodeError] *)
| Parsed (analysis_data : AnalysisData).

(** [d.get(key, default)] *)
Definition get {A : Type} (value : option A) (default : A) : A :=
  match value with
  | Some v => v
  | None => default
  end.

(** The defaults used when the response text cannot be parsed. *)
Definition unparsed_data : AnalysisData :=
  {| description := Some "Unable to analyze frame"%string;
     environment := Some [];
     flight_style := Some "unknown"%string;
     interest_score := Some 5%Z;
     quality_issues := Some [] |}.

(** The [FrameAnalysis] made from the parsed dictionary. *)
Definition from_data (frame : Frames.Frame) (analysis_data : AnalysisData)
  : FrameAnalysis.t :=
  {| FrameAnalysis.timestamp := Frames.timestamp frame;
     FrameAnalysis.description := get (description analysis_data) EmptyString;
     FrameAnalysis.environment := get (environment analysis_data) [];
     FrameAnalysis.flight_style :=
       get (flight_style analysis_data) "unknown"%string;
     FrameAnalysis.interest_score :=
       min_int 10 (max_int 1 (get (interest_score analysis_data) 5%Z));
     FrameAnalysis.quality_issues := get (quality_issues analysis_data) [] |}.

(** The minimal analysis returned on error. *)
Definition error_analysis (frame : Frames.Frame) : FrameAnalysis.t :=
  {| FrameAnalysis.timestamp := Frames.timestamp frame;
     FrameAnalysis.description := "Error analyzing frame";
     FrameAnalysis.environment := [];
     FrameAnalysis.flight_style := "unknown";
     FrameAnalysis.interest_score := 5;
     FrameAnalysis.quality_issues := ["analysis-error"%string] |}.

(** [OllamaVisionClient.analyze_frame]: every exception is caught, so a
    record is always returned. *)
Definition analyze_frame (reply : Reply) (frame : Frames.Frame)
  : FrameAnalysis.t :=
  match reply with
  | Failed => error_analysis frame
  | Unparsed => from_data frame unparsed_data
  | Parsed analysis_data => from_data frame analysis_data
  end.

End Vision.

(** ** src/analysis/pipeline.py *)

Module Pipeline.
Import Py Schema.

(** The minimal analysis [_analyze_frames] makes when the client raises. *)
Definition failed_analysis (frame : Frames.Frame) : FrameAnalysis.t :=
  {| FrameAnalysis.timestamp := Frames.timestamp frame;
     FrameAnalysis.description := "Analysis failed";
     FrameAnalysis.environment := [];
     FrameAnalysis.flight_style := "unknown";
     FrameAnalysis.interest_score := 5;
     FrameAnalysis.quality_issues := ["analysis-error"%string] |}.

(** [AnalysisPipeline._analyze_frames]; [analyze_frame frame] is [None] when
    the call to the client raises. *)
Definition _analyze_frames
    (analyze_frame : Frames.Frame -> option FrameAnalysis.t)
    (frames : list Frames.Frame) : list FrameAnalysis.t :=
  fold_left
    (fun frame_analyses frame =>
       match analyze_frame frame with
       | Some analysis => frame_analyses ++ [analysis]
       | None => frame_analyses ++ [failed_analysis frame]
       end)
    frames [].

(** The client of the pipeline: [reply frame] is what the request for
    [frame] comes to. *)
Definition vision_client (reply : Frames.Frame -> Vision.Reply)
    (frame : Frames.Frame) : option FrameAnalysis.t :=
  Some (Vision.analyze_frame (reply frame) frame).

(** What stages 3 to 5 of [analyze_video] put into the metadata. *)
Record Analysis := {
  frames_analyzed : Z;
  tags : list string;
  static_segments : list StaticSegment.t;
  highlights : list Highlight.t;
  frame_analysis : list FrameAnalysis.t;
  quality : QualityMetadata.t
}.

(** Stages 3 to 5 of [AnalysisPipeline.analyze_video], from the extracted
    frames to the analysis results; [None] is an exception, among them the
    [RuntimeError] for an empty frame list. *)
Definition analyze_stages
    (compute_frame_difference : Frames.Frame -> Frames.Frame -> Q)
    (reply : Frames.Frame -> Vision.Reply)
    (static_detector : Static.StaticDetector)
    (aggregator : Aggregation.Aggregator)
    (duration_seconds : Q) (frames : list Frames.Frame) : option Analysis :=
  match frames with
  | [] => None
  | _ =>
      static_segments <-
        Static.detect_static_segments compute_frame_difference
          static_detector duration_seconds frames ;;
      let frame_analyses := _analyze_frames (vision_client reply) frames in
      let tags := Aggregation.extract_tags aggregator frame_analyses in
      highlights <-
        Aggregation.detect_highlights aggregator frame_analyses ;;
      let quality := Aggregation.assess_quality frame_analyses in
      Some {| frames_analyzed := Z.of_nat (List.length frames);
              tags := tags;
              static_segments := static_segments;
              highlights := highlights;
              frame_analysis := frame_analyses;
              quality := quality |}
  end.

End Pipeline.

(** ** Notions of the specification *)

Module Spec.
Import Schema.

(** The arithmetic mean of a list of integers. *)
Definition mean (xs : list Z) : Q :=
  inject_Z (fold_right Z.add 0%Z xs) / inject_Z (Z.of_nat (List.length xs)).

(** The highlight boundaries as the specification states them: the run
    [r :: run], left at the failing record [x], gives a highlight from the
    timestamp of [r] to the timestamp of [x]. *)
Definition highlight_ends_at_exit_sample (self : Aggregation.Aggregator)
    (pre : list FrameAnalysis.t) (r : FrameAnalysis.t)
    (run : list FrameAnalysis.t) (x : FrameAnalysis.t)
    (post : list FrameAnalysis.t) : Prop :=
  exists before h after,
    Aggregation.detect_highlights self (pre ++ (r :: run) ++ x :: post)
    = Some (before ++ h :: after)
    /\ Highlight.start h == FrameAnalysis.timestamp r
    /\ Highlight.end_ h == FrameAnalysis.timestamp x.

(** The rubric of the quality score, one significant issue at a time: the
    points the first matching category takes off. *)
Definition deduction (issue : string) : Z :=
  let s := Py.lower issue in
  if Py.contains "blur" s then 2
  else if Py.contains "artifact" s || Py.contains "dvr" s then 3
  else if Py.contains "signal" s || Py.contains "loss" s then 4
  else if Py.contains "fog" s || Py.contains "weather" s then 1
  else 0.

Definition total_deduction (issues : list string) : Z :=
  fold_right (fun issue acc => deduction issue + acc)%Z 0%Z issues.

(** Ten minus the deductions, clamped to [1, 10]. *)
Definition overall_score (issues : list string) : Z :=
  Z.max 1 (Z.min 10 (10 - total_deduction issues)).

(** An issue string that reports signal loss. *)
Definition signal_issue (issue : string) : bool :=
  Py.contains "signal" (Py.lower issue) || Py.contains "loss" (Py.lower issue).

(** A record whose issue list matches signal loss. *)
Definition matches_signal_loss (fa : FrameAnalysis.t) : bool :=
  existsb signal_issue (FrameAnalysis.quality_issues fa).

(** The approximate one-second interval of a record. *)
Definition interval_of (fa : FrameAnalysis.t) : Span.t :=
  {| Span.start := FrameAnalysis.timestamp fa;
     Span.end_ := FrameAnalysis.timestamp fa + 1.0 |}.

(** The signal-loss intervals as the specification states them: one for
    every matching record. *)
Definition signal_loss_intervals (fas : list FrameAnalysis.t) : list Span.t :=
  map interval_of (filter matches_signal_loss fas).

(** The intervals one record gives rise to: one for every matching issue
    string it carries. *)
Definition intervals_of (fa : FrameAnalysis.t) : list Span.t :=
  map (fun _ => interval_of fa)
    (filter signal_issue (FrameAnalysis.quality_issues fa)).

(** The number of times [t] occurs in a stream of tags. *)
Definition tally (stream : list string) (t : string) : Z :=
  Z.of_nat (count_occ string_dec stream t).

(** The distinct tags of a stream, in the order they are first observed. *)
Definition add_new (seen : list string) (t : string) : list string :=
  if Py.mem t seen then seen else seen ++ [t].

Definition first_observed (stream : list string) : list string :=
  fold_left add_new stream [].

(** The tags with at least [threshold_count] occurrences, the most frequent
    first, tags with equal counts in the order they are first observed. *)
Definition frequent_tags (stream : list string) (threshold_count : Z)
  : list string :=
  Py.sorted_desc (tally stream)
    (filter (fun t => (threshold_count <=? tally stream t)%Z)
       (first_observed stream)).

(** The tags a record adds to the tally as the specification states it: its
    environment tags and its flight style, unless that is unknown or
    stationary. *)
Definition record_tags (fa : FrameAnalysis.t) : list string :=
  FrameAnalysis.environment fa ++
  (if Py.mem (FrameAnalysis.flight_style fa) ["unknown"; "stationary"]%string
   then [] else [FrameAnalysis.flight_style fa]).

(** Tag extraction as the specification states it. *)
Definition extract_tags (frequency_threshold : Q)
    (fas : list FrameAnalysis.t) : list string :=
  frequent_tags (flat_map record_tags fas)
    (Qfloor (inject_Z (Z.of_nat (List.length fas)) * frequency_threshold)).

(** The tags a record adds to a tally when an empty flight style is left
    out as well: its environment tags, and its flight style unless that is
    empty, unknown or stationary. *)
Definition counted_tags (fa : FrameAnalysis.t) : list string :=
  FrameAnalysis.environment fa ++
  (if String.eqb (FrameAnalysis.flight_style fa) EmptyString then []
   else if String.eqb (FrameAnalysis.flight_style fa) "unknown" then []
   else if String.eqb (FrameAnalysis.flight_style fa) "stationary" then []
   else [FrameAnalysis.flight_style fa]).

(** A run of [fas]: consecutive records that all pass the score threshold. *)
Definition is_run (self : Aggregation.Aggregator)
    (fas members : list FrameAnalysis.t) : Prop :=
  members <> []
  /\ (exists pre post, fas = pre ++ members ++ post)
  /\ Forall (fun fa => Aggregation.passes self fa = true) members.

(** The number of multiples of [i] below [c]: the frames saved once [c]
    frames are read, one every [i]. *)
Definition multiples_below (i c : Z) : Z := ((c + i - 1) / i)%Z.

(** The frame saved as number [j] when one frame in [i] is kept. *)
Definition saved_frame (output_dir : string) (fps : Q) (i : Z) (j : nat)
  : Frames.Frame :=
  {| Frames.timestamp := inject_Z (Z.of_nat j * i) / fps;
     Frames.image_path :=
       PyStr.path_join output_dir
         ("frame_" ++ PyStr.format_04d (Z.of_nat j) ++ ".jpg")%string |}.

(** What holds between iterations of the reading loop: the frames saved so
    far are those at the multiples of the interval below the number of
    frames read. *)
Definition extract_invariant (output_dir : string) (fps : Q) (i : Z)
    (st : FrameExtractor.LoopState) : Prop :=
  (0 <= FrameExtractor.frame_count st)%Z
  /\ FrameExtractor.saved_count st
     = multiples_below i (FrameExtractor.frame_count st)
  /\ FrameExtractor.frames st
     = map (saved_frame output_dir fps i)
         (seq 0 (Z.to_nat (FrameExtractor.saved_count st))).

(** The run a highlight is made from: the passing records [r :: run],
    consecutive in [fas] with no passing record just before or just after
    them, whose first and last timestamps are the highlight's start and
    end. *)
Definition highlight_run (self : Aggregation.Aggregator)
    (fas : list FrameAnalysis.t) (h : Highlight.t) (r : FrameAnalysis.t)
    (run : list FrameAnalysis.t) : Prop :=
  (exists pre post,
      fas = pre ++ (r :: run) ++ post
      /\ (pre = [] \/ Aggregation.passes self (last pre r) = false)
      /\ (post = [] \/ Aggregation.passes self (hd r post) = false))
  /\ Forall (fun fa => Aggregation.passes self fa = true) (r :: run)
  /\ Highlight.start h = FrameAnalysis.timestamp r
  /\ Highlight.end_ h = FrameAnalysis.timestamp (last run r).

End Spec.

(** ** Sample inputs *)

Module Samples.
Import Schema.

Definition frame_at (t : Q) : Frames.Frame :=
  {| Frames.timestamp := t; Frames.image_path := "frame.jpg" |}.

(** A difference measure that is low up to the frame at two seconds and high
    afterwards. *)
Definition low_until_two (a b : Frames.Frame) : Q :=
  if Qle_bool (Frames.timestamp b) 2 then 0.01 else 0.5.

Definition record_at (t : Q) (score : Z) : FrameAnalysis.t :=
  {| FrameAnalysis.timestamp := t;
     FrameAnalysis.description := "over the trees";
     FrameAnalysis.environment := ["outdoor"; "forest"]%string;
     FrameAnalysis.flight_style := "proximity";
     FrameAnalysis.interest_score := score;
     FrameAnalysis.quality_issues := [] |}.

Definition detector : Static.StaticDetector :=
  Static.init Config.settings None None.

Definition aggregator : Aggregation.Aggregator :=
  Aggregation.init Config.settings None None None.

(** The settings when the environment sets [HIGHLIGHT_MIN_DURATION=0]. *)
Definition settings_zero_duration : Config.Settings :=
  {| Config.static_threshold := 0.02;
     Config.min_static_duration := 1.0;
     Config.highlight_score_threshold := 7;
     Config.highlight_min_duration := 0;
     Config.tag_frequency_threshold := 0.2 |}.

Definition aggregator_zero_duration : Aggregation.Aggregator :=
  Aggregation.init settings_zero_duration None None None.

(** A record that carries the given quality issues. *)
Definition record_with_issues (t : Q) (issues : list string)
  : FrameAnalysis.t :=
  {| FrameAnalysis.timestamp := t;
     FrameAnalysis.description := "static on the feed";
     FrameAnalysis.environment := ["outdoor"]%string;
     FrameAnalysis.flight_style := "cruising";
     FrameAnalysis.interest_score := 4;
     FrameAnalysis.quality_issues := issues |}.



End Samples.

(** * Properties *)

(** ** Comparisons and clamping *)

Module PyFacts.
Import Py.

Lemma Qltb_lt (a b : Q) : Qltb a b = true <-> a < b.
Proof.
  unfold Qltb. rewrite negb_true_iff. split.
  - intros H. apply Qnot_le_lt. intros Hle.
    apply Qle_bool_iff in Hle. congruence.
  - intros H. destruct (Qle_bool b a) eqn:E; [|reflexivity].
    apply Qle_bool_iff in E. exfalso. apply (Qlt_not_le _ _ H E).
Qed.

Lemma Qltb_ge (a b : Q) : Qltb a b = false <-> b <= a.
Proof.
  unfold Qltb. rewrite negb_false_iff. apply Qle_bool_iff.
Qed.

Lemma Qle_bool_gt (a b : Q) : Qle_bool a b = false <-> b < a.
Proof.
  rewrite <- Qltb_lt. unfold Qltb. rewrite negb_true_iff. tauto.
Qed.

#[export] Instance Qltb_comp : Proper (Qeq ==> Qeq ==> eq) Qltb.
Proof.
  intros a a' Ha b b' Hb. unfold Qltb. now rewrite Ha, Hb.
Qed.

Lemma clamp_nonpositive (c : Q) :
  c <= 0 -> max_float 0.0 (min_float 1.0 c) == 0.
Proof.
  intros Hc. unfold max_float, min_float.
  destruct (Qltb c 1.0) eqn:E1.
  - destruct (Qltb 0.0 c) eqn:E2; [|reflexivity].
    apply Qltb_lt in E2. lra.
  - apply Qltb_ge in E1. lra.
Qed.

Lemma clamp_bounds (c : Q) :
  0 <= max_float 0.0 (min_float 1.0 c) <= 1.
Proof.
  unfold max_float, min_float.
  destruct (Qltb c 1.0) eqn:E1.
  - apply Qltb_lt in E1.
    destruct (Qltb 0.0 c) eqn:E2.
    + apply Qltb_lt in E2. lra.
    + lra.
  - destruct (Qltb 0.0 1.0) eqn:E2.
    + lra.
    + lra.
Qed.

Lemma truediv_some (a b : Q) :
  ~ b == 0 -> truediv a b = Some (a / b).
Proof.
  intros Hb. unfold truediv.
  destruct (Qeq_bool b 0) eqn:E; [|reflexivity].
  apply Qeq_bool_iff in E. contradiction.
Qed.

End PyFacts.

(** ** Lists *)

Module ListFacts.
Import Py.

Lemma last_default {A : Type} (x : A) (l : list A) (d d' : A) :
  last (x :: l) d = last (x :: l) d'.
Proof.
  revert x. induction l as [|y l IH]; intros x; [reflexivity|].
  change (last (y :: l) d = last (y :: l) d'). apply IH.
Qed.

Lemma last_shift {A : Type} (cur : A) (rest : list A) (prev : A) :
  last (cur :: rest) prev = last rest cur.
Proof.
  destruct rest as [|x rest]; [reflexivity|].
  change (last (x :: rest) prev = last (x :: rest) cur). apply last_default.
Qed.

Lemma last_item_cons {A : Type} (x : A) (l : list A) (d : A) :
  last_item (x :: l) d = last l x.
Proof.
  exact (last_shift x l d).
Qed.

Lemma ForallOrdPairs_snoc {A : Type} (R : A -> A -> Prop) (l : list A) (x : A) :
  ForallOrdPairs R l -> Forall (fun a => R a x) l ->
  ForallOrdPairs R (l ++ [x]).
Proof.
  induction 1 as [|a l Ha Hl IH]; intros Hx; simpl.
  - constructor; constructor.
  - inversion Hx; subst. constructor.
    + apply Forall_app. split; [assumption|]. constructor; [assumption|constructor].
    + apply IH. assumption.
Qed.

Lemma last_app_cons {A : Type} (l : list A) (x : A) (t : list A) (d : A) :
  last (l ++ x :: t) d = last t x.
Proof.
  induction l as [|y l IH].
  - apply last_shift.
  - simpl app. rewrite last_shift.
    destruct l as [|z l].
    + simpl app. apply last_shift.
    + rewrite <- IH. simpl app. apply last_default.
Qed.

End ListFacts.

(** ** Static segments *)

Module StaticFacts.
Import Py PyFacts ListFacts Config Frames Schema Static.
Import StaticSegment.

Section Detector.

Variable compute_frame_difference : Frame -> Frame -> Q.
Variable self : StaticDetector.
Variable video_duration : Q.

Local Abbreviation loop_body := (Static.loop_body compute_frame_difference self video_duration).
Local Abbreviation loop := (Static.loop compute_frame_difference self video_duration).
Local Abbreviation close_at_end := (Static.close_at_end self video_duration).
Local Abbreviation detect_static_segments :=
  (Static.detect_static_segments compute_frame_difference self video_duration).
Local Abbreviation step_kind :=
  (Static.step_kind compute_frame_difference self video_duration).
Local Abbreviation all_low := (Static.all_low compute_frame_difference self).

Lemma loop_body_inv prev cur st st' :
  loop_body prev cur st = Some st' -> step_kind prev cur st st'.
Proof.
  unfold Static.loop_body. intros H.
  destruct (Qltb _ _) eqn:Elow.
  - apply Qltb_lt in Elow. apply step_low; [assumption|].
    destruct (in_static st); simpl in H; congruence.
  - apply Qltb_ge in Elow.
    destruct (in_static st) eqn:Ein.
    + destruct (Qle_bool _ _) eqn:Edur.
      * apply Qle_bool_iff in Edur.
        destruct (truediv _ _) as [ratio|] eqn:Ediv; simpl in H; [|discriminate].
        eapply step_emit; eauto. congruence.
      * apply Qle_bool_gt in Edur. simpl in H.
        apply step_short; auto. congruence.
    + apply step_idle; auto. congruence.
Qed.

(** The loop fails only on a division by a zero threshold. *)
Lemma loop_body_total prev cur st :
  (in_static st = true -> ~ threshold self == 0) ->
  exists st', loop_body prev cur st = Some st'.
Proof.
  intros Hthr. unfold Static.loop_body.
  destruct (Qltb _ _).
  - destruct (in_static st); simpl; eauto.
  - destruct (in_static st) eqn:Ein; [|eauto].
    destruct (Qle_bool _ _); simpl; [|eauto].
    rewrite truediv_some by auto. simpl. eauto.
Qed.

(** An invariant [P] of the iterations is an invariant of the loop. *)
Lemma loop_invariant (P : Frame -> LoopState -> Prop) :
  (forall prev cur st st',
      P prev st -> loop_body prev cur st = Some st' -> P cur st') ->
  forall rest prev st st',
    P prev st -> loop prev rest st = Some st' -> P (last rest prev) st'.
Proof.
  intros Hstep. induction rest as [|cur rest IH]; intros prev st st' HP H.
  - simpl in *. congruence.
  - simpl in H. destruct (loop_body prev cur st) as [st1|] eqn:E1;
      simpl in H; [|discriminate].
    rewrite last_shift.
    eapply IH; eauto.
Qed.

Lemma loop_app prev l1 l2 st :
  loop prev (l1 ++ l2) st =
  (st1 <- loop prev l1 st ;; loop (last l1 prev) l2 st1).
Proof.
  revert prev st. induction l1 as [|cur l1 IH]; intros prev st.
  - reflexivity.
  - rewrite last_shift. simpl.
    destruct (loop_body prev cur st) as [st1|]; simpl; [apply IH|reflexivity].
Qed.

(** An invariant of the iterations over frames in time order is an invariant
    of the loop. *)
Lemma loop_invariant_sorted (P : Frame -> LoopState -> Prop) :
  (forall prev cur st st',
      timestamp prev <= timestamp cur ->
      P prev st -> loop_body prev cur st = Some st' -> P cur st') ->
  forall rest prev st st',
    Sorted Qle (map timestamp (prev :: rest)) ->
    P prev st -> loop prev rest st = Some st' -> P (last rest prev) st'.
Proof.
  intros Hstep. induction rest as [|cur rest IH]; intros prev st st' Hs HP H.
  - simpl in *. congruence.
  - simpl in H. destruct (loop_body prev cur st) as [st1|] eqn:E1;
      simpl in H; [|discriminate].
    rewrite last_shift. simpl in Hs.
    apply Sorted_inv in Hs. destruct Hs as [Hs Hhd].
    apply HdRel_inv in Hhd.
    eapply IH; eauto.
Qed.

(** Inside a run, low samples leave the state as it is. *)
Lemma loop_low_in rest : forall prev st,
  in_static st = true -> all_low prev rest -> loop prev rest st = Some st.
Proof.
  induction rest as [|cur rest IH]; intros prev st Hin Hlow; [reflexivity|].
  destruct Hlow as [Hlow Hrest]. simpl.
  unfold Static.loop_body.
  apply Qltb_lt in Hlow. rewrite Hlow, Hin. simpl. auto.
Qed.

(** Outside a run, the first low sample opens one that starts at the
    previous frame. *)
Lemma loop_low_enter cur rest prev st :
  in_static st = false -> all_low prev (cur :: rest) ->
  loop prev (cur :: rest) st =
  Some {| segments := segments st;
          in_static := true;
          static_start := timestamp prev |}.
Proof.
  intros Hin [Hlow Hrest]. simpl. unfold Static.loop_body.
  apply Qltb_lt in Hlow. rewrite Hlow, Hin. simpl.
  apply loop_low_in; auto.
Qed.

(** Segments are only ever appended. *)
Lemma loop_body_extends prev cur st st' :
  loop_body prev cur st = Some st' ->
  exists ext, segments st' = segments st ++ ext.
Proof.
  intros H. apply loop_body_inv in H.
  destruct H as [_ ->|_ _ ->|_ _ _ ->|ratio _ _ _ _ ->].
  - exists []. rewrite app_nil_r. now destruct (in_static st).
  - exists []. now rewrite app_nil_r.
  - exists []. simpl. now rewrite app_nil_r.
  - eexists. reflexivity.
Qed.

Lemma loop_extends rest : forall prev st st',
  loop prev rest st = Some st' ->
  exists ext, segments st' = segments st ++ ext.
Proof.
  induction rest as [|cur rest IH]; intros prev st st' H.
  - injection H as <-. exists []. now rewrite app_nil_r.
  - simpl in H. destruct (loop_body prev cur st) as [st1|] eqn:E1;
      simpl in H; [|discriminate].
    apply loop_body_extends in E1. destruct E1 as [e1 E1].
    apply IH in H. destruct H as [e2 E2].
    exists (e1 ++ e2). rewrite E2, E1. now rewrite app_assoc.
Qed.

Lemma close_at_end_extends last_frame st :
  exists ext, close_at_end last_frame st = segments st ++ ext.
Proof.
  unfold Static.close_at_end.
  destruct (in_static st); [destruct (Qle_bool _ _)|].
  - eexists. reflexivity.
  - exists []. now rewrite app_nil_r.
  - exists []. now rewrite app_nil_r.
Qed.

(** A high sample always leaves the loop outside a run. *)
Lemma loop_body_high_exits prev cur st st' :
  threshold self <= compute_frame_difference prev cur ->
  loop_body prev cur st = Some st' -> in_static st' = false.
Proof.
  intros Hhigh H. apply loop_body_inv in H.
  destruct H as [Hlow _|_ Hin ->|_ _ _ ->|ratio _ _ _ _ ->]; auto.
  exfalso. apply (Qlt_not_le _ _ Hlow Hhigh).
Qed.

(** Segments closed by an exit sample have confidence zero. *)
Lemma loop_exit_confidence :
  (0 < threshold self \/ forall a b, 0 <= compute_frame_difference a b) ->
  forall rest prev st,
    Forall (fun s => confidence s == 0) (segments st) ->
    (in_static st = true -> 0 < threshold self) ->
    exists st',
      loop prev rest st = Some st'
      /\ Forall (fun s => confidence s == 0) (segments st')
      /\ (in_static st' = true -> 0 < threshold self).
Proof.
  intros Hdom. induction rest as [|cur rest IH]; intros prev st Hconf Hthr.
  - exists st. simpl. auto.
  - destruct (loop_body_total prev cur st) as [st1 E1].
    { intros Hin Hz. apply Hthr in Hin. rewrite Hz in Hin.
      apply (Qlt_irrefl 0 Hin). }
    simpl. rewrite E1. simpl. apply IH.
    + pose proof (loop_body_inv _ _ _ _ E1) as K.
      destruct K as [_ ->|_ _ ->|_ _ _ ->|ratio Hhigh Hin _ Hdiv ->]; simpl; auto.
      * now destruct (in_static st).
      * apply Forall_app. split; [assumption|].
        constructor; [|constructor]. simpl.
        specialize (Hthr Hin).
        rewrite truediv_some in Hdiv
          by (intros Hz; rewrite Hz in Hthr; apply (Qlt_irrefl 0 Hthr)).
        injection Hdiv as <-.
        apply clamp_nonpositive.
        assert (1 <= compute_frame_difference prev cur / threshold self) as Hr
          by (apply Qle_shift_div_l; [assumption|now rewrite Qmult_1_l]).
        lra.
    + pose proof (loop_body_inv _ _ _ _ E1) as K.
      destruct K as [Hlow ->|_ Hin ->|_ _ _ ->|ratio _ _ _ _ ->]; simpl;
        try discriminate; auto.
      destruct (in_static st); simpl; auto. intros _.
      destruct Hdom as [Hpos|Hnn]; [assumption|].
      eapply Qle_lt_trans; [apply Hnn|apply Hlow].
Qed.

(** Every emitted segment carries the reason its own bounds classify to. *)
Lemma detect_reasons frames segs :
  detect_static_segments frames = Some segs ->
  Forall (fun s => reason s = classify_static (start s) (end_ s) video_duration)
    segs.
Proof.
  unfold Static.detect_static_segments.
  destruct (_ <? _)%nat; [intros [= <-]; constructor|].
  destruct frames as [|first rest]; [intros [= <-]; constructor|].
  destruct (loop first rest initial) as [st|] eqn:E; simpl; [|discriminate].
  intros [= <-].
  assert (Forall (fun s => reason s =
                    classify_static (start s) (end_ s) video_duration)
            (segments st)) as Hst.
  { refine (loop_invariant
              (fun _ st => Forall (fun s => reason s =
                 classify_static (start s) (end_ s) video_duration) (segments st))
              _ rest first initial st _ E); [|constructor].
    intros prev cur s0 s1 HP H. apply loop_body_inv in H.
    destruct H as [_ ->|_ _ ->|_ _ _ ->|ratio _ _ _ _ ->]; simpl; auto.
    - now destruct (in_static s0).
    - apply Forall_app. split; [assumption|]. repeat constructor. }
  unfold Static.close_at_end.
  destruct (in_static st); [destruct (Qle_bool _ _)|]; auto.
  apply Forall_app. split; [assumption|]. repeat constructor.
Qed.

(** The loop never raises when the threshold is positive or the measure is
    non-negative. *)
Lemma detect_static_segments_total frames :
  (0 < threshold self \/ forall a b, 0 <= compute_frame_difference a b) ->
  exists segs, detect_static_segments frames = Some segs.
Proof.
  intros Hdom. unfold Static.detect_static_segments.
  destruct (_ <? _)%nat; [eauto|].
  destruct frames as [|first rest]; [eauto|].
  destruct (loop_exit_confidence Hdom rest first initial) as (st & E & _).
  - constructor.
  - discriminate.
  - rewrite E. simpl. eauto.
Qed.

(** With frames in time order, the emitted segments last long enough, run
    forwards, and each ends before the next starts. *)
Lemma detect_runs_ordered frames segs :
  Sorted Qle (map timestamp frames) ->
  detect_static_segments frames = Some segs ->
  Forall (fun s => min_duration self <= end_ s - start s /\ start s <= end_ s) segs
  /\ ForallOrdPairs (fun a b => end_ a <= start b) segs.
Proof.
  intros Hs. unfold Static.detect_static_segments.
  destruct (_ <? _)%nat; [intros [= <-]; split; constructor|].
  destruct frames as [|first rest]; [intros [= <-]; split; constructor|].
  destruct (loop first rest initial) as [st|] eqn:E; cbn [bind]; [|discriminate].
  rewrite last_item_cons. intros [= <-].
  pose (P := fun (prev : Frame) (st : LoopState) =>
    Forall (fun s => (min_duration self <= end_ s - start s /\ start s <= end_ s)
                     /\ end_ s <= timestamp prev) (segments st)
    /\ ForallOrdPairs (fun a b => end_ a <= start b) (segments st)
    /\ (in_static st = true ->
        static_start st <= timestamp prev
        /\ Forall (fun s => end_ s <= static_start st) (segments st))).
  assert (P (last rest first) st) as (Hall & Hord & Hopen).
  { refine (loop_invariant_sorted P _ rest first initial st Hs _ E).
    - clear. intros prev cur st st' Hle (Hall & Hord & Hopen) H.
      assert (Forall (fun s => (min_duration self <= end_ s - start s
                                /\ start s <= end_ s)
                               /\ end_ s <= timestamp cur) (segments st)) as Hall'.
      { eapply Forall_impl; [|exact Hall]. simpl. intros s [? ?]. split; auto.
        eapply Qle_trans; eauto. }
      apply loop_body_inv in H.
      destruct H as [_ ->|_ Hin ->|_ _ _ ->|ratio _ Hin Hdur _ ->].
      + destruct (in_static st) eqn:Ein.
        * split; [assumption|]. split; [assumption|].
          intros _. destruct (Hopen eq_refl) as [H1 H2].
          split; [eapply Qle_trans; eauto|assumption].
        * simpl. split; [assumption|]. split; [assumption|].
          intros _. split; [assumption|].
          eapply Forall_impl; [|exact Hall]. simpl. tauto.
      + split; [assumption|]. split; [assumption|]. congruence.
      + simpl. split; [assumption|]. split; [assumption|]. discriminate.
      + destruct (Hopen Hin) as [H1 H2]. simpl.
        split; [|split; [|discriminate]].
        * apply Forall_app. split; [assumption|].
          constructor; [|constructor]. simpl.
          repeat split; [assumption| |apply Qle_refl].
          eapply Qle_trans; eauto.
        * apply ForallOrdPairs_snoc; assumption.
    - repeat split; try constructor. discriminate. }
  unfold Static.close_at_end.
  assert (Forall (fun s => min_duration self <= end_ s - start s
                           /\ start s <= end_ s) (segments st)) as Hall'.
  { eapply Forall_impl; [|exact Hall]. simpl. tauto. }
  destruct (in_static st); [|auto].
  destruct (Qle_bool _ _) eqn:Edur; [|auto].
  apply Qle_bool_iff in Edur. destruct (Hopen eq_refl) as [H1 H2].
  split.
  - apply Forall_app. split; [assumption|].
    constructor; [|constructor]. simpl. auto.
  - apply ForallOrdPairs_snoc; assumption.
Qed.

(** Arriving at frame [p] outside a run: either [p] is the first frame or the
    sample that ends at [p] is high. *)
Lemma detect_split pre p tail segs :
  (pre = [] \/ threshold self <= compute_frame_difference (last pre p) p) ->
  tail <> [] ->
  detect_static_segments (pre ++ p :: tail) = Some segs ->
  exists st0 st,
    in_static st0 = false
    /\ loop p tail st0 = Some st
    /\ segs = close_at_end (last tail p) st.
Proof.
  intros Hpre Htail. unfold Static.detect_static_segments.
  destruct (_ <? _)%nat eqn:Elen.
  { apply Nat.ltb_lt in Elen. rewrite length_app in Elen. simpl in Elen.
    destruct tail; [congruence|simpl in Elen; lia]. }
  destruct pre as [|f0 pre'].
  - cbn [app]. rewrite last_item_cons.
    destruct (loop p tail initial) as [st|] eqn:E; cbn [bind]; [|discriminate].
    intros [= <-]. exists initial, st. auto.
  - destruct Hpre as [Hpre|Hpre]; [discriminate|].
    rewrite last_shift in Hpre.
    cbn [app]. rewrite last_item_cons, last_app_cons.
    replace (pre' ++ p :: tail) with ((pre' ++ [p]) ++ tail)
      by (now rewrite <- app_assoc).
    rewrite loop_app, last_last, loop_app. cbn [bind Static.loop].
    destruct (loop f0 pre' initial) as [st1|]; cbn [bind]; [|discriminate].
    destruct (loop_body (last pre' f0) p st1) as [st0|] eqn:E0; cbn [bind];
      [|discriminate].
    destruct (loop p tail st0) as [st|] eqn:E; cbn [bind]; [|discriminate].
    intros [= <-]. exists st0, st.
    split; [|auto]. eapply loop_body_high_exits; eauto.
Qed.

(** A run exited mid-series: it starts at the frame before its first low
    sample and ends at the frame of the first high sample. *)
Lemma detect_run_mid pre p run x post segs :
  (pre = [] \/ threshold self <= compute_frame_difference (last pre p) p) ->
  run <> [] -> all_low p run ->
  threshold self <= compute_frame_difference (last run p) x ->
  min_duration self <= timestamp x - timestamp p ->
  detect_static_segments (pre ++ p :: run ++ x :: post) = Some segs ->
  exists before conf after,
    segs = before ++
      {| start := timestamp p;
         end_ := timestamp x;
         reason := classify_static (timestamp p) (timestamp x) video_duration;
         confidence := conf |} :: after.
Proof.
  intros Hpre Hrun Hlow Hhigh Hdur H.
  apply detect_split in H; [|assumption|now destruct run].
  destruct H as (st0 & st & Hin0 & Hloop & ->).
  rewrite loop_app in Hloop.
  destruct run as [|c run']; [congruence|].
  rewrite (loop_low_enter c run' p st0 Hin0 Hlow) in Hloop.
  simpl in Hloop.
  match type of Hloop with
  | context [loop_body ?a ?b ?s] =>
      destruct (loop_body a b s) as [st2|] eqn:E2
  end; simpl in Hloop; [|discriminate].
  apply loop_body_inv in E2.
  destruct E2 as [Hl _|_ Hin _|_ _ Hshort _|ratio _ _ _ _ ->].
  - exfalso. apply (Qlt_not_le _ _ Hl Hhigh).
  - discriminate.
  - exfalso. simpl in Hshort. apply (Qlt_not_le _ _ Hshort Hdur).
  - apply loop_extends in Hloop. destruct Hloop as [e1 E1].
    match goal with
    | |- context [close_at_end ?l st] =>
        destruct (close_at_end_extends l st) as [e2 E2]
    end.
    rewrite E2, E1. simpl.
    eexists (segments st0), _, (e1 ++ e2).
    rewrite <- !app_assoc. reflexivity.
Qed.

(** A run still open when the series ends: it closes at the last frame. *)
Lemma detect_run_end pre p run segs :
  (pre = [] \/ threshold self <= compute_frame_difference (last pre p) p) ->
  run <> [] -> all_low p run ->
  min_duration self <= timestamp (last run p) - timestamp p ->
  detect_static_segments (pre ++ p :: run) = Some segs ->
  exists before,
    segs = before ++
      [{| start := timestamp p;
          end_ := timestamp (last run p);
          reason := classify_static (timestamp p) (timestamp (last run p))
                      video_duration;
          confidence := 0.9 |}].
Proof.
  intros Hpre Hrun Hlow Hdur H.
  apply detect_split in H; [|assumption|assumption].
  destruct H as (st0 & st & Hin0 & Hloop & ->).
  destruct run as [|c run']; [congruence|].
  rewrite (loop_low_enter c run' p st0 Hin0 Hlow) in Hloop.
  injection Hloop as <-.
  unfold Static.close_at_end. simpl in_static. simpl static_start. cbv iota.
  apply Qle_bool_iff in Hdur. rewrite Hdur.
  exists (segments st0). reflexivity.
Qed.

End Detector.

(** The default threshold is positive. *)
Lemma settings_threshold_positive :
  0 < threshold (init settings None None).
Proof.
  reflexivity.
Qed.

(** C10. A static segment closed by an exit sample (appended inside the loop)
    has confidence zero, because the exit sample's difference is at least the
    threshold; the only other segment is the one closed by the end of the
    series, whose confidence is the constant 0.9.  The measure is taken
    non-negative or the threshold positive. *)
Theorem exit_closed_confidence_zero
    (compute_frame_difference : Frame -> Frame -> Q) (self : StaticDetector)
    (video_duration : Q) (first : Frame) (rest : list Frame) :
  (0 < threshold self \/ forall a b, 0 <= compute_frame_difference a b) ->
  exists st,
    Static.loop compute_frame_difference self video_duration first rest initial
    = Some st
    /\ Forall (fun s => confidence s == 0) (segments st)
    /\ (forall last_frame,
          Static.close_at_end self video_duration last_frame st = segments st
          \/ exists s,
               in_static st = true
               /\ Static.close_at_end self video_duration last_frame st
                  = segments st ++ [s]
               /\ confidence s == 0.9
               /\ end_ s = timestamp last_frame)
    /\ (rest <> [] ->
        Static.detect_static_segments compute_frame_difference self
          video_duration (first :: rest)
        = Some (Static.close_at_end self video_duration (last rest first) st)).
Proof.
  intros Hdom.
  destruct (loop_exit_confidence compute_frame_difference self video_duration
              Hdom rest first initial) as (st & E & Hconf & _).
  { constructor. }
  { discriminate. }
  exists st. split; [assumption|]. split; [assumption|]. split.
  - intros last_frame. unfold Static.close_at_end.
    destruct (in_static st); [|now left].
    destruct (Qle_bool _ _); [|now left].
    right. eexists. split; [reflexivity|]. split; [reflexivity|].
    split; reflexivity.
  - intros Hrest. unfold Static.detect_static_segments.
    destruct rest as [|c rest']; [congruence|].
    cbn [List.length Nat.ltb Nat.leb]. rewrite last_item_cons.
    rewrite E. reflexivity.
Qed.

(** C6. Classification goes by position with the precedence PRE_ARM,
    POST_LAND, DVR_FREEZE; every emitted segment carries the class of its own
    bounds; and five frames at t = 0..4 whose differences are all 0.01, with
    threshold 0.02, minimum duration 1.0 and a video of 120 seconds, give
    exactly one segment, classified PRE_ARM. *)
Theorem classify_static_precedence :
  (forall start end_ video_duration,
      (start < 30 -> classify_static start end_ video_duration = PRE_ARM)
      /\ (30 <= start -> video_duration - 30 < end_ ->
          classify_static start end_ video_duration = POST_LAND)
      /\ (30 <= start -> end_ <= video_duration - 30 ->
          classify_static start end_ video_duration = DVR_FREEZE))
  /\ (forall compute_frame_difference self video_duration frames segs,
        Static.detect_static_segments compute_frame_difference self
          video_duration frames = Some segs ->
        Forall (fun s => reason s =
                  classify_static (start s) (end_ s) video_duration) segs)
  /\ (forall compute_frame_difference frames,
        (forall a b, compute_frame_difference a b == 0.01) ->
        Forall2 Qeq (map timestamp frames) [0; 1; 2; 3; 4] ->
        exists s,
          Static.detect_static_segments compute_frame_difference
            (init settings (Some 0.02) (Some 1.0)) 120 frames = Some [s]
          /\ reason s = PRE_ARM).
Proof.
  split; [|split].
  - intros start end_ video_duration. unfold classify_static.
    split; [|split].
    + intros H. apply Qltb_lt in H. now rewrite H.
    + intros H1 H2. apply Qltb_ge in H1. apply Qltb_lt in H2.
      now rewrite H1, H2.
    + intros H1 H2. apply Qltb_ge in H1. apply Qltb_ge in H2.
      now rewrite H1, H2.
  - intros cfd self video_duration frames segs. apply detect_reasons.
  - intros cfd frames Hdiff Hts.
    destruct frames as [|f0 [|f1 [|f2 [|f3 [|f4 [|f5 more]]]]]];
      simpl in Hts;
      repeat match goal with
             | H : Forall2 _ _ _ |- _ => inversion H; clear H; subst
             end.
    match goal with
    | H0 : timestamp f0 == 0, H4 : timestamp f4 == 4 |- _ =>
        rename H0 into Ht0; rename H4 into Ht4
    end.
    unfold Static.detect_static_segments.
    cbn [List.length Nat.ltb Nat.leb]. rewrite last_item_cons.
    rewrite loop_low_enter; [|reflexivity|].
    + cbn [bind]. unfold Static.close_at_end.
      cbn [in_static static_start segments app last].
      assert (Qle_bool (min_duration (init settings (Some 0.02) (Some 1.0)))
                (timestamp f4 - timestamp f0) = true) as ->.
      { rewrite Ht4, Ht0. reflexivity. }
      eexists. split; [reflexivity|]. cbn [reason].
      unfold classify_static.
      assert (Qltb (timestamp f0) 30 = true) as ->
        by (rewrite Ht0; reflexivity).
      reflexivity.
    + cbn [Static.all_low].
      repeat split; rewrite Hdiff; reflexivity.
Qed.

Lemma exit_closed_confidence_zero_witness :
  exists st,
    Static.loop Samples.low_until_two Samples.detector 120
      (Samples.frame_at 0)
      [Samples.frame_at 1; Samples.frame_at 2; Samples.frame_at 3] initial
    = Some st
    /\ Forall (fun s => confidence s == 0) (segments st)
    /\ (forall last_frame,
          Static.close_at_end Samples.detector 120 last_frame st = segments st
          \/ exists s,
               in_static st = true
               /\ Static.close_at_end Samples.detector 120 last_frame st
                  = segments st ++ [s]
               /\ confidence s == 0.9
               /\ end_ s = timestamp last_frame)
    /\ ([Samples.frame_at 1; Samples.frame_at 2; Samples.frame_at 3] <> [] ->
        Static.detect_static_segments Samples.low_until_two Samples.detector
          120
          (Samples.frame_at 0
           :: [Samples.frame_at 1; Samples.frame_at 2; Samples.frame_at 3])
        = Some (Static.close_at_end Samples.detector 120
                  (last [Samples.frame_at 1; Samples.frame_at 2;
                         Samples.frame_at 3] (Samples.frame_at 0)) st)).
Proof.
  apply exit_closed_confidence_zero. left. reflexivity.
Defined.

Lemma classify_static_precedence_witness :
  exists s,
    Static.detect_static_segments (fun _ _ => 0.01)
      (init settings (Some 0.02) (Some 1.0)) 120
      (map Samples.frame_at [0; 1; 2; 3; 4]) = Some [s]
    /\ reason s = PRE_ARM.
Proof.
  apply (proj2 (proj2 classify_static_precedence)).
  - intros a b. reflexivity.
  - simpl. repeat constructor; reflexivity.
Defined.

End StaticFacts.

(** ** Highlights *)

Module HighlightFacts.
Import Py PyFacts ListFacts Schema Aggregation.

(** Python's [sum] adds from the left; the mean of the specification adds from
    the right. *)
Lemma sum_fold_right (xs : list Z) : sum xs = fold_right Z.add 0%Z xs.
Proof.
  unfold sum. apply fold_symmetric; intros; lia.
Qed.

(** Floor division of integers is the floor of their rational quotient. *)
Lemma Qfloor_div (a b : Z) :
  (0 < b)%Z -> Qfloor (inject_Z a / inject_Z b) = (a / b)%Z.
Proof.
  intros Hb. destruct b as [|p|p]; try lia.
  unfold Qdiv, Qinv, Qmult, inject_Z, Qfloor. simpl.
  now rewrite Z.mul_1_r.
Qed.

Lemma floor_mean (xs : list Z) :
  xs <> [] ->
  floordiv (sum xs) (Z.of_nat (List.length xs)) = Some (Qfloor (Spec.mean xs)).
Proof.
  intros Hxs. unfold floordiv, Spec.mean.
  assert (0 < Z.of_nat (List.length xs))%Z as Hlen
    by (destruct xs; [congruence|simpl; lia]).
  destruct (Z.eqb_spec (Z.of_nat (List.length xs)) 0); [lia|].
  rewrite Qfloor_div by assumption. now rewrite sum_fold_right.
Qed.

Section Methods.

Variable self : Aggregator.

Local Abbreviation passes := (Aggregation.passes self).
Local Abbreviation _create_highlight := (Aggregation._create_highlight).
Local Abbreviation loop_body := (Aggregation.loop_body self).
Local Abbreviation loop := (Aggregation.loop self).
Local Abbreviation close_at_end := (Aggregation.close_at_end self).
Local Abbreviation detect_highlights := (Aggregation.detect_highlights self).
Local Abbreviation step_kind := (Aggregation.step_kind self).

(** [_create_highlight] succeeds on the frames of a run, with the bounds it is
    given and the floor of the mean score. *)
Lemma create_highlight_some start end_ frames :
  frames <> [] ->
  exists h,
    _create_highlight start end_ frames = Some h
    /\ Highlight.start h = start
    /\ Highlight.end_ h = end_
    /\ Highlight.score h
       = Qfloor (Spec.mean (map FrameAnalysis.interest_score frames)).
Proof.
  intros Hne. unfold Aggregation._create_highlight.
  rewrite <- (length_map FrameAnalysis.interest_score frames).
  rewrite floor_mean by (destruct frames; [congruence|discriminate]).
  destruct frames as [|f frames]; [congruence|].
  cbn [bind max_by]. eexists. split; [reflexivity|]. auto.
Qed.

Lemma create_highlight_inv start end_ frames h :
  _create_highlight start end_ frames = Some h ->
  frames <> []
  /\ Highlight.start h = start
  /\ Highlight.end_ h = end_
  /\ Highlight.score h
     = Qfloor (Spec.mean (map FrameAnalysis.interest_score frames)).
Proof.
  intros H. destruct frames as [|f frames]; [discriminate|].
  destruct (create_highlight_some start end_ (f :: frames)) as (h' & E & K);
    [discriminate|].
  rewrite E in H. injection H as <-. split; [discriminate|exact K].
Qed.

Lemma highlight_loop_body_inv prev fa st st' :
  loop_body prev fa st = Some st' -> step_kind prev fa st st'.
Proof.
  unfold Aggregation.loop_body. intros H.
  fold (passes fa) in H.
  destruct (passes fa) eqn:Epass.
  - destruct (in_highlight st) eqn:Ein; simpl in H; injection H as <-.
    + now apply step_extend.
    + now apply step_enter.
  - destruct (in_highlight st) eqn:Ein.
    + destruct (Qle_bool _ _) eqn:Edur.
      * apply Qle_bool_iff in Edur.
        destruct (_create_highlight _ _ _) as [h|] eqn:Eh; simpl in H;
          [|discriminate].
        injection H as <-. eapply step_emit; eauto.
      * apply Qle_bool_gt in Edur. simpl in H. injection H as <-.
        now apply step_short.
    + injection H as <-. now apply step_idle.
Qed.

(** The loop never raises: an open run always has a frame. *)
Lemma loop_total rest : forall prev st,
  (in_highlight st = true -> highlight_frames st <> []) ->
  exists st',
    loop prev rest st = Some st'
    /\ (in_highlight st' = true -> highlight_frames st' <> []).
Proof.
  induction rest as [|fa rest IH]; intros prev st Hinv.
  - exists st. auto.
  - simpl.
    assert (exists st1, loop_body prev fa st = Some st1
              /\ (in_highlight st1 = true -> highlight_frames st1 <> []))
      as (st1 & E1 & H1).
    { unfold Aggregation.loop_body.
      destruct (_ <=? _)%Z.
      - destruct (in_highlight st) eqn:Ein; simpl; eexists; split;
          try reflexivity; simpl; intros _.
        + destruct (highlight_frames st); discriminate.
        + discriminate.
      - destruct (in_highlight st) eqn:Ein; [|eauto].
        destruct (Qle_bool _ _).
        + destruct (create_highlight_some (highlight_start st)
                      (FrameAnalysis.timestamp prev) (highlight_frames st))
            as (h & Eh & _); [auto|].
          rewrite Eh. simpl. eexists. split; [reflexivity|]. discriminate.
        + simpl. eexists. split; [reflexivity|]. discriminate. }
    rewrite E1. simpl. apply IH. assumption.
Qed.

Lemma detect_highlights_total frame_analyses :
  exists hs, detect_highlights frame_analyses = Some hs.
Proof.
  unfold Aggregation.detect_highlights.
  destruct frame_analyses as [|first rest]; [eauto|].
  destruct (loop_total (first :: rest) (last_item (first :: rest) first) initial)
    as (st & E & Hinv); [discriminate|].
  rewrite E. cbn [bind]. unfold Aggregation.close_at_end.
  destruct (in_highlight st) eqn:Ein; [|eauto].
  destruct (Qle_bool _ _); [|eauto].
  destruct (create_highlight_some (highlight_start st)
              (FrameAnalysis.timestamp (last_item (first :: rest) first))
              (highlight_frames st)) as (h & Eh & _); [auto|].
  rewrite Eh. simpl. eauto.
Qed.

Lemma highlight_loop_app prev l1 l2 st :
  loop prev (l1 ++ l2) st =
  (st1 <- loop prev l1 st ;; loop (last l1 prev) l2 st1).
Proof.
  revert prev st. induction l1 as [|fa l1 IH]; intros prev st.
  - reflexivity.
  - rewrite last_shift. simpl.
    destruct (loop_body prev fa st) as [st1|]; simpl; [apply IH|reflexivity].
Qed.

(** An invariant of the iterations over records in time order is an invariant
    of the loop. *)
Lemma highlight_loop_invariant_sorted (P : FrameAnalysis.t -> LoopState -> Prop) :
  (forall prev fa st st',
      FrameAnalysis.timestamp prev <= FrameAnalysis.timestamp fa ->
      P prev st -> loop_body prev fa st = Some st' -> P fa st') ->
  forall rest prev st st',
    Sorted Qle (map FrameAnalysis.timestamp (prev :: rest)) ->
    P prev st -> loop prev rest st = Some st' -> P (last rest prev) st'.
Proof.
  intros Hstep. induction rest as [|fa rest IH]; intros prev st st' Hs HP H.
  - simpl in *. congruence.
  - simpl in H. destruct (loop_body prev fa st) as [st1|] eqn:E1;
      simpl in H; [|discriminate].
    rewrite last_shift. simpl in Hs.
    apply Sorted_inv in Hs. destruct Hs as [Hs Hhd].
    apply HdRel_inv in Hhd.
    eapply IH; eauto.
Qed.

(** An invariant that may speak of the records already visited: [done] is the
    prefix before the current record and [prev] its last element. *)
Lemma loop_invariant_prefix (all : list FrameAnalysis.t)
    (P : list FrameAnalysis.t -> LoopState -> Prop) :
  (forall done prev fa rest st st',
      all = done ++ fa :: rest -> prev = last done prev ->
      P done st -> loop_body prev fa st = Some st' -> P (done ++ [fa]) st') ->
  forall rest done prev st st',
    all = done ++ rest -> prev = last done prev ->
    P done st -> loop prev rest st = Some st' -> P all st'.
Proof.
  intros Hstep. induction rest as [|fa rest IH];
    intros done prev st st' Hall Hprev HP H.
  - simpl in H. injection H as <-. rewrite Hall, app_nil_r. assumption.
  - simpl in H. destruct (loop_body prev fa st) as [st1|] eqn:E1;
      simpl in H; [|discriminate].
    apply (IH (done ++ [fa]) fa st1 st'); auto.
    + rewrite <- app_assoc. exact Hall.
    + now rewrite last_last.
    + eapply Hstep; eauto.
Qed.

(** Highlights are only ever appended. *)
Lemma highlight_loop_body_extends prev fa st st' :
  loop_body prev fa st = Some st' ->
  exists ext, highlights st' = highlights st ++ ext.
Proof.
  intros H. apply highlight_loop_body_inv in H.
  destruct H as [_ _ ->|_ _ ->|_ _ ->|_ _ _ ->|h _ _ _ _ ->]; simpl;
    try (exists []; now rewrite app_nil_r).
  eexists. reflexivity.
Qed.

Lemma highlight_loop_extends rest : forall prev st st',
  loop prev rest st = Some st' ->
  exists ext, highlights st' = highlights st ++ ext.
Proof.
  induction rest as [|fa rest IH]; intros prev st st' H.
  - injection H as <-. exists []. now rewrite app_nil_r.
  - simpl in H. destruct (loop_body prev fa st) as [st1|] eqn:E1;
      simpl in H; [|discriminate].
    apply highlight_loop_body_extends in E1. destruct E1 as [e1 E1].
    apply IH in H. destruct H as [e2 E2].
    exists (e1 ++ e2). rewrite E2, E1. now rewrite app_assoc.
Qed.

(** What the code after the loop returns. *)
Lemma close_at_end_inv last_fa st hs :
  close_at_end last_fa st = Some hs ->
  (hs = highlights st
   /\ (in_highlight st = false
       \/ FrameAnalysis.timestamp last_fa - highlight_start st
          < highlight_min_duration self))
  \/ exists h,
       in_highlight st = true
       /\ highlight_min_duration self
          <= FrameAnalysis.timestamp last_fa - highlight_start st
       /\ _create_highlight (highlight_start st)
            (FrameAnalysis.timestamp last_fa) (highlight_frames st) = Some h
       /\ hs = highlights st ++ [h].
Proof.
  unfold Aggregation.close_at_end.
  destruct (in_highlight st); [|intros [= <-]; left; auto].
  destruct (Qle_bool _ _) eqn:Edur.
  - apply Qle_bool_iff in Edur.
    destruct (_create_highlight _ _ _) as [h|] eqn:Eh; simpl; [|discriminate].
    intros [= <-]. right. exists h. auto.
  - apply Qle_bool_gt in Edur. intros [= <-]. left. auto.
Qed.

(** With records in time order, the emitted highlights last long enough, run
    forwards, and each ends before the next starts. *)
Lemma highlight_detect_runs_ordered frame_analyses hs :
  Sorted Qle (map FrameAnalysis.timestamp frame_analyses) ->
  detect_highlights frame_analyses = Some hs ->
  Forall (fun h => highlight_min_duration self
                     <= Highlight.end_ h - Highlight.start h
                   /\ Highlight.start h <= Highlight.end_ h) hs
  /\ ForallOrdPairs (fun a b => Highlight.end_ a <= Highlight.start b) hs.
Proof.
  intros Hs. unfold Aggregation.detect_highlights.
  destruct frame_analyses as [|first rest];
    [intros [= <-]; split; constructor|].
  rewrite last_item_cons. cbn [Aggregation.loop].
  destruct (loop_body (last rest first) first initial) as [st1|] eqn:E1;
    cbn [bind]; [|discriminate].
  destruct (loop first rest st1) as [st|] eqn:E; cbn [bind]; [|discriminate].
  intros Hclose.
  pose (P := fun (prev : FrameAnalysis.t) (st : LoopState) =>
    Forall (fun h => (highlight_min_duration self
                        <= Highlight.end_ h - Highlight.start h
                      /\ Highlight.start h <= Highlight.end_ h)
                     /\ Highlight.end_ h <= FrameAnalysis.timestamp prev)
      (highlights st)
    /\ ForallOrdPairs (fun a b => Highlight.end_ a <= Highlight.start b)
         (highlights st)
    /\ (in_highlight st = true ->
        highlight_start st <= FrameAnalysis.timestamp prev
        /\ Forall (fun h => Highlight.end_ h <= highlight_start st)
             (highlights st))).
  assert (P first st1) as HP1.
  { apply highlight_loop_body_inv in E1.
    destruct E1 as [_ _ ->|_ Hin _|_ _ ->|_ Hin _ _|h _ Hin _ _ _];
      try discriminate; unfold P; simpl.
    - repeat split; try constructor. apply Qle_refl.
    - repeat split; try constructor; discriminate. }
  assert (P (last rest first) st) as (Hall & Hord & Hopen).
  { refine (highlight_loop_invariant_sorted P _ rest first st1 st Hs HP1 E).
    clear. intros prev fa st st' Hle (Hall & Hord & Hopen) H.
    assert (Forall (fun h => (highlight_min_duration self
                                <= Highlight.end_ h - Highlight.start h
                              /\ Highlight.start h <= Highlight.end_ h)
                             /\ Highlight.end_ h <= FrameAnalysis.timestamp fa)
              (highlights st)) as Hall'.
    { eapply Forall_impl; [|exact Hall]. simpl. intros h [? ?]. split; auto.
      eapply Qle_trans; eauto. }
    apply highlight_loop_body_inv in H.
    destruct H as [_ _ ->|_ Hin ->|_ Hin ->|_ _ _ ->|h _ Hin Hdur Hh ->]; simpl.
    - split; [assumption|]. split; [assumption|]. intros _.
      split; [apply Qle_refl|].
      eapply Forall_impl; [|exact Hall']. simpl. tauto.
    - destruct (Hopen Hin) as [H1 H2].
      split; [assumption|]. split; [assumption|]. intros _.
      split; [eapply Qle_trans; eauto|assumption].
    - split; [assumption|]. split; [assumption|]. congruence.
    - split; [assumption|]. split; [assumption|]. discriminate.
    - destruct (Hopen Hin) as [H1 H2].
      apply create_highlight_inv in Hh. destruct Hh as (_ & Hs & He & _).
      split; [|split; [|discriminate]].
      + apply Forall_app. split; [assumption|].
        constructor; [|constructor]. rewrite Hs, He. auto.
      + apply ForallOrdPairs_snoc; [assumption|].
        eapply Forall_impl; [|exact H2]. simpl. intros a Ha. now rewrite Hs. }
  assert (Forall (fun h => highlight_min_duration self
                             <= Highlight.end_ h - Highlight.start h
                           /\ Highlight.start h <= Highlight.end_ h)
            (highlights st)) as Hall'.
  { eapply Forall_impl; [|exact Hall]. simpl. tauto. }
  apply close_at_end_inv in Hclose.
  destruct Hclose as [[-> _]|(h & Hin & Hdur & Hh & ->)]; [auto|].
  destruct (Hopen Hin) as [H1 H2].
  apply create_highlight_inv in Hh. destruct Hh as (_ & Hst & He & _).
  split.
  - apply Forall_app. split; [assumption|].
    constructor; [|constructor]. rewrite Hst, He. auto.
  - apply ForallOrdPairs_snoc; [assumption|].
    eapply Forall_impl; [|exact H2]. simpl. intros a Ha. now rewrite Hst.
Qed.

(** Every emitted highlight is built from a run: a contiguous stretch of
    passing records.  It starts at the run's first record, ends at its last,
    and scores the floor of the mean of the run's interest scores. *)
Lemma detect_runs frame_analyses hs :
  detect_highlights frame_analyses = Some hs ->
  Forall (fun h => exists pre r run post,
            frame_analyses = pre ++ (r :: run) ++ post
            /\ Forall (fun fa => passes fa = true) (r :: run)
            /\ Highlight.start h = FrameAnalysis.timestamp r
            /\ Highlight.end_ h = FrameAnalysis.timestamp (last run r)
            /\ Highlight.score h
               = Qfloor (Spec.mean
                           (map FrameAnalysis.interest_score (r :: run)))) hs.
Proof.
  unfold Aggregation.detect_highlights.
  destruct frame_analyses as [|first rest]; [intros [= <-]; constructor|].
  set (all := first :: rest).
  destruct (loop (last_item all first) all initial) as [st|] eqn:E;
    cbn [bind]; [|discriminate].
  intros Hclose.
  pose (R := fun (done : list FrameAnalysis.t) (h : Highlight.t) =>
    exists pre r run post,
      done = pre ++ (r :: run) ++ post
      /\ Forall (fun fa => passes fa = true) (r :: run)
      /\ Highlight.start h = FrameAnalysis.timestamp r
      /\ Highlight.end_ h = FrameAnalysis.timestamp (last run r)
      /\ Highlight.score h
         = Qfloor (Spec.mean (map FrameAnalysis.interest_score (r :: run)))).
  pose (P := fun (done : list FrameAnalysis.t) (st : LoopState) =>
    Forall (R done) (highlights st)
    /\ (in_highlight st = true ->
        exists pre r run,
          highlight_frames st = r :: run
          /\ done = pre ++ r :: run
          /\ Forall (fun fa => passes fa = true) (r :: run)
          /\ highlight_start st = FrameAnalysis.timestamp r)).
  assert (forall done fa h, R done h -> R (done ++ [fa]) h) as Rmono.
  { intros done fa h (pre & r & run & post & -> & K).
    exists pre, r, run, (post ++ [fa]). split; [|exact K].
    now rewrite <- !app_assoc. }
  assert (P all st) as [Hall Hopen].
  { refine (loop_invariant_prefix all P _ all [] (last_item all first)
              initial st eq_refl eq_refl _ E).
    - clear - Rmono. intros done prev fa rest' st st' _ Hprev [Hall Hopen] H.
      assert (Forall (R (done ++ [fa])) (highlights st)) as Hall'
        by (eapply Forall_impl; [|exact Hall]; intros h; apply Rmono).
      apply highlight_loop_body_inv in H.
      destruct H as [Hp _ ->|Hp Hin ->|_ Hin ->|_ _ _ ->|h _ Hin _ Hh ->];
        simpl.
      + split; [assumption|]. intros _. exists done, fa, [].
        repeat split; auto.
      + split; [assumption|]. intros _.
        destruct (Hopen Hin) as (pre & r & run & Hf & -> & Hpass & Hst).
        exists pre, r, (run ++ [fa]). rewrite Hf.
        split; [reflexivity|]. split; [now rewrite <- app_assoc|].
        split; [|assumption].
        change (r :: run ++ [fa]) with ((r :: run) ++ [fa]).
        apply Forall_app. split; [assumption|]. constructor; auto.
      + split; [assumption|]. congruence.
      + split; [assumption|]. discriminate.
      + split; [|discriminate].
        apply Forall_app. split; [assumption|]. constructor; [|constructor].
        destruct (Hopen Hin) as (pre & r & run & Hf & Hd & Hpass & Hst).
        apply create_highlight_inv in Hh.
        destruct Hh as (_ & Hs & He & Hsc).
        exists pre, r, run, [fa]. rewrite Hs, He, Hsc, Hf, Hst.
        rewrite Hprev, Hd, last_app_cons.
        split; [now rewrite <- app_assoc|]. auto.
    - split; [constructor|]. discriminate. }
  apply close_at_end_inv in Hclose.
  destruct Hclose as [[-> _]|(h & Hin & _ & Hh & ->)]; [assumption|].
  apply Forall_app. split; [assumption|]. constructor; [|constructor].
  destruct (Hopen Hin) as (pre & r & run & Hf & Hd & Hpass & Hst).
  apply create_highlight_inv in Hh. destruct Hh as (_ & Hs & He & Hsc).
  exists pre, r, run, []. rewrite Hs, He, Hsc, Hf, Hst.
  unfold last_item. rewrite Hd, last_app_cons, app_nil_r. auto.
Qed.

(** Inside a run, passing records are appended to its frames. *)
Lemma loop_pass_extend run : forall prev st,
  in_highlight st = true ->
  Forall (fun fa => passes fa = true) run ->
  loop prev run st =
  Some {| highlights := highlights st;
          in_highlight := true;
          highlight_start := highlight_start st;
          highlight_frames := highlight_frames st ++ run |}.
Proof.
  induction run as [|fa run IH]; intros prev st Hin Hpass.
  - simpl. rewrite app_nil_r. destruct st; simpl in *. now subst.
  - inversion Hpass as [|? ? Hfa Hrun]; subst. simpl.
    unfold Aggregation.loop_body.
    unfold Aggregation.passes in Hfa. rewrite Hfa, Hin. simpl.
    rewrite IH by auto. simpl. now rewrite <- app_assoc.
Qed.

(** Outside a run, the first passing record opens one that starts at that
    record. *)
Lemma loop_pass_enter r run prev st :
  in_highlight st = false ->
  Forall (fun fa => passes fa = true) (r :: run) ->
  loop prev (r :: run) st =
  Some {| highlights := highlights st;
          in_highlight := true;
          highlight_start := FrameAnalysis.timestamp r;
          highlight_frames := r :: run |}.
Proof.
  intros Hin Hpass. inversion Hpass as [|? ? Hr Hrun]; subst. simpl.
  unfold Aggregation.loop_body.
  unfold Aggregation.passes in Hr. rewrite Hr, Hin. simpl.
  now rewrite loop_pass_extend.
Qed.

(** A failing record always leaves the loop outside a run. *)
Lemma loop_body_fail_exits prev fa st st' :
  passes fa = false ->
  loop_body prev fa st = Some st' -> in_highlight st' = false.
Proof.
  intros Hfail H. apply highlight_loop_body_inv in H.
  destruct H as [Hp _ _|Hp _ _|_ Hin ->|_ _ _ ->|h _ _ _ _ ->]; auto;
    congruence.
Qed.

(** After a failing record the loop is outside a run. *)
Lemma loop_last_fail pre d : forall prev st st0,
  pre <> [] -> passes (last pre d) = false ->
  loop prev pre st = Some st0 -> in_highlight st0 = false.
Proof.
  induction pre as [|a pre IH]; intros prev st st0 Hne Hfail H;
    [congruence|].
  simpl in H. destruct (loop_body prev a st) as [st1|] eqn:E1;
    cbn [bind] in H; [|discriminate].
  destruct pre as [|b pre'].
  - injection H as <-. eapply loop_body_fail_exits; eauto.
  - apply (IH a st1 st0); [discriminate| |exact H].
    exact Hfail.
Qed.

(** Arriving at the records [tail] outside a run: either they open the series
    or the record before them fails. *)
Lemma highlight_detect_split pre tail d hs :
  (pre = [] \/ passes (last pre d) = false) ->
  tail <> [] ->
  detect_highlights (pre ++ tail) = Some hs ->
  exists prev st0 st,
    in_highlight st0 = false
    /\ loop prev tail st0 = Some st
    /\ close_at_end (last tail d) st = Some hs.
Proof.
  intros Hpre Htail H.
  assert (exists st0 st,
             loop (last tail d) pre initial = Some st0
             /\ loop (last pre (last tail d)) tail st0 = Some st
             /\ close_at_end (last tail d) st = Some hs)
    as (st0 & st & E0 & E & Hclose).
  { unfold Aggregation.detect_highlights in H.
    destruct tail as [|t tail']; [congruence|].
    destruct (pre ++ t :: tail') as [|first rest] eqn:Eall;
      [destruct pre; discriminate|].
    assert (last_item (first :: rest) first = last (t :: tail') d) as Hlast.
    { unfold last_item. rewrite <- Eall, last_app_cons.
      now rewrite last_shift. }
    rewrite Hlast in H. rewrite <- Eall, highlight_loop_app in H.
    destruct (loop (last (t :: tail') d) pre initial) as [st0|] eqn:E0;
      cbn [bind] in H; [|discriminate].
    destruct (loop (last pre (last (t :: tail') d)) (t :: tail') st0)
      as [st|] eqn:E; cbn [bind] in H; [|discriminate].
    exists st0, st. auto. }
  exists (last pre (last tail d)), st0, st.
  split; [|auto].
  destruct pre as [|f0 pre'].
  - simpl in E0. now injection E0 as <-.
  - destruct Hpre as [Hpre|Hpre]; [discriminate|].
    apply (loop_last_fail (f0 :: pre') d (last tail d) initial st0);
      [discriminate|exact Hpre|exact E0].
Qed.

(** A run exited mid-series: its highlight starts at the run's first record
    and ends at its last, the record before the failing one. *)
Lemma highlight_detect_run_mid pre r run x post :
  (pre = [] \/ passes (last pre r) = false) ->
  Forall (fun fa => passes fa = true) (r :: run) ->
  passes x = false ->
  highlight_min_duration self
    <= FrameAnalysis.timestamp (last run r) - FrameAnalysis.timestamp r ->
  exists before h after,
    detect_highlights (pre ++ (r :: run) ++ x :: post)
    = Some (before ++ h :: after)
    /\ Highlight.start h = FrameAnalysis.timestamp r
    /\ Highlight.end_ h = FrameAnalysis.timestamp (last run r).
Proof.
  intros Hpre Hpass Hfail Hdur.
  destruct (detect_highlights_total (pre ++ (r :: run) ++ x :: post))
    as [hs H].
  rewrite H.
  apply (highlight_detect_split pre _ r) in H; [|assumption|discriminate].
  destruct H as (prev & st0 & st & Hin0 & Hloop & Hclose).
  rewrite highlight_loop_app, (loop_pass_enter r run prev st0 Hin0 Hpass) in Hloop.
  cbn [bind Aggregation.loop] in Hloop. rewrite last_shift in Hloop.
  match type of Hloop with
  | context [loop_body ?a ?b ?s] =>
      destruct (loop_body a b s) as [st2|] eqn:E2
  end; cbn [bind] in Hloop; [|discriminate].
  apply highlight_loop_body_inv in E2.
  destruct E2 as [Hp _ _|Hp _ _|_ Hin _|_ _ Hshort _|h _ _ _ Hh ->];
    try congruence; try discriminate.
  - exfalso. simpl in Hshort. apply (Qlt_not_le _ _ Hshort Hdur).
  - simpl in Hh. apply create_highlight_inv in Hh.
    destruct Hh as (_ & Hs & He & _).
    apply highlight_loop_extends in Hloop. destruct Hloop as [e1 E1]. simpl in E1.
    apply close_at_end_inv in Hclose.
    destruct Hclose as [[-> _]|(h' & _ & _ & _ & ->)]; rewrite E1.
    + exists (highlights st0), h, e1. rewrite <- app_assoc. auto.
    + exists (highlights st0), h, (e1 ++ [h']). rewrite <- !app_assoc. auto.
Qed.

(** A run still open when the series ends: its highlight closes at the last
    record. *)
Lemma highlight_detect_run_end pre r run :
  (pre = [] \/ passes (last pre r) = false) ->
  Forall (fun fa => passes fa = true) (r :: run) ->
  highlight_min_duration self
    <= FrameAnalysis.timestamp (last run r) - FrameAnalysis.timestamp r ->
  exists before h,
    detect_highlights (pre ++ r :: run) = Some (before ++ [h])
    /\ Highlight.start h = FrameAnalysis.timestamp r
    /\ Highlight.end_ h = FrameAnalysis.timestamp (last run r).
Proof.
  intros Hpre Hpass Hdur.
  destruct (detect_highlights_total (pre ++ r :: run)) as [hs H].
  rewrite H.
  apply (highlight_detect_split pre _ r) in H; [|assumption|discriminate].
  destruct H as (prev & st0 & st & Hin0 & Hloop & Hclose).
  rewrite (loop_pass_enter r run prev st0 Hin0 Hpass) in Hloop.
  injection Hloop as <-. rewrite last_shift in Hclose.
  apply close_at_end_inv in Hclose. simpl in Hclose.
  destruct Hclose as [[_ [Hin|Hshort]]|(h & _ & _ & Hh & ->)].
  - discriminate.
  - exfalso. apply (Qlt_not_le _ _ Hshort Hdur).
  - apply create_highlight_inv in Hh. destruct Hh as (_ & Hs & He & _).
    exists (highlights st0), h. auto.
Qed.

End Methods.

End HighlightFacts.

(** ** Run detection, both detectors *)

Module RunFacts.
Import Py PyFacts ListFacts Schema.

Lemma ForallOrdPairs_weaken {A : Type} (P : A -> Prop) (R S : A -> A -> Prop)
    (l : list A) :
  (forall a b, P a -> R a b -> S a b) ->
  Forall P l -> ForallOrdPairs R l -> ForallOrdPairs S l.
Proof.
  intros Himp HP HR. induction HR as [|a l Ha Hl IH].
  - constructor.
  - inversion HP; subst. constructor.
    + eapply Forall_impl; [|exact Ha]. intros b. now apply Himp.
    + now apply IH.
Qed.

(** C3. With samples in time order, every emitted run (static segment or
    highlight) lasts at least the minimum duration, no emitted run starts
    before an earlier one has ended, and the runs come in non-decreasing
    order of start time.  The highlight detector always returns; the static
    detector returns whenever its threshold is positive or the difference
    measure is non-negative. *)
Theorem emitted_runs_ordered :
  (forall compute_frame_difference self video_duration frames segs,
      Sorted Qle (map Frames.timestamp frames) ->
      Static.detect_static_segments compute_frame_difference self
        video_duration frames = Some segs ->
      Forall (fun s => Static.min_duration self
                         <= StaticSegment.end_ s - StaticSegment.start s) segs
      /\ ForallOrdPairs
           (fun a b => StaticSegment.end_ a <= StaticSegment.start b) segs
      /\ ForallOrdPairs
           (fun a b => StaticSegment.start a <= StaticSegment.start b) segs)
  /\ (forall compute_frame_difference self video_duration frames,
        (0 < Static.threshold self
         \/ forall a b, 0 <= compute_frame_difference a b) ->
        exists segs,
          Static.detect_static_segments compute_frame_difference self
            video_duration frames = Some segs)
  /\ (forall self frame_analyses,
        Sorted Qle (map FrameAnalysis.timestamp frame_analyses) ->
        exists hs,
          Aggregation.detect_highlights self frame_analyses = Some hs
          /\ Forall (fun h => Aggregation.highlight_min_duration self
                                <= Highlight.end_ h - Highlight.start h) hs
          /\ ForallOrdPairs
               (fun a b => Highlight.end_ a <= Highlight.start b) hs
          /\ ForallOrdPairs
               (fun a b => Highlight.start a <= Highlight.start b) hs).
Proof.
  split; [|split].
  - intros cfd self vd frames segs Hs H.
    destruct (StaticFacts.detect_runs_ordered cfd self vd frames segs Hs H)
      as [Hall Hord].
    split; [|split; [assumption|]].
    + eapply Forall_impl; [|exact Hall]. simpl. tauto.
    + eapply (ForallOrdPairs_weaken
                (fun s => StaticSegment.start s <= StaticSegment.end_ s));
        [| |exact Hord].
      * intros a b Ha Hab. eapply Qle_trans; eauto.
      * eapply Forall_impl; [|exact Hall]. simpl. tauto.
  - intros cfd self vd frames Hdom.
    now apply StaticFacts.detect_static_segments_total.
  - intros self fas Hs.
    destruct (HighlightFacts.detect_highlights_total self fas) as [hs H].
    exists hs. split; [assumption|].
    destruct (HighlightFacts.highlight_detect_runs_ordered self fas hs Hs H)
      as [Hall Hord].
    split; [|split; [assumption|]].
    + eapply Forall_impl; [|exact Hall]. simpl. tauto.
    + eapply (ForallOrdPairs_weaken
                (fun h => Highlight.start h <= Highlight.end_ h));
        [| |exact Hord].
      * intros a b Ha Hab. eapply Qle_trans; eauto.
      * eapply Forall_impl; [|exact Hall]. simpl. tauto.
Qed.

(** C1, as amended.  A static run starts at the frame before its first low
    sample and, when left mid-series, ends at the frame of the first high
    sample; a highlight run starts at its first passing record and, when left
    mid-series, ends at its last passing record, the one before the first
    failing record.  A run of either kind still open when the series ends
    closes at the last sample. *)
Theorem run_boundaries :
  (forall compute_frame_difference self video_duration pre p run x post,
      (0 < Static.threshold self
       \/ forall a b, 0 <= compute_frame_difference a b) ->
      (pre = []
       \/ Static.threshold self <= compute_frame_difference (last pre p) p) ->
      run <> [] ->
      Static.all_low compute_frame_difference self p run ->
      Static.threshold self <= compute_frame_difference (last run p) x ->
      Static.min_duration self <= Frames.timestamp x - Frames.timestamp p ->
      exists before s after,
        Static.detect_static_segments compute_frame_difference self
          video_duration (pre ++ p :: run ++ x :: post)
        = Some (before ++ s :: after)
        /\ StaticSegment.start s = Frames.timestamp p
        /\ StaticSegment.end_ s = Frames.timestamp x)
  /\ (forall compute_frame_difference self video_duration pre p run,
        (0 < Static.threshold self
         \/ forall a b, 0 <= compute_frame_difference a b) ->
        (pre = []
         \/ Static.threshold self <= compute_frame_difference (last pre p) p) ->
        run <> [] ->
        Static.all_low compute_frame_difference self p run ->
        Static.min_duration self
          <= Frames.timestamp (last run p) - Frames.timestamp p ->
        exists before s,
          Static.detect_static_segments compute_frame_difference self
            video_duration (pre ++ p :: run)
          = Some (before ++ [s])
          /\ StaticSegment.start s = Frames.timestamp p
          /\ StaticSegment.end_ s = Frames.timestamp (last run p))
  /\ (forall self pre r run x post,
        (pre = [] \/ Aggregation.passes self (last pre r) = false) ->
        Forall (fun fa => Aggregation.passes self fa = true) (r :: run) ->
        Aggregation.passes self x = false ->
        Aggregation.highlight_min_duration self
          <= FrameAnalysis.timestamp (last run r) - FrameAnalysis.timestamp r ->
        exists before h after,
          Aggregation.detect_highlights self (pre ++ (r :: run) ++ x :: post)
          = Some (before ++ h :: after)
          /\ Highlight.start h = FrameAnalysis.timestamp r
          /\ Highlight.end_ h = FrameAnalysis.timestamp (last run r))
  /\ (forall self pre r run,
        (pre = [] \/ Aggregation.passes self (last pre r) = false) ->
        Forall (fun fa => Aggregation.passes self fa = true) (r :: run) ->
        Aggregation.highlight_min_duration self
          <= FrameAnalysis.timestamp (last run r) - FrameAnalysis.timestamp r ->
        exists before h,
          Aggregation.detect_highlights self (pre ++ r :: run)
          = Some (before ++ [h])
          /\ Highlight.start h = FrameAnalysis.timestamp r
          /\ Highlight.end_ h = FrameAnalysis.timestamp (last run r)).
Proof.
  split; [|split; [|split]].
  - intros cfd self vd pre p run x post Hdom Hpre Hrun Hlow Hhigh Hdur.
    destruct (StaticFacts.detect_static_segments_total cfd self vd
                (pre ++ p :: run ++ x :: post) Hdom) as [segs H].
    rewrite H.
    destruct (StaticFacts.detect_run_mid cfd self vd pre p run x post segs
                Hpre Hrun Hlow Hhigh Hdur H) as (before & conf & after & ->).
    eexists before, _, after. split; [reflexivity|]. split; reflexivity.
  - intros cfd self vd pre p run Hdom Hpre Hrun Hlow Hdur.
    destruct (StaticFacts.detect_static_segments_total cfd self vd
                (pre ++ p :: run) Hdom) as [segs H].
    rewrite H.
    destruct (StaticFacts.detect_run_end cfd self vd pre p run segs
                Hpre Hrun Hlow Hdur H) as (before & ->).
    eexists before, _. split; [reflexivity|]. split; reflexivity.
  - intros self pre r run x post. apply HighlightFacts.highlight_detect_run_mid.
  - intros self pre r run. apply HighlightFacts.highlight_detect_run_end.
Qed.

(** C2. Every emitted highlight scores the floor of the arithmetic mean of the
    interest scores of its run, the passing records from its start to its
    end; scores 6, 9, 8 give 7 and scores 7, 8 give 7. *)
Theorem highlight_score_floor_mean :
  (forall self frame_analyses,
      exists hs,
        Aggregation.detect_highlights self frame_analyses = Some hs
        /\ Forall (fun h => exists pre r run post,
                     frame_analyses = pre ++ (r :: run) ++ post
                     /\ Forall (fun fa => Aggregation.passes self fa = true)
                          (r :: run)
                     /\ Highlight.start h = FrameAnalysis.timestamp r
                     /\ Highlight.end_ h = FrameAnalysis.timestamp (last run r)
                     /\ Highlight.score h
                        = Qfloor (Spec.mean
                                    (map FrameAnalysis.interest_score
                                       (r :: run)))) hs)
  /\ (forall start end_ frames,
        frames <> [] ->
        exists h,
          Aggregation._create_highlight start end_ frames = Some h
          /\ Highlight.score h
             = Qfloor (Spec.mean (map FrameAnalysis.interest_score frames)))
  /\ (forall start end_ frames,
        map FrameAnalysis.interest_score frames = [6; 9; 8]%Z ->
        exists h,
          Aggregation._create_highlight start end_ frames = Some h
          /\ Highlight.score h = 7%Z)
  /\ (forall start end_ frames,
        map FrameAnalysis.interest_score frames = [7; 8]%Z ->
        exists h,
          Aggregation._create_highlight start end_ frames = Some h
          /\ Highlight.score h = 7%Z).
Proof.
  split; [|split; [|split]].
  - intros self fas.
    destruct (HighlightFacts.detect_highlights_total self fas) as [hs H].
    exists hs. split; [assumption|].
    now apply HighlightFacts.detect_runs.
  - intros start end_ frames Hne.
    destruct (HighlightFacts.create_highlight_some start end_ frames Hne)
      as (h & E & _ & _ & Hsc).
    eauto.
  - intros start end_ frames Hsc.
    destruct (HighlightFacts.create_highlight_some start end_ frames)
      as (h & E & _ & _ & K); [intros ->; discriminate|].
    exists h. split; [assumption|]. rewrite K, Hsc. reflexivity.
  - intros start end_ frames Hsc.
    destruct (HighlightFacts.create_highlight_some start end_ frames)
      as (h & E & _ & _ & K); [intros ->; discriminate|].
    exists h. split; [assumption|]. rewrite K, Hsc. reflexivity.
Qed.

(** C8, as amended.  The static detector returns no segment for fewer than
    two frames, whatever the measure and the minimum duration.  The highlight
    detector returns no highlight for an empty series; for a single record it
    returns none exactly when the minimum duration is positive or the record
    fails the score threshold. *)
Theorem short_series_runs :
  (forall compute_frame_difference self video_duration frames,
      (List.length frames < 2)%nat ->
      Static.detect_static_segments compute_frame_difference self
        video_duration frames = Some [])
  /\ (forall self, Aggregation.detect_highlights self [] = Some [])
  /\ (forall self fa,
        Aggregation.detect_highlights self [fa] = Some []
        <-> (0 < Aggregation.highlight_min_duration self
             \/ Aggregation.passes self fa = false)).
Proof.
  split; [|split].
  - intros cfd self vd frames Hlen. unfold Static.detect_static_segments.
    apply Nat.ltb_lt in Hlen. now rewrite Hlen.
  - reflexivity.
  - intros self fa. unfold Aggregation.detect_highlights.
    rewrite last_item_cons. cbn [last Aggregation.loop].
    unfold Aggregation.loop_body. fold (Aggregation.passes self fa).
    destruct (Aggregation.passes self fa) eqn:Epass;
      cbn [Aggregation.in_highlight Aggregation.initial negb bind].
    + unfold Aggregation.close_at_end.
      cbn [Aggregation.in_highlight Aggregation.highlight_start
           Aggregation.highlight_frames Aggregation.highlights].
      destruct (Qle_bool _ _) eqn:Edur.
      * apply Qle_bool_iff in Edur.
        destruct (HighlightFacts.create_highlight_some
                    (FrameAnalysis.timestamp fa) (FrameAnalysis.timestamp fa)
                    [fa]) as (h & E & _); [discriminate|].
        rewrite E. cbn [bind app]. split; [discriminate|].
        intros [Hpos|Hf]; [|discriminate]. exfalso. lra.
      * apply Qle_bool_gt in Edur. split; [|reflexivity].
        intros _. left. lra.
    + split; [auto|reflexivity].
Qed.


Lemma emitted_runs_ordered_witness :
  (exists segs,
      Static.detect_static_segments Samples.low_until_two Samples.detector
        120 (map Samples.frame_at [0; 1; 2; 3]) = Some segs)
  /\ (exists hs,
        Aggregation.detect_highlights Samples.aggregator
          [Samples.record_at 0 8; Samples.record_at 6 8; Samples.record_at 7 3]
        = Some hs
        /\ Forall (fun h => Aggregation.highlight_min_duration
                              Samples.aggregator
                            <= Highlight.end_ h - Highlight.start h) hs
        /\ ForallOrdPairs
             (fun a b => Highlight.end_ a <= Highlight.start b) hs
        /\ ForallOrdPairs
             (fun a b => Highlight.start a <= Highlight.start b) hs).
Proof.
  split.
  - apply (proj1 (proj2 emitted_runs_ordered)). left. reflexivity.
  - apply (proj2 (proj2 emitted_runs_ordered)).
    simpl. repeat constructor; unfold Qle; simpl; lia.
Defined.

(** The highlight part of C1 as the specification states it fails: with
    passing records at 0 and 6 seconds and a failing record at 7 seconds the
    one highlight ends at 6, not at 7. *)
Lemma highlight_end_counterexample :
  Forall (fun fa => Aggregation.passes Samples.aggregator fa = true)
    [Samples.record_at 0 8; Samples.record_at 6 8]
  /\ Aggregation.passes Samples.aggregator (Samples.record_at 7 3) = false
  /\ Aggregation.highlight_min_duration Samples.aggregator
     <= FrameAnalysis.timestamp (Samples.record_at 6 8)
        - FrameAnalysis.timestamp (Samples.record_at 0 8)
  /\ ~ Spec.highlight_ends_at_exit_sample Samples.aggregator []
        (Samples.record_at 0 8) [Samples.record_at 6 8]
        (Samples.record_at 7 3) [].
Proof.
  split; [repeat constructor|]. split; [reflexivity|].
  split; [unfold Qle; simpl; lia|].
  intros (before & h & after & E & _ & He).
  vm_compute in E.
  destruct before as [|b before]; simpl in E.
  - injection E as <- _. vm_compute in He. discriminate.
  - injection E as _ E. destruct before; discriminate.
Qed.

Lemma run_boundaries_witness :
  (exists before s after,
      Static.detect_static_segments Samples.low_until_two Samples.detector
        120
        ([] ++ Samples.frame_at 0
            :: [Samples.frame_at 1; Samples.frame_at 2]
            ++ Samples.frame_at 3 :: [])
      = Some (before ++ s :: after)
      /\ StaticSegment.start s = Frames.timestamp (Samples.frame_at 0)
      /\ StaticSegment.end_ s = Frames.timestamp (Samples.frame_at 3))
  /\ (exists before h after,
        Aggregation.detect_highlights Samples.aggregator
          ([] ++ (Samples.record_at 0 8 :: [Samples.record_at 6 8])
              ++ Samples.record_at 7 3 :: [])
        = Some (before ++ h :: after)
        /\ Highlight.start h = FrameAnalysis.timestamp (Samples.record_at 0 8)
        /\ Highlight.end_ h
           = FrameAnalysis.timestamp
               (last [Samples.record_at 6 8] (Samples.record_at 0 8))).
Proof.
  split.
  - apply (proj1 run_boundaries).
    + left. reflexivity.
    + left. reflexivity.
    + discriminate.
    + simpl. repeat split; reflexivity.
    + simpl. unfold Qle. simpl. lia.
    + simpl. unfold Qle. simpl. lia.
  - apply (proj1 (proj2 (proj2 run_boundaries))).
    + left. reflexivity.
    + repeat constructor.
    + reflexivity.
    + simpl. unfold Qle. simpl. lia.
Defined.

Lemma highlight_score_floor_mean_witness :
  exists h,
    Aggregation._create_highlight 0 2
      [Samples.record_at 0 6; Samples.record_at 1 9; Samples.record_at 2 8]
    = Some h
    /\ Highlight.score h = 7%Z.
Proof.
  apply (proj1 (proj2 (proj2 highlight_score_floor_mean))). reflexivity.
Defined.

(** C8 as the specification states it fails for highlights: with a minimum
    duration of zero, one passing record is a highlight of its own. *)
Lemma single_record_counterexample :
  (List.length [Samples.record_at 3 8] < 2)%nat
  /\ Aggregation.highlight_min_duration Samples.aggregator_zero_duration == 0
  /\ Aggregation.detect_highlights Samples.aggregator_zero_duration
       [Samples.record_at 3 8] <> Some [].
Proof.
  split; [simpl; lia|]. split; [reflexivity|].
  vm_compute. discriminate.
Qed.

Lemma short_series_runs_witness :
  Static.detect_static_segments Samples.low_until_two Samples.detector 120
    [Samples.frame_at 0] = Some []
  /\ Aggregation.detect_highlights Samples.aggregator [Samples.record_at 3 8]
     = Some [].
Proof.
  split.
  - apply (proj1 short_series_runs). simpl. lia.
  - apply (proj2 (proj2 short_series_runs)). left. reflexivity.
Defined.

End RunFacts.

(** ** Quality assessment *)

Module QualityFacts.
Import Py Schema Aggregation.

Lemma max_int_max (a b : Z) : max_int a b = Z.max a b.
Proof.
  unfold max_int. destruct (Z.ltb_spec a b); lia.
Qed.

Lemma min_int_min (a b : Z) : min_int a b = Z.min a b.
Proof.
  unfold min_int. destruct (Z.ltb_spec b a); lia.
Qed.

Lemma deduct_deduction (score : Z) (issue : string) :
  deduct score issue = (score - Spec.deduction issue)%Z.
Proof.
  unfold deduct, Spec.deduction. cbv zeta.
  destruct (contains "blur" (lower issue)); [reflexivity|].
  destruct (contains "artifact" (lower issue) || contains "dvr" (lower issue));
    [reflexivity|].
  destruct (contains "signal" (lower issue) || contains "loss" (lower issue));
    [reflexivity|].
  destruct (contains "fog" (lower issue) || contains "weather" (lower issue));
    [reflexivity|].
  lia.
Qed.

Lemma fold_deduct (issues : list string) (score : Z) :
  fold_left deduct issues score = (score - Spec.total_deduction issues)%Z.
Proof.
  revert score. induction issues as [|i issues IH]; intros score; simpl.
  - lia.
  - rewrite IH, deduct_deduction. lia.
Qed.

(** The first loop of [assess_quality], field by field. *)

Lemma scan_issue_segments (fa : FrameAnalysis.t) (issues : list string)
    (st : QualityState) :
  signal_loss_segments (fold_left (scan_issue fa) issues st)
  = signal_loss_segments st
    ++ map (fun _ => Spec.interval_of fa) (filter Spec.signal_issue issues).
Proof.
  revert st. induction issues as [|i issues IH]; intros st; simpl.
  - now rewrite app_nil_r.
  - rewrite IH. unfold scan_issue. cbn [signal_loss_segments].
    unfold Spec.signal_issue.
    destruct (contains "signal" (lower i) || contains "loss" (lower i)).
    + rewrite <- app_assoc. reflexivity.
    + reflexivity.
Qed.

Lemma scan_frames_segments (fas : list FrameAnalysis.t) (st : QualityState) :
  signal_loss_segments (fold_left scan_frame fas st)
  = signal_loss_segments st ++ flat_map Spec.intervals_of fas.
Proof.
  revert st. induction fas as [|fa fas IH]; intros st; simpl.
  - now rewrite app_nil_r.
  - rewrite IH. unfold scan_frame at 1. rewrite scan_issue_segments.
    rewrite <- app_assoc. reflexivity.
Qed.

Lemma assess_quality_segments (fas : list FrameAnalysis.t) :
  QualityMetadata.signal_loss_segments (assess_quality fas)
  = flat_map Spec.intervals_of fas.
Proof.
  destruct fas as [|fa fas]; [reflexivity|].
  unfold assess_quality. cbn [QualityMetadata.signal_loss_segments].
  now rewrite scan_frames_segments.
Qed.

Lemma scan_issue_counter (fa : FrameAnalysis.t) (issues : list string)
    (st : QualityState) :
  issue_counter (fold_left (scan_issue fa) issues st)
  = fold_left Counter.incr issues (issue_counter st).
Proof.
  revert st. induction issues as [|i issues IH]; intros st; simpl.
  - reflexivity.
  - now rewrite IH.
Qed.

Lemma scan_frames_counter (fas : list FrameAnalysis.t) (st : QualityState) :
  issue_counter (fold_left scan_frame fas st)
  = fold_left Counter.incr (flat_map FrameAnalysis.quality_issues fas)
      (issue_counter st).
Proof.
  revert st. induction fas as [|fa fas IH]; intros st; simpl.
  - reflexivity.
  - rewrite IH. unfold scan_frame at 1. rewrite scan_issue_counter.
    now rewrite fold_left_app.
Qed.

Lemma scan_issue_dvr (fa : FrameAnalysis.t) (issues : list string)
    (st : QualityState) :
  dvr_artifacts_detected (fold_left (scan_issue fa) issues st)
  = dvr_artifacts_detected st
    || existsb (fun issue => contains "dvr" (lower issue)
                             || contains "artifact" (lower issue)) issues.
Proof.
  revert st. induction issues as [|i issues IH]; intros st; simpl.
  - now rewrite orb_false_r.
  - rewrite IH. unfold scan_issue. cbn [dvr_artifacts_detected].
    destruct (contains "dvr" (lower i) || contains "artifact" (lower i)).
    + now rewrite orb_true_r.
    + reflexivity.
Qed.

Lemma scan_frames_dvr (fas : list FrameAnalysis.t) (st : QualityState) :
  dvr_artifacts_detected (fold_left scan_frame fas st)
  = dvr_artifacts_detected st
    || existsb (fun issue => contains "dvr" (lower issue)
                             || contains "artifact" (lower issue))
         (flat_map FrameAnalysis.quality_issues fas).
Proof.
  revert st. induction fas as [|fa fas IH]; intros st; simpl.
  - now rewrite orb_false_r.
  - rewrite IH. unfold scan_frame at 1. rewrite scan_issue_dvr.
    rewrite existsb_app. now rewrite orb_assoc.
Qed.

(** The loop over records that all carry the one issue [s]. *)
Lemma incr_single (s : string) (n : Z) :
  Counter.incr [(s, n)] s = [(s, (n + 1)%Z)].
Proof.
  simpl. now rewrite String.eqb_refl.
Qed.

Lemma uniform_counter (s : string) (fas : list FrameAnalysis.t) :
  fas <> [] ->
  Forall (fun fa => FrameAnalysis.quality_issues fa = [s]) fas ->
  fold_left Counter.incr (flat_map FrameAnalysis.quality_issues fas)
    Counter.empty
  = [(s, Z.of_nat (List.length fas))].
Proof.
  intros Hne Hall. destruct fas as [|fa fas]; [congruence|].
  inversion Hall as [|? ? Hfa Hrest]; subst.
  cbn [flat_map]. rewrite Hfa. cbn [app fold_left Counter.incr Counter.empty].
  clear Hall Hne Hfa. change 1%Z with (Z.of_nat 1).
  change (List.length (fa :: fas)) with (1 + List.length fas)%nat.
  generalize 1%nat as n.
  induction Hrest as [|fb fas Hfb Hrest IH]; intros n.
  - cbn. now rewrite Nat.add_0_r.
  - cbn [flat_map]. rewrite Hfb. cbn [app fold_left].
    rewrite incr_single. cbn [List.length].
    replace (Z.of_nat n + 1)%Z with (Z.of_nat (S n)) by lia.
    rewrite IH. f_equal. f_equal. lia.
Qed.

(** [int(n * 0.1)] is at most [n]. *)
Lemma tenth_le (n : nat) :
  (int (inject_Z (Z.of_nat n) * 0.1) <= Z.of_nat n)%Z.
Proof.
  unfold int. cbn [Qnum Qden Qmult inject_Z].
  rewrite Z.quot_div_nonneg by lia.
  apply Z.div_le_upper_bound; lia.
Qed.

(** C9: on an empty sequence of records, tag extraction returns the empty
    list and quality assessment returns the default assessment: an overall
    score of 5, no issues, no artifacts detected and no signal-loss
    intervals.  Both are total functions of the embedding, so neither
    raises. *)
Theorem empty_input_defaults (self : Aggregator) :
  extract_tags self [] = []
  /\ assess_quality [] = QualityMetadata.default
  /\ QualityMetadata.overall_score (assess_quality []) = 5%Z
  /\ QualityMetadata.issues (assess_quality []) = []
  /\ QualityMetadata.dvr_artifacts_detected (assess_quality []) = false
  /\ QualityMetadata.signal_loss_segments (assess_quality []) = [].
Proof.
  repeat split.
Qed.

(** C7, against the claim as stated: a record that carries two issue strings
    matching signal loss gives two intervals, so the number of intervals is
    not the number of matching records. *)
Lemma signal_loss_counterexample :
  List.length
    (QualityMetadata.signal_loss_segments
       (assess_quality
          [Samples.record_with_issues 4
             ["signal breakup"; "video loss"]%string]))
  <> List.length
       (filter Spec.matches_signal_loss
          [Samples.record_with_issues 4
             ["signal breakup"; "video loss"]%string]).
Proof.
  vm_compute. discriminate.
Qed.

(** C7, amended: every issue string of a record that matches signal or
    loss, case-insensitively, adds one interval from the record's timestamp
    to one second later; the intervals come in the order of the records and
    nothing is merged or removed.  Their number is the number of matching
    issue strings, and when no record carries more than one matching issue
    they are the intervals of the matching records, one each. *)
Theorem signal_loss_interval_per_issue (fas : list FrameAnalysis.t) :
  QualityMetadata.signal_loss_segments (assess_quality fas)
  = flat_map Spec.intervals_of fas
  /\ List.length (QualityMetadata.signal_loss_segments (assess_quality fas))
     = List.length
         (filter Spec.signal_issue
            (flat_map FrameAnalysis.quality_issues fas))
  /\ (Forall
        (fun fa =>
           (List.length
              (filter Spec.signal_issue (FrameAnalysis.quality_issues fa))
            <= 1)%nat) fas ->
      QualityMetadata.signal_loss_segments (assess_quality fas)
      = Spec.signal_loss_intervals fas
      /\ List.length
           (QualityMetadata.signal_loss_segments (assess_quality fas))
         = List.length (filter Spec.matches_signal_loss fas)).
Proof.
  rewrite assess_quality_segments. split; [reflexivity|]. split.
  - induction fas as [|fa fas IH]; [reflexivity|].
    cbn [flat_map]. rewrite filter_app, !length_app, IH.
    unfold Spec.intervals_of. now rewrite length_map.
  - intros Hone.
    assert (E : flat_map Spec.intervals_of fas
                = Spec.signal_loss_intervals fas).
    { unfold Spec.signal_loss_intervals.
      induction Hone as [|fa fas Hfa Hrest IH]; [reflexivity|].
      cbn [flat_map filter]. rewrite IH.
      unfold Spec.intervals_of at 1, Spec.matches_signal_loss at 2.
      induction (FrameAnalysis.quality_issues fa) as [|i issues IHi].
      - reflexivity.
      - cbn [filter existsb] in *.
        destruct (Spec.signal_issue i).
        + cbn [orb map app List.length] in *.
          destruct (filter Spec.signal_issue issues) as [|j js];
            [reflexivity|].
          cbn [List.length] in Hfa. lia.
        + cbn [orb]. apply IHi. exact Hfa. }
    rewrite E. split; [reflexivity|].
    unfold Spec.signal_loss_intervals. now rewrite length_map.
Qed.

Lemma signal_loss_interval_per_issue_witness :
  QualityMetadata.signal_loss_segments
    (assess_quality
       [Samples.record_with_issues 2 ["blurry"]%string;
        Samples.record_with_issues 4 ["Signal Loss"]%string;
        Samples.record_with_issues 6 ["signal breakup"]%string])
  = Spec.signal_loss_intervals
      [Samples.record_with_issues 2 ["blurry"]%string;
       Samples.record_with_issues 4 ["Signal Loss"]%string;
       Samples.record_with_issues 6 ["signal breakup"]%string]
  /\ List.length
       (QualityMetadata.signal_loss_segments
          (assess_quality
             [Samples.record_with_issues 2 ["blurry"]%string;
              Samples.record_with_issues 4 ["Signal Loss"]%string;
              Samples.record_with_issues 6 ["signal breakup"]%string]))
     = List.length
         (filter Spec.matches_signal_loss
            [Samples.record_with_issues 2 ["blurry"]%string;
             Samples.record_with_issues 4 ["Signal Loss"]%string;
             Samples.record_with_issues 6 ["signal breakup"]%string]).
Proof.
  apply (proj2 (proj2 (signal_loss_interval_per_issue _))).
  repeat constructor.
Defined.

(** C4: the overall score starts at 10, loses for every significant issue
    the points of the first category it matches (blur 2, artifact or dvr 3,
    signal or loss 4, fog or weather 1, otherwise nothing) and is clamped to
    [1, 10]; this is the score [assess_quality] reports for its significant
    issues on a non-empty input.  Records that all carry the one issue
    dvr-artifact-heavy, ten of them or any other positive number, give
    artifacts detected and a score of 7. *)
Theorem quality_score_rubric :
  (forall significant_issues : list string,
      max_int 1 (min_int 10 (fold_left deduct significant_issues 10%Z))
      = Spec.overall_score significant_issues)
  /\ (forall fas : list FrameAnalysis.t,
         fas <> [] ->
         QualityMetadata.overall_score (assess_quality fas)
         = Spec.overall_score (QualityMetadata.issues (assess_quality fas)))
  /\ (forall fas : list FrameAnalysis.t,
         fas <> [] ->
         Forall (fun fa => FrameAnalysis.quality_issues fa
                           = ["dvr-artifact-heavy"]%string) fas ->
         QualityMetadata.dvr_artifacts_detected (assess_quality fas) = true
         /\ QualityMetadata.issues (assess_quality fas)
            = ["dvr-artifact-heavy"]%string
         /\ QualityMetadata.overall_score (assess_quality fas) = 7%Z).
Proof.
  assert (R : forall significant_issues : list string,
             max_int 1 (min_int 10 (fold_left deduct significant_issues 10%Z))
             = Spec.overall_score significant_issues).
  { intros l. rewrite max_int_max, min_int_min, fold_deduct. reflexivity. }
  split; [exact R|]. split.
  - intros fas Hne. destruct fas as [|fa fas]; [congruence|].
    unfold assess_quality.
    cbn [QualityMetadata.overall_score QualityMetadata.issues]. apply R.
  - intros fas Hne Hall.
    assert (Hc := uniform_counter _ fas Hne Hall).
    destruct fas as [|fa fas]; [congruence|].
    unfold assess_quality.
    cbn [QualityMetadata.overall_score QualityMetadata.issues
         QualityMetadata.dvr_artifacts_detected].
    rewrite scan_frames_counter, scan_frames_dvr.
    cbn [issue_counter dvr_artifacts_detected]. rewrite Hc.
    assert (Hthr : (max_int 1
                      (int (inject_Z (Z.of_nat (List.length (fa :: fas)))
                            * 0.1))
                    <=? Z.of_nat (List.length (fa :: fas)))%Z = true).
    { apply Z.leb_le. rewrite max_int_max.
      pose proof (tenth_le (List.length (fa :: fas))).
      cbn [List.length] in *. lia. }
    unfold Counter.items. cbn [filter snd]. rewrite Hthr.
    cbn [map fst]. split; [|split; [reflexivity|reflexivity]].
    inversion Hall as [|? ? Hfa Hrest]; subst.
    cbn [flat_map]. rewrite Hfa. reflexivity.
Qed.

Lemma quality_score_rubric_witness :
  QualityMetadata.dvr_artifacts_detected
    (assess_quality
       (map (fun t => Samples.record_with_issues t
                        ["dvr-artifact-heavy"]%string)
          [0; 2; 4; 6; 8; 10; 12; 14; 16; 18]))
  = true
  /\ QualityMetadata.issues
       (assess_quality
          (map (fun t => Samples.record_with_issues t
                           ["dvr-artifact-heavy"]%string)
             [0; 2; 4; 6; 8; 10; 12; 14; 16; 18]))
     = ["dvr-artifact-heavy"]%string
  /\ QualityMetadata.overall_score
       (assess_quality
          (map (fun t => Samples.record_with_issues t
                           ["dvr-artifact-heavy"]%string)
             [0; 2; 4; 6; 8; 10; 12; 14; 16; 18]))
     = 7%Z.
Proof.
  apply (proj2 (proj2 quality_score_rubric)).
  - simpl. discriminate.
  - simpl. repeat constructor.
Defined.

End QualityFacts.

(** ** The stable descending sort *)

Module SortFacts.
Import Py.

Section Sorting.
Context {A : Type} (key : A -> Z).

Lemma insert_desc_perm (x : A) (l : list A) :
  Permutation (insert_desc key x l) (x :: l).
Proof.
  induction l as [|y l IH]; simpl.
  - apply Permutation_refl.
  - destruct (key x <? key y)%Z.
    + eapply Permutation_trans; [apply perm_skip, IH|apply perm_swap].
    + apply Permutation_refl.
Qed.

Lemma sorted_desc_perm (l : list A) : Permutation (sorted_desc key l) l.
Proof.
  induction l as [|x l IH]; simpl.
  - apply perm_nil.
  - eapply Permutation_trans; [apply insert_desc_perm|].
    apply perm_skip, IH.
Qed.

Lemma sorted_desc_in (l : list A) (x : A) :
  In x (sorted_desc key l) <-> In x l.
Proof.
  split; apply Permutation_in;
    [apply sorted_desc_perm|apply Permutation_sym, sorted_desc_perm].
Qed.





Lemma sorted_desc_nodup (l : list A) :
  NoDup l -> NoDup (sorted_desc key l).
Proof.
  apply Permutation_NoDup, Permutation_sym, sorted_desc_perm.
Qed.

End Sorting.

Lemma insert_desc_ext {A : Type} (key key' : A -> Z) (x : A) (l : list A) :
  (forall a, In a (x :: l) -> key a = key' a) ->
  insert_desc key x l = insert_desc key' x l.
Proof.
  induction l as [|y l IH]; intros H; [reflexivity|].
  cbn [insert_desc].
  rewrite (H x) by (left; reflexivity).
  rewrite (H y) by (right; left; reflexivity).
  rewrite IH; [reflexivity|].
  intros a [Ha|Ha]; apply H; [left|right; right]; assumption.
Qed.

Lemma sorted_desc_ext {A : Type} (key key' : A -> Z) (l : list A) :
  (forall a, In a l -> key a = key' a) ->
  sorted_desc key l = sorted_desc key' l.
Proof.
  induction l as [|x l IH]; intros H; [reflexivity|].
  cbn [sorted_desc]. rewrite IH by (intros a Ha; apply H; right; exact Ha).
  apply insert_desc_ext. intros a [Ha|Ha].
  - apply H. left. exact Ha.
  - apply H. right. apply (sorted_desc_in key' l a). exact Ha.
Qed.

End SortFacts.

(** ** Counters *)

Module CounterFacts.
Import Py.

Lemma mem_in (t : string) (l : list string) : mem t l = true <-> In t l.
Proof.
  unfold mem. rewrite existsb_exists. split.
  - intros [x [Hx E]]. apply String.eqb_eq in E. now subst.
  - intros H. exists t. split; [exact H|apply String.eqb_refl].
Qed.

Lemma mem_not_in (t : string) (l : list string) :
  mem t l = false <-> ~ In t l.
Proof.
  rewrite <- mem_in. destruct (mem t l); split; congruence.
Qed.

Lemma keys_incr (c : Counter.t) (k : string) :
  map fst (Counter.incr c k) = Spec.add_new (map fst c) k.
Proof.
  unfold Spec.add_new, mem.
  induction c as [|[k' n] c IH]; [reflexivity|].
  cbn [Counter.incr map fst existsb].
  destruct (String.eqb k k'); [reflexivity|].
  cbn [map fst orb]. rewrite IH.
  destruct (existsb (String.eqb k) (map fst c)); reflexivity.
Qed.

Lemma keys_fold (stream : list string) (c : Counter.t) :
  map fst (fold_left Counter.incr stream c)
  = fold_left Spec.add_new stream (map fst c).
Proof.
  revert c. induction stream as [|t stream IH]; intros c; [reflexivity|].
  cbn [fold_left]. now rewrite IH, keys_incr.
Qed.

Lemma get_incr (c : Counter.t) (k t : string) :
  Counter.get (Counter.incr c k) t
  = (Counter.get c t + (if String.eqb t k then 1 else 0))%Z.
Proof.
  induction c as [|[k' n] c IH]; cbn [Counter.incr Counter.get].
  - destruct (String.eqb t k); reflexivity.
  - destruct (String.eqb_spec k k') as [->|Hk]; cbn [Counter.get].
    + destruct (String.eqb t k'); lia.
    + destruct (String.eqb_spec t k') as [->|Ht].
      * destruct (String.eqb_spec k' k); [congruence|lia].
      * exact IH.
Qed.

Lemma tally_cons (x : string) (stream : list string) (t : string) :
  Spec.tally (x :: stream) t
  = ((if String.eqb t x then 1 else 0) + Spec.tally stream t)%Z.
Proof.
  unfold Spec.tally. cbn [count_occ].
  destruct (string_dec x t) as [->|Hx].
  - rewrite String.eqb_refl. lia.
  - destruct (String.eqb_spec t x); [congruence|lia].
Qed.

Lemma get_fold (stream : list string) (c : Counter.t) (t : string) :
  Counter.get (fold_left Counter.incr stream c) t
  = (Counter.get c t + Spec.tally stream t)%Z.
Proof.
  revert c. induction stream as [|x stream IH]; intros c.
  - unfold Spec.tally. simpl. lia.
  - cbn [fold_left]. rewrite IH, get_incr, tally_cons. lia.
Qed.

Lemma tally_positive (stream : list string) (t : string) :
  (1 <= Spec.tally stream t)%Z <-> In t stream.
Proof.
  unfold Spec.tally. rewrite (count_occ_In string_dec). lia.
Qed.

Lemma add_new_in (seen : list string) (x t : string) :
  In t (Spec.add_new seen x) <-> In t seen \/ t = x.
Proof.
  unfold Spec.add_new. destruct (mem x seen) eqn:E.
  - apply mem_in in E. split; [tauto|]. intros [H| ->]; assumption.
  - rewrite in_app_iff. simpl. intuition congruence.
Qed.

Lemma add_new_nodup (seen : list string) (x : string) :
  NoDup seen -> NoDup (Spec.add_new seen x).
Proof.
  intros H. unfold Spec.add_new. destruct (mem x seen) eqn:E; [exact H|].
  apply mem_not_in in E.
  apply NoDup_app; [exact H|constructor; [simpl; tauto|constructor]|].
  intros a Ha [<-|[]]. contradiction.
Qed.

Lemma fold_add_new_in (stream seen : list string) (t : string) :
  In t (fold_left Spec.add_new stream seen) <-> In t seen \/ In t stream.
Proof.
  revert seen. induction stream as [|x stream IH]; intros seen.
  - simpl. tauto.
  - cbn [fold_left]. rewrite IH, add_new_in. simpl. intuition congruence.
Qed.

Lemma fold_add_new_nodup (stream seen : list string) :
  NoDup seen -> NoDup (fold_left Spec.add_new stream seen).
Proof.
  revert seen. induction stream as [|x stream IH]; intros seen H.
  - exact H.
  - cbn [fold_left]. apply IH, add_new_nodup, H.
Qed.

Lemma first_observed_in (stream : list string) (t : string) :
  In t (Spec.first_observed stream) <-> In t stream.
Proof.
  unfold Spec.first_observed. rewrite fold_add_new_in. simpl. tauto.
Qed.

Lemma first_observed_nodup (stream : list string) :
  NoDup (Spec.first_observed stream).
Proof.
  apply fold_add_new_nodup. constructor.
Qed.

(** Filtering the entries by their count is filtering the keys by [get]. *)
Lemma filter_items (c : Counter.t) (p : Z -> bool) :
  NoDup (map fst c) ->
  map fst (filter (fun item => p (snd item)) c)
  = filter (fun t => p (Counter.get c t)) (map fst c).
Proof.
  induction c as [|[k n] c IH]; intros Hnd; [reflexivity|].
  cbn [map fst] in Hnd. inversion Hnd as [|? ? Hk Hc]; subst.
  cbn [filter map fst snd Counter.get]. rewrite String.eqb_refl.
  assert (E : filter (fun t => p (if String.eqb t k then n
                                  else Counter.get c t)) (map fst c)
              = filter (fun t => p (Counter.get c t)) (map fst c)).
  { apply filter_ext_in. intros t Ht.
    destruct (String.eqb_spec t k); [congruence|reflexivity]. }
  rewrite E, <- (IH Hc). destruct (p n); reflexivity.
Qed.

End CounterFacts.

(** ** Tag extraction *)

Module TagFacts.
Import Py Schema Aggregation.

Lemma count_frame_stream (c : Counter.t) (fa : FrameAnalysis.t) :
  count_frame c fa = fold_left Counter.incr (Spec.counted_tags fa) c.
Proof.
  unfold count_frame, Spec.counted_tags, meaningful_style, mem.
  rewrite fold_left_app. cbn [existsb].
  destruct (String.eqb (FrameAnalysis.flight_style fa) EmptyString);
    [reflexivity|].
  destruct (String.eqb (FrameAnalysis.flight_style fa) "unknown");
    [reflexivity|].
  destruct (String.eqb (FrameAnalysis.flight_style fa) "stationary");
    reflexivity.
Qed.

Lemma count_frames_stream (fas : list FrameAnalysis.t) (c : Counter.t) :
  fold_left count_frame fas c
  = fold_left Counter.incr (flat_map Spec.counted_tags fas) c.
Proof.
  revert c. induction fas as [|fa fas IH]; intros c; [reflexivity|].
  cbn [fold_left flat_map]. now rewrite IH, count_frame_stream, fold_left_app.
Qed.

Lemma count_tags_get (fas : list FrameAnalysis.t) (t : string) :
  Counter.get (count_tags fas) t
  = Spec.tally (flat_map Spec.counted_tags fas) t.
Proof.
  unfold count_tags. rewrite count_frames_stream, CounterFacts.get_fold.
  reflexivity.
Qed.

Lemma count_tags_keys (fas : list FrameAnalysis.t) :
  map fst (count_tags fas)
  = Spec.first_observed (flat_map Spec.counted_tags fas).
Proof.
  unfold count_tags. rewrite count_frames_stream, CounterFacts.keys_fold.
  reflexivity.
Qed.

(** [int] truncates towards zero and [Qfloor] rounds down; against a count of
    at least one the two thresholds select the same tags. *)
Lemma int_floor_threshold (x : Q) (c : Z) :
  (1 <= c)%Z -> (int x <=? c)%Z = (Qfloor x <=? c)%Z.
Proof.
  intros Hc. destruct x as [n d]. unfold int. cbn [Qfloor Qnum Qden].
  destruct (Z_le_gt_dec 0 n) as [Hn|Hn].
  - rewrite Z.quot_div_nonneg by lia. reflexivity.
  - assert (H1 : (Z.quot n (Z.pos d) <= 0)%Z).
    { replace n with (- (- n))%Z by lia.
      rewrite Z.quot_opp_l by lia.
      pose proof (Z.quot_pos (- n) (Z.pos d)). lia. }
    assert (H2 : (n / Z.pos d <= 0)%Z).
    { apply Z.div_le_upper_bound; lia. }
    apply eq_true_iff_eq. rewrite !Z.leb_le. lia.
Qed.

Lemma int_floor_nonneg (x : Q) : 0 <= x -> int x = Qfloor x.
Proof.
  destruct x as [n d]. unfold Qle, int. cbn [Qfloor Qnum Qden].
  intros H. rewrite Z.quot_div_nonneg by lia. reflexivity.
Qed.

Lemma extract_tags_frequent_tags (self : Aggregator)
    (fas : list FrameAnalysis.t) :
  extract_tags self fas
  = Spec.frequent_tags (flat_map Spec.counted_tags fas)
      (Qfloor (inject_Z (Z.of_nat (List.length fas)) * tag_threshold self)).
Proof.
  destruct fas as [|fa fas]; [reflexivity|].
  unfold extract_tags, Spec.frequent_tags, Counter.items.
  set (frames := fa :: fas).
  set (x := inject_Z (Z.of_nat (List.length frames)) * tag_threshold self).
  rewrite (CounterFacts.filter_items (count_tags frames)
             (fun n => (int x <=? n)%Z)).
  2:{ rewrite count_tags_keys. apply CounterFacts.first_observed_nodup. }
  rewrite count_tags_keys.
  set (stream := flat_map Spec.counted_tags frames).
  rewrite (filter_ext_in
             (fun t => (int x <=? Counter.get (count_tags frames) t)%Z)
             (fun t => (Qfloor x <=? Spec.tally stream t)%Z)).
  2:{ intros t Ht. unfold frames, stream. rewrite count_tags_get.
      apply int_floor_threshold. apply CounterFacts.tally_positive.
      now apply CounterFacts.first_observed_in. }
  apply SortFacts.sorted_desc_ext. intros t _.
  apply count_tags_get.
Qed.





Lemma tally_app (a b : list string) (t : string) :
  Spec.tally (a ++ b) t = (Spec.tally a t + Spec.tally b t)%Z.
Proof.
  unfold Spec.tally. rewrite count_occ_app. lia.
Qed.

Lemma counted_tags_empty (fa : FrameAnalysis.t) :
  Spec.tally (Spec.counted_tags fa) EmptyString
  = Spec.tally (FrameAnalysis.environment fa) EmptyString.
Proof.
  unfold Spec.counted_tags. rewrite tally_app.
  destruct (String.eqb_spec (FrameAnalysis.flight_style fa) EmptyString)
    as [|Hne]; [cbn; lia|].
  destruct (String.eqb (FrameAnalysis.flight_style fa) "unknown");
    [cbn; lia|].
  destruct (String.eqb (FrameAnalysis.flight_style fa) "stationary");
    [cbn; lia|].
  rewrite CounterFacts.tally_cons.
  destruct (String.eqb_spec EmptyString (FrameAnalysis.flight_style fa));
    [congruence|cbn; lia].
Qed.

(** [extract_tags] leaves an empty flight style out of the tally, as it does
    unknown and stationary: for every record sequence the result is made of
    the tags tallied from the environment tags and from the flight styles
    that are not empty, unknown or stationary, and the count of the empty
    string is its count among the environment tags alone. *)
Theorem extract_tags_skips_empty_style (self : Aggregator)
    (fas : list FrameAnalysis.t) :
  let stream := flat_map Spec.counted_tags fas in
  let threshold_count :=
    Qfloor (inject_Z (Z.of_nat (List.length fas)) * tag_threshold self) in
  extract_tags self fas = Spec.frequent_tags stream threshold_count
  /\ (forall t,
         In t (extract_tags self fas)
         <-> In t stream /\ (threshold_count <= Spec.tally stream t)%Z)
  /\ Spec.tally stream EmptyString
     = Spec.tally (flat_map FrameAnalysis.environment fas) EmptyString.
Proof.
  intros stream threshold_count.
  pose proof (extract_tags_frequent_tags self fas) as E.
  fold stream threshold_count in E. rewrite E.
  split; [reflexivity|]. split.
  - intros t. unfold Spec.frequent_tags.
    rewrite SortFacts.sorted_desc_in, filter_In,
      CounterFacts.first_observed_in, Z.leb_le. reflexivity.
  - unfold stream. clear. induction fas as [|fa fas IH]; [reflexivity|].
    cbn [flat_map]. now rewrite !tally_app, IH, counted_tags_empty.
Qed.

End TagFacts.

(** ** What a highlight holds *)

Module HighlightContent.
Import Py PyFacts ListFacts Schema Aggregation.

Section Methods.

Variable self : Aggregator.

Local Abbreviation passes := (Aggregation.passes self).
Local Abbreviation loop := (Aggregation.loop self).
Local Abbreviation detect_highlights := (Aggregation.detect_highlights self).

(** Every highlight is made by [_create_highlight] from a run of the input,
    from the timestamp of its first member to that of its last. *)
Lemma detect_runs_created frame_analyses hs :
  detect_highlights frame_analyses = Some hs ->
  Forall (fun h => exists r run,
            Spec.is_run self frame_analyses (r :: run)
            /\ _create_highlight (FrameAnalysis.timestamp r)
                 (FrameAnalysis.timestamp (last run r)) (r :: run)
               = Some h) hs.
Proof.
  unfold Aggregation.detect_highlights.
  destruct frame_analyses as [|first rest]; [intros [= <-]; constructor|].
  set (all := first :: rest).
  destruct (loop (last_item all first) all initial) as [st|] eqn:E;
    cbn [bind]; [|discriminate].
  intros Hclose.
  pose (R := fun (done : list FrameAnalysis.t) (h : Highlight.t) =>
    exists r run, Spec.is_run self done (r :: run)
      /\ _create_highlight (FrameAnalysis.timestamp r)
           (FrameAnalysis.timestamp (last run r)) (r :: run) = Some h).
  pose (P := fun (done : list FrameAnalysis.t) (st : LoopState) =>
    Forall (R done) (highlights st)
    /\ (in_highlight st = true ->
        exists pre r run,
          highlight_frames st = r :: run
          /\ done = pre ++ r :: run
          /\ Forall (fun fa => passes fa = true) (r :: run)
          /\ highlight_start st = FrameAnalysis.timestamp r)).
  assert (forall done fa h, R done h -> R (done ++ [fa]) h) as Rmono.
  { intros done fa h (r & run & (Hne & (pre & post & ->) & Hp) & K).
    exists r, run. split; [|exact K]. split; [exact Hne|]. split; [|exact Hp].
    exists pre, (post ++ [fa]). now rewrite <- !app_assoc. }
  assert (P all st) as [Hall Hopen].
  { refine (HighlightFacts.loop_invariant_prefix self all P _ all []
              (last_item all first) initial st eq_refl eq_refl _ E).
    - clear - Rmono. intros done prev fa rest' st st' _ Hprev [Hall Hopen] H.
      assert (Forall (R (done ++ [fa])) (highlights st)) as Hall'
        by (eapply Forall_impl; [|exact Hall]; intros h; apply Rmono).
      apply HighlightFacts.highlight_loop_body_inv in H.
      destruct H as [Hp _ ->|Hp Hin ->|_ Hin ->|_ _ _ ->|h _ Hin _ Hh ->];
        simpl.
      + split; [assumption|]. intros _. exists done, fa, [].
        repeat split; auto.
      + split; [assumption|]. intros _.
        destruct (Hopen Hin) as (pre & r & run & Hf & -> & Hpass & Hst).
        exists pre, r, (run ++ [fa]). rewrite Hf.
        split; [reflexivity|]. split; [now rewrite <- app_assoc|].
        split; [|assumption].
        change (r :: run ++ [fa]) with ((r :: run) ++ [fa]).
        apply Forall_app. split; [assumption|]. constructor; auto.
      + split; [assumption|]. congruence.
      + split; [assumption|]. discriminate.
      + split; [|discriminate].
        apply Forall_app. split; [assumption|]. constructor; [|constructor].
        destruct (Hopen Hin) as (pre & r & run & Hf & Hd & Hpass & Hst).
        exists r, run. split.
        * split; [discriminate|]. split; [|exact Hpass].
          exists pre, [fa]. rewrite Hd. now rewrite <- app_assoc.
        * rewrite <- Hf, <- Hst.
          replace (last run r) with prev; [exact Hh|].
          rewrite Hprev, Hd. apply last_app_cons.
    - split; [constructor|]. discriminate. }
  apply HighlightFacts.close_at_end_inv in Hclose.
  destruct Hclose as [[-> _]|(h & Hin & _ & Hh & ->)]; [assumption|].
  apply Forall_app. split; [assumption|]. constructor; [|constructor].
  destruct (Hopen Hin) as (pre & r & run & Hf & Hd & Hpass & Hst).
  exists r, run. split.
  - split; [discriminate|]. split; [|exact Hpass].
    exists pre, []. rewrite Hd. now rewrite app_nil_r.
  - rewrite <- Hf, <- Hst.
    replace (last run r) with (last_item all first); [exact Hh|].
    unfold last_item. rewrite Hd. apply last_app_cons.
Qed.

(** Every highlight is made by [_create_highlight] from its own run: a
    maximal run of passing records of the input, whose first and last
    timestamps are the start and the end of the highlight. *)
Lemma detect_runs_maximal frame_analyses hs :
  detect_highlights frame_analyses = Some hs ->
  Forall (fun h => exists r run,
            Spec.highlight_run self frame_analyses h r run
            /\ _create_highlight (FrameAnalysis.timestamp r)
                 (FrameAnalysis.timestamp (last run r)) (r :: run)
               = Some h) hs.
Proof.
  unfold Aggregation.detect_highlights.
  destruct frame_analyses as [|first rest]; [intros [= <-]; constructor|].
  set (all := first :: rest).
  destruct (loop (last_item all first) all initial) as [st|] eqn:E;
    cbn [bind]; [|discriminate].
  intros Hclose.
  pose (R := fun (done : list FrameAnalysis.t) (h : Highlight.t) =>
    exists pre r run x post,
      done = pre ++ (r :: run) ++ x :: post
      /\ (pre = [] \/ passes (last pre r) = false)
      /\ passes x = false
      /\ Forall (fun fa => passes fa = true) (r :: run)
      /\ _create_highlight (FrameAnalysis.timestamp r)
           (FrameAnalysis.timestamp (last run r)) (r :: run) = Some h).
  pose (P := fun (done : list FrameAnalysis.t) (st : LoopState) =>
    Forall (R done) (highlights st)
    /\ (in_highlight st = true ->
        exists pre r run,
          highlight_frames st = r :: run
          /\ done = pre ++ r :: run
          /\ (pre = [] \/ passes (last pre r) = false)
          /\ Forall (fun fa => passes fa = true) (r :: run)
          /\ highlight_start st = FrameAnalysis.timestamp r)
    /\ (in_highlight st = false ->
        done = []
        \/ exists init x, done = init ++ [x] /\ passes x = false)).
  assert (forall done fa h, R done h -> R (done ++ [fa]) h) as Rmono.
  { intros done fa h (pre & r & run & x & post & -> & K).
    exists pre, r, run, x, (post ++ [fa]). split; [|exact K].
    rewrite <- !app_assoc. reflexivity. }
  assert (P all st) as (Hall & Hopen & _).
  { refine (HighlightFacts.loop_invariant_prefix self all P _ all []
              (last_item all first) initial st eq_refl eq_refl _ E).
    - clear - Rmono.
      intros done prev fa rest' st st' _ Hprev (Hall & Hopen & Hclosed) H.
      assert (Forall (R (done ++ [fa])) (highlights st)) as Hall'
        by (eapply Forall_impl; [|exact Hall]; intros h; apply Rmono).
      apply HighlightFacts.highlight_loop_body_inv in H.
      destruct H as [Hp Hin ->|Hp Hin ->|Hp Hin ->|Hp Hin _ ->
                     |h Hp Hin _ Hh ->];
        cbn [highlights in_highlight highlight_start highlight_frames].
      + split; [assumption|]. split; [|discriminate].
        intros _. exists done, fa, [].
        split; [reflexivity|]. split; [reflexivity|]. split.
        * destruct (Hclosed Hin) as [->|(init & x & -> & Hx)];
            [left; reflexivity|].
          right. now rewrite last_last.
        * split; [|reflexivity]. constructor; [exact Hp|constructor].
      + split; [assumption|]. split; [|discriminate].
        intros _.
        destruct (Hopen Hin) as (pre & r & run & Hf & -> & Hpre & Hpass & Hst).
        exists pre, r, (run ++ [fa]). rewrite Hf.
        split; [reflexivity|]. split; [now rewrite <- app_assoc|].
        split; [exact Hpre|]. split; [|assumption].
        change (r :: run ++ [fa]) with ((r :: run) ++ [fa]).
        apply Forall_app. split; [assumption|]. constructor; auto.
      + split; [assumption|]. split; [congruence|].
        intros _. right. exists done, fa. auto.
      + split; [assumption|]. split; [discriminate|].
        intros _. right. exists done, fa. auto.
      + split; [|split; [discriminate|]].
        * apply Forall_app. split; [assumption|].
          constructor; [|constructor].
          destruct (Hopen Hin)
            as (pre & r & run & Hf & Hd & Hpre & Hpass & Hst).
          exists pre, r, run, fa, [].
          split; [rewrite Hd, <- app_assoc; reflexivity|].
          split; [exact Hpre|]. split; [exact Hp|]. split; [exact Hpass|].
          rewrite <- Hf, <- Hst.
          replace (last run r) with prev; [exact Hh|].
          rewrite Hprev, Hd. apply last_app_cons.
        * intros _. right. exists done, fa. auto.
    - split; [constructor|]. split; [discriminate|]. intros _. now left. }
  assert (Hfin : forall h, R all h ->
            exists r run,
              Spec.highlight_run self all h r run
              /\ _create_highlight (FrameAnalysis.timestamp r)
                   (FrameAnalysis.timestamp (last run r)) (r :: run)
                 = Some h).
  { intros h (pre & r & run & x & post & Hd & Hpre & Hx & Hpass & Hh).
    exists r, run. split; [|exact Hh].
    apply HighlightFacts.create_highlight_inv in Hh.
    destruct Hh as (_ & Hs & He & _).
    split; [|split; [exact Hpass|split; [exact Hs|exact He]]].
    exists pre, (x :: post). split; [exact Hd|]. split; [exact Hpre|].
    right. exact Hx. }
  apply HighlightFacts.close_at_end_inv in Hclose.
  destruct Hclose as [[-> _]|(h & Hin & _ & Hh & ->)].
  { eapply Forall_impl; [|exact Hall]. exact Hfin. }
  apply Forall_app. split.
  { eapply Forall_impl; [|exact Hall]. exact Hfin. }
  constructor; [|constructor].
  destruct (Hopen Hin) as (pre & r & run & Hf & Hd & Hpre & Hpass & Hst).
  assert (Hh' : _create_highlight (FrameAnalysis.timestamp r)
                  (FrameAnalysis.timestamp (last run r)) (r :: run)
                = Some h).
  { rewrite <- Hf, <- Hst.
    replace (last run r) with (last_item all first); [exact Hh|].
    unfold last_item. rewrite Hd. apply last_app_cons. }
  exists r, run. split; [|exact Hh'].
  apply HighlightFacts.create_highlight_inv in Hh'.
  destruct Hh' as (_ & Hs & He & _).
  split; [|split; [exact Hpass|split; [exact Hs|exact He]]].
  exists pre, []. split; [rewrite Hd, app_nil_r; reflexivity|].
  split; [exact Hpre|]. now left.
Qed.


End Methods.

(** [max(xs, key=key)] is the first element with the greatest key. *)
Lemma max_from_first {A : Type} (key : A -> Z) (xs : list A) :
  forall best,
  exists l1 l2,
    best :: xs = l1 ++ max_from key best xs :: l2
    /\ Forall (fun x => (key x < key (max_from key best xs))%Z) l1
    /\ Forall (fun x => (key x <= key (max_from key best xs))%Z) l2.
Proof.
  induction xs as [|x xs IH]; intros best; cbn [max_from].
  - exists [], []. repeat split; constructor.
  - destruct (Z.ltb_spec (key best) (key x)) as [Hlt|Hge].
    + destruct (IH x) as (l1 & l2 & E & H1 & H2).
      remember (max_from key x xs) as b eqn:Hb0. clear Hb0 IH.
      assert (Hx : (key x <= key b)%Z).
      { assert (Hin : In x (l1 ++ b :: l2))
          by (rewrite <- E; left; reflexivity).
        apply in_app_or in Hin. destruct Hin as [Hin|[Hb|Hin]].
        - rewrite Forall_forall in H1. specialize (H1 _ Hin). lia.
        - rewrite Hb. lia.
        - rewrite Forall_forall in H2. apply (H2 _ Hin). }
      exists (best :: l1), l2. cbn [app].
      split; [f_equal; exact E|]. split; [|exact H2].
      constructor; [lia|exact H1].
    + destruct (IH best) as (l1 & l2 & E & H1 & H2).
      remember (max_from key best xs) as b eqn:Hb0. clear Hb0 IH.
      destruct l1 as [|y l1].
      * cbn [app] in E. injection E as Eb El. exists [], (x :: xs).
        cbn [app]. split; [f_equal; exact Eb|].
        split; [constructor|]. constructor; [rewrite <- Eb; lia|].
        rewrite El. exact H2.
      * cbn [app] in E. injection E as Ey El.
        apply Forall_cons_iff in H1. destruct H1 as [Hb H1'].
        exists (best :: x :: l1), l2. cbn [app].
        split; [do 2 f_equal; exact El|]. split; [|exact H2].
        constructor; [rewrite Ey; exact Hb|]. constructor; [|exact H1'].
        rewrite <- Ey in Hb. lia.
Qed.

(** [sum(xs) // len(xs)] lies between any bounds of the elements. *)
Lemma floordiv_mean_bounds (xs : list Z) (lo hi q : Z) :
  xs <> [] ->
  Forall (fun x => (lo <= x <= hi)%Z) xs ->
  floordiv (sum xs) (Z.of_nat (List.length xs)) = Some q ->
  (lo <= q <= hi)%Z.
Proof.
  intros Hne Hall. unfold floordiv.
  destruct (Z.eqb_spec (Z.of_nat (List.length xs)) 0) as [|Hn];
    [discriminate|].
  intros [= <-]. rewrite HighlightFacts.sum_fold_right.
  assert (Hs : (Z.of_nat (List.length xs) * lo
                <= fold_right Z.add 0 xs
                <= Z.of_nat (List.length xs) * hi)%Z).
  { clear Hne Hn.
    induction Hall as [|x xs Hx _ IH]; cbn [fold_right List.length].
    - cbn. lia.
    - rewrite Nat2Z.inj_succ. lia. }
  split.
  - apply Z.div_le_lower_bound; lia.
  - apply Z.div_le_upper_bound; lia.
Qed.

(** Sorting pairs by their second component, then taking the first ones. *)
Lemma sorted_desc_map {A B : Type} (f : A -> B) (key : B -> Z)
    (l : list A) :
  map f (sorted_desc (fun a => key (f a)) l) = sorted_desc key (map f l).
Proof.
  induction l as [|x l IH]; [reflexivity|].
  cbn [sorted_desc map]. rewrite <- IH.
  generalize (sorted_desc (fun a => key (f a)) l) as s.
  induction s as [|y s IHs]; [reflexivity|].
  cbn [insert_desc map]. destruct (key (f x) <? key (f y))%Z.
  - cbn [map]. now rewrite IHs.
  - reflexivity.
Qed.

Lemma get_entry (c : Counter.t) (item : string * Z) :
  NoDup (map fst c) -> In item c -> Counter.get c (fst item) = snd item.
Proof.
  induction c as [|[k n] c IH]; intros Hnd Hin; [contradiction|].
  cbn [map fst] in Hnd. inversion Hnd as [|? ? Hk Hc]; subst.
  cbn [Counter.get]. destruct Hin as [<-|Hin].
  - cbn [fst snd]. now rewrite String.eqb_refl.
  - destruct (String.eqb_spec (fst item) k) as [E|_].
    + exfalso. apply Hk. rewrite <- E. now apply in_map.
    + now apply IH.
Qed.

Lemma most_common_tags (n : nat) (frames : list FrameAnalysis.t) :
  map fst (Counter.most_common n (count_tags frames))
  = firstn n
      (sorted_desc (Spec.tally (flat_map Spec.counted_tags frames))
         (Spec.first_observed (flat_map Spec.counted_tags frames))).
Proof.
  unfold Counter.most_common, Counter.items.
  rewrite <- firstn_map. f_equal.
  rewrite (SortFacts.sorted_desc_ext snd
             (fun item => Counter.get (count_tags frames) (fst item))).
  2:{ intros item Hin. symmetry. apply get_entry; [|exact Hin].
      rewrite TagFacts.count_tags_keys.
      apply CounterFacts.first_observed_nodup. }
  rewrite (sorted_desc_map fst (Counter.get (count_tags frames))).
  rewrite TagFacts.count_tags_keys.
  apply SortFacts.sorted_desc_ext. intros t _. apply TagFacts.count_tags_get.
Qed.

Lemma firstn_in {A : Type} (n : nat) (l : list A) (x : A) :
  In x (firstn n l) -> In x l.
Proof.
  revert l. induction n as [|n IH]; intros l H; [contradiction|].
  destruct l as [|y l]; [contradiction|].
  cbn [firstn] in H. destruct H as [<-|H]; [left; reflexivity|].
  right. apply IH, H.
Qed.

Lemma firstn_nodup {A : Type} (n : nat) (l : list A) :
  NoDup l -> NoDup (firstn n l).
Proof.
  revert l. induction n as [|n IH]; intros l H; [constructor|].
  destruct H as [|x l Hx Hl]; [constructor|].
  cbn [firstn]. constructor; [|apply IH, Hl].
  intros Hin. apply Hx. eapply firstn_in, Hin.
Qed.

Lemma create_highlight_fields (start end_ : Q)
    (frames : list FrameAnalysis.t) (h : Highlight.t) :
  _create_highlight start end_ frames = Some h ->
  exists first rest,
    frames = first :: rest
    /\ floordiv (sum (map FrameAnalysis.interest_score frames))
         (Z.of_nat (List.length frames)) = Some (Highlight.score h)
    /\ Highlight.description h
       = FrameAnalysis.description
           (max_from FrameAnalysis.interest_score first rest)
    /\ Highlight.tags h = map fst (Counter.most_common 5 (count_tags frames)).
Proof.
  unfold _create_highlight.
  destruct (floordiv (sum (map FrameAnalysis.interest_score frames))
              (Z.of_nat (List.length frames))) as [avg|]; cbn [bind];
    [|discriminate].
  destruct frames as [|first rest]; cbn [max_by bind]; [discriminate|].
  intros [= <-]. exists first, rest. repeat split.
Qed.

Lemma run_members_valid (self : Aggregator)
    (fas members : list FrameAnalysis.t) :
  Spec.is_run self fas members ->
  Forall FrameAnalysis.valid fas -> Forall FrameAnalysis.valid members.
Proof.
  intros (_ & (pre & post & ->) & _) H.
  apply Forall_app in H. destruct H as [_ H].
  apply Forall_app in H. apply H.
Qed.

(** A highlight never scores below the threshold its members passed, and
    records with scores from 1 to 10 give highlights with scores from 1 to
    10, so the constraint on [Highlight.score] holds. *)
Theorem highlight_scores_in_range (self : Aggregator)
    (fas : list FrameAnalysis.t) :
  Forall FrameAnalysis.valid fas ->
  exists hs,
    detect_highlights self fas = Some hs
    /\ Forall (fun h =>
                 (highlight_score_threshold self <= Highlight.score h)%Z
                 /\ (1 <= Highlight.score h <= 10)%Z) hs.
Proof.
  intros Hvalid.
  destruct (HighlightFacts.detect_highlights_total self fas) as [hs E].
  exists hs. split; [exact E|].
  apply (detect_runs_created self) in E.
  eapply Forall_impl; [|exact E]. cbv beta.
  intros h (r & run & Hrun & Hh).
  pose proof (run_members_valid self fas _ Hrun Hvalid) as Hv.
  destruct Hrun as (_ & _ & Hpass).
  apply create_highlight_fields in Hh.
  destruct Hh as (first & rest & _ & Hs & _).
  rewrite <- (length_map FrameAnalysis.interest_score) in Hs.
  split.
  - refine (proj1 (floordiv_mean_bounds _
                     (highlight_score_threshold self) 10 _ _ _ Hs)).
    + discriminate.
    + apply Forall_map. rewrite Forall_forall in *. intros fa Hin.
      specialize (Hpass _ Hin). specialize (Hv _ Hin).
      unfold passes in Hpass. apply Z.leb_le in Hpass.
      unfold FrameAnalysis.valid in Hv. lia.
  - refine (floordiv_mean_bounds _ 1 10 _ _ _ Hs).
    + discriminate.
    + apply Forall_map. exact Hv.
Qed.

Lemma highlight_scores_in_range_witness :
  exists hs,
    detect_highlights Samples.aggregator
      [Samples.record_at 0 8; Samples.record_at 6 9; Samples.record_at 7 3]
    = Some hs
    /\ Forall (fun h =>
                 (highlight_score_threshold Samples.aggregator
                  <= Highlight.score h)%Z
                 /\ (1 <= Highlight.score h <= 10)%Z) hs.
Proof.
  apply highlight_scores_in_range.
  repeat constructor; simpl; lia.
Defined.

(** The tags of a highlight are the five most frequent tags of the member
    records of its own run, the run from the highlight's start to its end,
    fewer when fewer are seen, the most frequent first and equally frequent
    ones in the order first seen; no tag is repeated. *)
Theorem highlight_tags_most_common (self : Aggregator)
    (fas : list FrameAnalysis.t) :
  exists hs,
    detect_highlights self fas = Some hs
    /\ Forall (fun h => exists r run,
                 Spec.highlight_run self fas h r run
                 /\ Highlight.tags h
                    = firstn 5
                        (Spec.frequent_tags
                           (flat_map Spec.counted_tags (r :: run)) 1)
                 /\ (List.length (Highlight.tags h) <= 5)%nat
                 /\ NoDup (Highlight.tags h)
                 /\ (forall t, In t (Highlight.tags h) ->
                       exists fa, In fa (r :: run)
                                  /\ In t (Spec.counted_tags fa))) hs.
Proof.
  destruct (HighlightFacts.detect_highlights_total self fas) as [hs E].
  exists hs. split; [exact E|].
  apply (detect_runs_maximal self) in E.
  eapply Forall_impl; [|exact E]. cbv beta.
  intros h (r & run & Hrun & Hh). exists r, run. split; [exact Hrun|].
  apply create_highlight_fields in Hh.
  destruct Hh as (first & rest & _ & _ & _ & Ht).
  rewrite most_common_tags in Ht.
  set (stream := flat_map Spec.counted_tags (r :: run)) in *.
  assert (Ef : filter (fun t => (1 <=? Spec.tally stream t)%Z)
                 (Spec.first_observed stream)
               = Spec.first_observed stream).
  { apply forallb_filter_id. apply forallb_forall. intros t Hin.
    apply Z.leb_le. apply CounterFacts.tally_positive.
    now apply CounterFacts.first_observed_in. }
  unfold Spec.frequent_tags. rewrite Ef, Ht.
  split; [reflexivity|]. split; [apply firstn_le_length|]. split.
  - apply firstn_nodup, SortFacts.sorted_desc_nodup.
    apply CounterFacts.first_observed_nodup.
  - intros t Hin. apply firstn_in in Hin.
    apply (proj1 (SortFacts.sorted_desc_in _ _ _)) in Hin.
    apply (proj1 (CounterFacts.first_observed_in _ _)) in Hin.
    unfold stream in Hin. apply (proj1 (in_flat_map _ _ _)) in Hin.
    exact Hin.
Qed.

(** The description of a highlight is that of the first record with the
    highest interest score among the members of its own run, the run from
    the highlight's start to its end. *)
Theorem highlight_description_of_best (self : Aggregator)
    (fas : list FrameAnalysis.t) :
  exists hs,
    detect_highlights self fas = Some hs
    /\ Forall (fun h => exists r run before best after,
                 Spec.highlight_run self fas h r run
                 /\ r :: run = before ++ best :: after
                 /\ Highlight.description h = FrameAnalysis.description best
                 /\ Forall (fun fa => (FrameAnalysis.interest_score fa
                                       < FrameAnalysis.interest_score best)%Z)
                      before
                 /\ Forall (fun fa => (FrameAnalysis.interest_score fa
                                       <= FrameAnalysis.interest_score best)%Z)
                      after) hs.
Proof.
  destruct (HighlightFacts.detect_highlights_total self fas) as [hs E].
  exists hs. split; [exact E|].
  apply (detect_runs_maximal self) in E.
  eapply Forall_impl; [|exact E]. cbv beta.
  intros h (r & run & Hrun & Hh).
  apply create_highlight_fields in Hh.
  destruct Hh as (first & rest & Efr & _ & Hd & _).
  injection Efr as <- <-.
  destruct (max_from_first FrameAnalysis.interest_score run r)
    as (l1 & l2 & El & H1 & H2).
  exists r, run, l1, (max_from FrameAnalysis.interest_score r run), l2.
  auto.
Qed.

(** Records that all pass the score threshold give one highlight, from the
    first timestamp to the last and made of all of them, when that span is
    at least the minimum duration, and none otherwise. *)
Theorem highlight_throughout (self : Aggregator) (r : FrameAnalysis.t)
    (run : list FrameAnalysis.t) :
  Forall (fun fa => passes self fa = true) (r :: run) ->
  exists h,
    _create_highlight (FrameAnalysis.timestamp r)
      (FrameAnalysis.timestamp (last run r)) (r :: run) = Some h
    /\ detect_highlights self (r :: run)
       = Some (if Qle_bool (highlight_min_duration self)
                    (FrameAnalysis.timestamp (last run r)
                     - FrameAnalysis.timestamp r)
               then [h] else []).
Proof.
  intros Hpass.
  destruct (HighlightFacts.create_highlight_some
              (FrameAnalysis.timestamp r)
              (FrameAnalysis.timestamp (last run r)) (r :: run))
    as (h & Eh & _); [discriminate|].
  exists h. split; [exact Eh|].
  unfold detect_highlights.
  rewrite (HighlightFacts.loop_pass_enter self r run _ initial eq_refl
             Hpass).
  cbn [bind]. rewrite last_item_cons. unfold close_at_end.
  cbn [in_highlight highlight_start highlight_frames highlights initial].
  destruct (Qle_bool _ _); [|reflexivity].
  rewrite Eh. reflexivity.
Qed.

Lemma highlight_throughout_witness :
  exists h,
    _create_highlight (FrameAnalysis.timestamp (Samples.record_at 0 8))
      (FrameAnalysis.timestamp
         (last [Samples.record_at 3 9; Samples.record_at 6 7]
            (Samples.record_at 0 8)))
      [Samples.record_at 0 8; Samples.record_at 3 9; Samples.record_at 6 7]
    = Some h
    /\ detect_highlights Samples.aggregator
         [Samples.record_at 0 8; Samples.record_at 3 9; Samples.record_at 6 7]
       = Some (if Qle_bool (highlight_min_duration Samples.aggregator)
                    (FrameAnalysis.timestamp
                       (last [Samples.record_at 3 9; Samples.record_at 6 7]
                          (Samples.record_at 0 8))
                     - FrameAnalysis.timestamp (Samples.record_at 0 8))
               then [h] else []).
Proof.
  apply highlight_throughout.
  repeat constructor.
Defined.

End HighlightContent.

(** ** What a quality assessment holds *)

Module QualityContent.
Import Py Schema Aggregation.

Lemma tenth (n : nat) :
  int (inject_Z (Z.of_nat n) * 0.1) = (Z.of_nat n / 10)%Z.
Proof.
  unfold int. cbn [Qnum Qden Qmult inject_Z].
  rewrite Z.quot_div_nonneg by lia. f_equal. lia.
Qed.

Lemma issue_counter_get (fas : list FrameAnalysis.t) (st : QualityState)
    (issue : string) :
  Counter.get (issue_counter (fold_left scan_frame fas st)) issue
  = (Counter.get (issue_counter st) issue
     + Spec.tally (flat_map FrameAnalysis.quality_issues fas) issue)%Z.
Proof.
  rewrite QualityFacts.scan_frames_counter. apply CounterFacts.get_fold.
Qed.

(** The reported issues are the distinct issue strings carried by at least
    max(1, floor(records / 10)) issue entries, in the order first seen. *)
Theorem quality_issues_significant (fas : list FrameAnalysis.t) :
  fas <> [] ->
  let stream := flat_map FrameAnalysis.quality_issues fas in
  let threshold := Z.max 1 (Z.of_nat (List.length fas) / 10) in
  QualityMetadata.issues (assess_quality fas)
  = filter (fun issue => (threshold <=? Spec.tally stream issue)%Z)
      (Spec.first_observed stream)
  /\ NoDup (QualityMetadata.issues (assess_quality fas))
  /\ (forall issue,
         In issue (QualityMetadata.issues (assess_quality fas))
         <-> (threshold <= Spec.tally stream issue)%Z).
Proof.
  intros Hne stream threshold.
  assert (E : QualityMetadata.issues (assess_quality fas)
              = filter (fun issue => (threshold <=? Spec.tally stream issue)%Z)
                  (Spec.first_observed stream)).
  { destruct fas as [|fa fas]; [congruence|].
    unfold assess_quality. cbn [QualityMetadata.issues].
    set (frames := fa :: fas) in *.
    rewrite QualityFacts.scan_frames_counter. cbn [issue_counter].
    fold stream. unfold Counter.items.
    rewrite QualityFacts.max_int_max, tenth. fold threshold.
    rewrite (CounterFacts.filter_items _ (fun n => (threshold <=? n)%Z)).
    2:{ rewrite CounterFacts.keys_fold.
        apply CounterFacts.fold_add_new_nodup. constructor. }
    rewrite CounterFacts.keys_fold. cbn [map Counter.empty].
    apply filter_ext. intros issue.
    rewrite CounterFacts.get_fold. reflexivity. }
  rewrite E. split; [reflexivity|]. split.
  - apply NoDup_filter, CounterFacts.first_observed_nodup.
  - intros issue. rewrite filter_In, CounterFacts.first_observed_in, Z.leb_le.
    split; [tauto|]. intros H. split; [|exact H].
    apply CounterFacts.tally_positive. unfold threshold in H. lia.
Qed.

Lemma quality_issues_significant_witness :
  In "blur"%string
    (QualityMetadata.issues
       (assess_quality
          [Samples.record_with_issues 0 ["blur"]%string;
           Samples.record_with_issues 2 []]))
  <-> (Z.max 1 (Z.of_nat 2 / 10)
       <= Spec.tally
            (flat_map FrameAnalysis.quality_issues
               [Samples.record_with_issues 0 ["blur"]%string;
                Samples.record_with_issues 2 []]) "blur")%Z.
Proof.
  apply (proj2 (proj2 (quality_issues_significant
                         [Samples.record_with_issues 0 ["blur"]%string;
                          Samples.record_with_issues 2 []]
                         ltac:(discriminate)))).
Defined.

(** Artifacts are reported as soon as any issue string of any record
    mentions dvr or artifact, in any letter case, whether or not the issue
    is frequent enough to count towards the score. *)
Theorem dvr_artifacts_any_issue (fas : list FrameAnalysis.t) :
  QualityMetadata.dvr_artifacts_detected (assess_quality fas)
  = existsb (fun issue => contains "dvr" (lower issue)
                          || contains "artifact" (lower issue))
      (flat_map FrameAnalysis.quality_issues fas).
Proof.
  destruct fas as [|fa fas]; [reflexivity|].
  unfold assess_quality. cbn [QualityMetadata.dvr_artifacts_detected].
  now rewrite QualityFacts.scan_frames_dvr.
Qed.

(** The overall score is between 1 and 10 for every input, the empty one
    included, so the constraint on [QualityMetadata.overall_score] holds. *)
Theorem overall_score_in_range (fas : list FrameAnalysis.t) :
  (1 <= QualityMetadata.overall_score (assess_quality fas) <= 10)%Z.
Proof.
  destruct fas as [|fa fas]; [cbn; lia|].
  unfold assess_quality. cbn [QualityMetadata.overall_score].
  rewrite QualityFacts.max_int_max, QualityFacts.min_int_min. lia.
Qed.

End QualityContent.

(** ** What static detection emits *)

Module StaticContent.
Import Py PyFacts ListFacts Config Frames Schema Static.
Import StaticSegment.

Lemma or_float_nonzero (x : option Q) (d : Q) :
  ~ d == 0 -> ~ or_float x d == 0.
Proof.
  intros Hd. unfold or_float. destruct x as [v|]; [|exact Hd].
  destruct (Qeq_bool v 0) eqn:E; [exact Hd|].
  intros Hv. apply Qeq_bool_iff in Hv. congruence.
Qed.

Lemma classify_static_cases (start end_ video_duration : Q) :
  classify_static start end_ video_duration = PRE_ARM
  \/ classify_static start end_ video_duration = POST_LAND
  \/ classify_static start end_ video_duration = DVR_FREEZE.
Proof.
  unfold classify_static.
  destruct (Qltb start 30); [auto|].
  destruct (Qltb (video_duration - 30) end_); auto.
Qed.

Section Detector.

Variable compute_frame_difference : Frame -> Frame -> Q.
Variable self : StaticDetector.
Variable video_duration : Q.

Local Abbreviation loop_body :=
  (Static.loop_body compute_frame_difference self video_duration).
Local Abbreviation loop :=
  (Static.loop compute_frame_difference self video_duration).
Local Abbreviation close_at_end := (Static.close_at_end self video_duration).
Local Abbreviation detect_static_segments :=
  (Static.detect_static_segments compute_frame_difference self video_duration).

Lemma loop_total_nonzero (rest : list Frame) : forall prev st,
  ~ threshold self == 0 -> exists st', loop prev rest st = Some st'.
Proof.
  induction rest as [|cur rest IH]; intros prev st Hthr; cbn [Static.loop].
  - eauto.
  - destruct (StaticFacts.loop_body_total compute_frame_difference self
                video_duration prev cur st) as [st1 E]; [auto|].
    rewrite E. cbn [bind]. apply IH, Hthr.
Qed.

Lemma detect_total_nonzero (frames : list Frame) :
  ~ threshold self == 0 ->
  exists segs, detect_static_segments frames = Some segs.
Proof.
  intros Hthr. unfold Static.detect_static_segments.
  destruct (_ <? _)%nat; [eauto|].
  destruct frames as [|first rest]; [eauto|].
  destruct (loop_total_nonzero rest first initial Hthr) as [st E].
  rewrite E. cbn [bind]. eauto.
Qed.

(** A property of segments that every appended segment has holds of all
    emitted segments. *)
Lemma detect_segments_forall (ok : StaticSegment.t -> Prop)
    (frames : list Frame) (segs : list StaticSegment.t) :
  (forall start end_ c,
      0 <= c <= 1 ->
      ok {| start := start; end_ := end_;
            reason := classify_static start end_ video_duration;
            confidence := c |}) ->
  detect_static_segments frames = Some segs -> Forall ok segs.
Proof.
  intros Hok. unfold Static.detect_static_segments.
  destruct (_ <? _)%nat; [intros [= <-]; constructor|].
  destruct frames as [|first rest]; [intros [= <-]; constructor|].
  destruct (loop first rest initial) as [st|] eqn:E; cbn [bind];
    [|discriminate].
  intros [= <-].
  assert (Hst : Forall ok (segments st)).
  { refine (StaticFacts.loop_invariant compute_frame_difference self
              video_duration (fun _ st => Forall ok (segments st))
              _ rest first initial st _ E); [|constructor].
    intros prev cur s0 s1 HP H. apply StaticFacts.loop_body_inv in H.
    destruct H as [_ ->|_ _ ->|_ _ _ ->|ratio _ _ _ _ ->]; cbn [segments];
      auto.
    - now destruct (in_static s0).
    - apply Forall_app. split; [assumption|]. constructor; [|constructor].
      apply Hok, clamp_bounds. }
  unfold Static.close_at_end.
  destruct (in_static st); [destruct (Qle_bool _ _)|]; auto.
  apply Forall_app. split; [assumption|]. constructor; [|constructor].
  apply Hok. lra.
Qed.

End Detector.

(** Static detection does not raise for a detector made by the constructor
    from settings whose static threshold is not zero: an argument of zero
    falls back on the setting, so the division by the threshold is always
    defined, whatever the difference measure gives. *)
Theorem constructed_detector_never_raises (cfg : Settings)
    (threshold_arg min_duration_arg : option Q)
    (compute_frame_difference : Frame -> Frame -> Q) (video_duration : Q)
    (frames : list Frame) :
  ~ static_threshold cfg == 0 ->
  exists segs,
    detect_static_segments compute_frame_difference
      (init cfg threshold_arg min_duration_arg) video_duration frames
    = Some segs.
Proof.
  intros Hcfg. apply detect_total_nonzero.
  unfold init. cbn [threshold]. apply or_float_nonzero, Hcfg.
Qed.

Lemma constructed_detector_never_raises_witness :
  exists segs,
    detect_static_segments (fun _ _ => - (1)) (init settings (Some 0) None)
      120 (map Samples.frame_at [0; 1; 2; 3]) = Some segs.
Proof.
  apply constructed_detector_never_raises.
  vm_compute. discriminate.
Defined.

(** Every emitted segment meets the constraints of [StaticSegment]: its
    confidence is between 0 and 1, and its reason is one of pre-arm,
    post-land and dvr-freeze, never signal-loss or unknown. *)
Theorem static_segments_meet_schema
    (compute_frame_difference : Frame -> Frame -> Q) (self : StaticDetector)
    (video_duration : Q) (frames : list Frame) :
  ~ threshold self == 0 ->
  exists segs,
    detect_static_segments compute_frame_difference self video_duration frames
    = Some segs
    /\ Forall (fun s =>
                 0 <= confidence s <= 1
                 /\ (reason s = PRE_ARM \/ reason s = POST_LAND
                     \/ reason s = DVR_FREEZE)) segs.
Proof.
  intros Hthr.
  destruct (detect_total_nonzero compute_frame_difference self video_duration
              frames Hthr) as [segs E].
  exists segs. split; [exact E|].
  refine (detect_segments_forall compute_frame_difference self video_duration
            _ frames segs _ E).
  intros start end_ c Hc. cbn [confidence reason]. split; [exact Hc|].
  apply classify_static_cases.
Qed.

Lemma static_segments_meet_schema_witness :
  exists segs,
    detect_static_segments Samples.low_until_two Samples.detector 120
      (map Samples.frame_at [0; 1; 2; 3]) = Some segs
    /\ Forall (fun s =>
                 0 <= confidence s <= 1
                 /\ (reason s = PRE_ARM \/ reason s = POST_LAND
                     \/ reason s = DVR_FREEZE)) segs.
Proof.
  apply static_segments_meet_schema.
  vm_compute. discriminate.
Defined.

Section Boundaries.

Variable compute_frame_difference : Frame -> Frame -> Q.
Variable self : StaticDetector.
Variable video_duration : Q.

Local Abbreviation loop :=
  (Static.loop compute_frame_difference self video_duration).

Lemma loop_boundaries (times : list Q) (rest : list Frame) :
  forall prev st st',
    In (timestamp prev) times ->
    Forall (fun f => In (timestamp f) times) rest ->
    Forall (fun s => In (start s) times /\ In (end_ s) times) (segments st) ->
    (in_static st = true -> In (static_start st) times) ->
    loop prev rest st = Some st' ->
    Forall (fun s => In (start s) times /\ In (end_ s) times) (segments st')
    /\ (in_static st' = true -> In (static_start st') times).
Proof.
  induction rest as [|cur rest IH]; intros prev st st' Hprev Hrest Hsegs Hopen;
    cbn [Static.loop].
  - intros [= <-]. auto.
  - destruct (Static.loop_body compute_frame_difference self video_duration
                prev cur st) as [st1|] eqn:E; cbn [bind]; [|discriminate].
    apply Forall_cons_iff in Hrest. destruct Hrest as [Hcur Hrest].
    apply StaticFacts.loop_body_inv in E.
    apply IH; [exact Hcur|exact Hrest| |].
    + destruct E as [_ ->|_ _ ->|_ _ _ ->|ratio _ Hin _ _ ->];
        cbn [segments]; auto.
      * now destruct (in_static st).
      * apply Forall_app. split; [assumption|].
        constructor; [|constructor]. cbn [start end_]. auto.
    + destruct E as [_ ->|_ _ ->|_ _ _ ->|ratio _ Hin _ _ ->];
        cbn [in_static static_start]; auto; try discriminate.
      destruct (in_static st) eqn:Ein; cbn [in_static static_start]; auto.
Qed.

End Boundaries.

(** Segments begin and end on timestamps of the frames given: no boundary
    lies between two samples. *)
Theorem static_boundaries_on_samples
    (compute_frame_difference : Frame -> Frame -> Q) (self : StaticDetector)
    (video_duration : Q) (frames : list Frame) :
  ~ threshold self == 0 ->
  exists segs,
    detect_static_segments compute_frame_difference self video_duration frames
    = Some segs
    /\ Forall (fun s => In (start s) (map timestamp frames)
                        /\ In (end_ s) (map timestamp frames)) segs.
Proof.
  intros Hthr.
  destruct (detect_total_nonzero compute_frame_difference self video_duration
              frames Hthr) as [segs E].
  exists segs. split; [exact E|]. revert E.
  unfold Static.detect_static_segments.
  destruct (_ <? _)%nat; [intros [= <-]; constructor|].
  destruct frames as [|first rest]; [intros [= <-]; constructor|].
  destruct (Static.loop compute_frame_difference self video_duration first
              rest initial) as [st|] eqn:E; cbn [bind]; [|discriminate].
  intros [= <-].
  set (times := map timestamp (first :: rest)).
  assert (Hall : Forall (fun f => In (timestamp f) times) (first :: rest)).
  { apply Forall_forall. intros f Hf. unfold times. now apply in_map. }
  destruct (loop_boundaries compute_frame_difference self video_duration
              times rest first initial st) as [Hsegs Hopen]; auto.
  - apply Forall_cons_iff in Hall. apply Hall.
  - apply Forall_cons_iff in Hall. apply Hall.
  - discriminate.
  - unfold Static.close_at_end.
    destruct (in_static st) eqn:Ein; [|exact Hsegs].
    destruct (Qle_bool _ _); [|exact Hsegs].
    apply Forall_app. split; [exact Hsegs|]. constructor; [|constructor].
    cbn [start end_]. split; [auto|].
    rewrite Forall_forall in Hall. apply Hall.
    unfold last_item. destruct rest as [|r rest]; [left; reflexivity|].
    rewrite last_shift. right.
    clear. revert r. induction rest as [|x rest IH]; intros r.
    + left. reflexivity.
    + rewrite last_shift. right. apply IH.
Qed.

Lemma static_boundaries_on_samples_witness :
  exists segs,
    detect_static_segments Samples.low_until_two Samples.detector 120
      (map Samples.frame_at [0; 1; 2; 3]) = Some segs
    /\ Forall (fun s =>
                 In (start s)
                   (map timestamp (map Samples.frame_at [0; 1; 2; 3]))
                 /\ In (end_ s)
                      (map timestamp (map Samples.frame_at [0; 1; 2; 3])))
         segs.
Proof.
  apply static_boundaries_on_samples.
  vm_compute. discriminate.
Defined.

Lemma close_at_end_cases (self : StaticDetector) (video_duration : Q)
    (last_frame : Frame) (st : LoopState) :
  close_at_end self video_duration last_frame st = segments st
  \/ exists s,
       close_at_end self video_duration last_frame st = segments st ++ [s]
       /\ confidence s = 0.9.
Proof.
  unfold close_at_end. destruct (in_static st); [|auto].
  destruct (Qle_bool _ _); [|auto].
  right. eexists. split; reflexivity.
Qed.

(** More frames after the ones analysed leave the segments found so far in
    place, except that the last one may change when it was closed by the end
    of the input, with confidence 0.9, and not by a moving frame. *)
Theorem static_segments_prefix_stable
    (compute_frame_difference : Frame -> Frame -> Q) (self : StaticDetector)
    (video_duration : Q) (frames more : list Frame)
    (found : list StaticSegment.t) :
  ~ threshold self == 0 ->
  detect_static_segments compute_frame_difference self video_duration frames
  = Some found ->
  exists kept ext,
    detect_static_segments compute_frame_difference self video_duration
      (frames ++ more) = Some (kept ++ ext)
    /\ (found = kept
        \/ exists s, found = kept ++ [s] /\ confidence s = 0.9).
Proof.
  intros Hthr Hfound.
  destruct (detect_total_nonzero compute_frame_difference self video_duration
              (frames ++ more) Hthr) as [segs E].
  revert Hfound. unfold detect_static_segments at 1.
  destruct (List.length frames <? 2)%nat eqn:Elen.
  { intros [= <-]. exists [], segs. split; [exact E|]. left. reflexivity. }
  apply Nat.ltb_ge in Elen.
  destruct frames as [|first rest]; [cbn in Elen; lia|].
  destruct (loop compute_frame_difference self video_duration first rest
              initial) as [st|] eqn:El; cbn [bind]; [|discriminate].
  intros [= <-].
  assert (Hext : exists ext, segs = segments st ++ ext).
  { revert E. unfold detect_static_segments.
    destruct (_ <? _)%nat eqn:Elen2.
    - apply Nat.ltb_lt in Elen2.
      rewrite length_app in Elen2. lia.
    - cbn [app]. rewrite StaticFacts.loop_app, El. cbn [bind].
      destruct (loop compute_frame_difference self video_duration
                  (last rest first) more st) as [st2|] eqn:E2; cbn [bind];
        [|discriminate].
      intros [= <-].
      apply StaticFacts.loop_extends in E2. destruct E2 as [e1 E2].
      match goal with
      | |- context [close_at_end self video_duration ?l st2] =>
          destruct (StaticFacts.close_at_end_extends self video_duration
                      l st2) as [e2 E3]
      end.
      rewrite E3, E2, <- app_assoc. eauto. }
  destruct Hext as [ext ->]. exists (segments st), ext.
  split; [exact E|]. apply close_at_end_cases.
Qed.

Lemma static_segments_prefix_stable_witness :
  exists kept ext,
    detect_static_segments Samples.low_until_two Samples.detector 120
      (map Samples.frame_at [0; 1; 2] ++ map Samples.frame_at [3; 4])
    = Some (kept ++ ext)
    /\ ([{| start := 0;
            end_ := 2;
            reason := PRE_ARM;
            confidence := 0.9 |}] = kept
        \/ exists s,
             [{| start := 0;
                 end_ := 2;
                 reason := PRE_ARM;
                 confidence := 0.9 |}] = kept ++ [s]
             /\ confidence s = 0.9).
Proof.
  apply static_segments_prefix_stable.
  - vm_compute. discriminate.
  - vm_compute. reflexivity.
Defined.

(** Frames that never differ by the threshold or more give one segment from
    the first timestamp to the last with confidence 0.9, or none when that
    span is shorter than the minimum duration. *)
Theorem static_throughout
    (compute_frame_difference : Frame -> Frame -> Q) (self : StaticDetector)
    (video_duration : Q) (first : Frame) (rest : list Frame) :
  rest <> [] ->
  all_low compute_frame_difference self first rest ->
  detect_static_segments compute_frame_difference self video_duration
    (first :: rest)
  = Some
      (if Qle_bool (min_duration self)
            (timestamp (last rest first) - timestamp first)
       then [{| start := timestamp first;
                end_ := timestamp (last rest first);
                reason := classify_static (timestamp first)
                            (timestamp (last rest first)) video_duration;
                confidence := 0.9 |}]
       else []).
Proof.
  intros Hne Hlow. destruct rest as [|cur rest]; [congruence|].
  unfold detect_static_segments.
  change (List.length (first :: cur :: rest) <? 2)%nat with false.
  cbv iota.
  rewrite (StaticFacts.loop_low_enter compute_frame_difference self
             video_duration cur rest first initial eq_refl Hlow).
  cbn [bind]. rewrite last_item_cons.
  unfold close_at_end. cbn [in_static static_start segments initial app].
  destruct (Qle_bool _ _); reflexivity.
Qed.

Lemma static_throughout_witness :
  detect_static_segments (fun _ _ => 0.01) Samples.detector 120
    (Samples.frame_at 0 :: map Samples.frame_at [2; 4; 6])
  = Some
      (if Qle_bool (min_duration Samples.detector)
            (timestamp (last (map Samples.frame_at [2; 4; 6])
                          (Samples.frame_at 0))
             - timestamp (Samples.frame_at 0))
       then [{| start := timestamp (Samples.frame_at 0);
                end_ := timestamp (last (map Samples.frame_at [2; 4; 6])
                                     (Samples.frame_at 0));
                reason := classify_static (timestamp (Samples.frame_at 0))
                            (timestamp (last (map Samples.frame_at [2; 4; 6])
                                          (Samples.frame_at 0))) 120;
                confidence := 0.9 |}]
       else []).
Proof.
  apply static_throughout.
  - simpl. discriminate.
  - simpl. repeat split; reflexivity.
Defined.

End StaticContent.

(** ** Frame extraction *)

Module ExtractFacts.
Import Py PyStr Frames FrameExtractor.

Lemma multiples_below_step (i c : Z) :
  (1 <= i)%Z -> (0 <= c)%Z ->
  Spec.multiples_below i (c + 1)
  = (if (c mod i =? 0)%Z then Spec.multiples_below i c + 1
     else Spec.multiples_below i c)%Z
  /\ ((c mod i =? 0)%Z = true -> c = (Spec.multiples_below i c * i)%Z).
Proof.
  intros Hi Hc. unfold Spec.multiples_below.
  pose proof (Z.div_mod c i ltac:(lia)) as Hdm.
  pose proof (Z.mod_pos_bound c i ltac:(lia)) as Hr.
  set (q := (c / i)%Z) in *. set (r := (c mod i)%Z) in *.
  assert (E1 : ((c + 1 + i - 1) / i = q + 1)%Z).
  { symmetry. apply (Z.div_unique _ _ _ r); lia. }
  rewrite E1.
  destruct (Z.eqb_spec r 0) as [Hr0|Hr0].
  - assert (E2 : ((c + i - 1) / i = q)%Z).
    { symmetry. apply (Z.div_unique _ _ _ (i - 1)); lia. }
    rewrite E2. split; [reflexivity|]. intros _. lia.
  - assert (E2 : ((c + i - 1) / i = q + 1)%Z).
    { symmetry. apply (Z.div_unique _ _ _ (r - 1)); lia. }
    rewrite E2. split; [reflexivity|]. discriminate.
Qed.

Lemma multiples_below_mono (i c c' : Z) :
  (1 <= i)%Z -> (c <= c')%Z ->
  (Spec.multiples_below i c <= Spec.multiples_below i c')%Z.
Proof.
  intros Hi Hc. unfold Spec.multiples_below.
  apply Z.div_le_mono; lia.
Qed.

Lemma multiples_below_zero (i : Z) :
  (1 <= i)%Z -> Spec.multiples_below i 0 = 0%Z.
Proof.
  intros Hi. unfold Spec.multiples_below. apply Z.div_small. lia.
Qed.

Section Extract.

Variable Image : Type.
Variable self : FrameExtractor.t.
Variable output_dir : string.
Variable fps : Q.

Local Abbreviation frame_interval := (FrameExtractor.frame_interval self fps).
Local Abbreviation loop_body :=
  (FrameExtractor.loop_body self output_dir fps).
Local Abbreviation loop := (FrameExtractor.loop Image self output_dir fps).
Local Abbreviation saved_frame :=
  (Spec.saved_frame output_dir fps frame_interval).

Local Abbreviation invariant :=
  (Spec.extract_invariant output_dir fps frame_interval).

Lemma zero_fps_zero_interval : fps == 0 -> frame_interval = 0%Z.
Proof.
  intros H. unfold FrameExtractor.frame_interval, int.
  assert (E : Qnum (fps * sample_interval self) = 0%Z).
  { unfold Qeq in H. cbn [Qnum Qden] in H. cbn [Qmult Qnum]. nia. }
  rewrite E. apply Z.quot_0_l. discriminate.
Qed.

Lemma loop_body_saves (st : LoopState) :
  (1 <= frame_interval)%Z -> invariant st ->
  exists st',
    loop_body st = Ok st'
    /\ invariant st'
    /\ frame_count st' = (frame_count st + 1)%Z
    /\ (saved_count st <= saved_count st' <= saved_count st + 1)%Z.
Proof.
  intros Hi (Hc & Hs & Hf). unfold FrameExtractor.loop_body.
  destruct (Z.eqb_spec frame_interval 0) as [E0|_]; [lia|].
  destruct (multiples_below_step frame_interval (frame_count st) Hi Hc)
    as [Hstep Hmult].
  assert (Hs0 : (0 <= saved_count st)%Z).
  { rewrite Hs, <- (multiples_below_zero frame_interval Hi).
    apply multiples_below_mono; lia. }
  assert (Hor : ((frame_count st mod frame_interval =? 0)
                 || (frame_count st =? 0))%Z
                = (frame_count st mod frame_interval =? 0)%Z).
  { destruct (Z.eqb_spec (frame_count st) 0) as [E|_];
      [|apply orb_false_r].
    rewrite E, Z.mod_0_l by lia. reflexivity. }
  rewrite Hor.
  destruct (frame_count st mod frame_interval =? 0)%Z eqn:Em.
  - destruct (Qeq_bool fps 0) eqn:Efps.
    { apply Qeq_bool_iff, zero_fps_zero_interval in Efps. lia. }
    eexists. split; [reflexivity|]. unfold Spec.extract_invariant.
    cbn [frame_count saved_count frames]. split; [|split; [reflexivity|lia]].
    split; [lia|]. split; [rewrite Hstep, Hs; reflexivity|].
    rewrite Z2Nat.inj_add by lia. change (Z.to_nat 1) with 1%nat.
    rewrite Nat.add_1_r, seq_S, map_app, <- Hf. cbn [map Nat.add].
    do 2 f_equal. unfold Spec.saved_frame.
    rewrite Z2Nat.id by lia. rewrite (Hmult eq_refl) at 1.
    rewrite <- Hs. reflexivity.
  - eexists. split; [reflexivity|]. unfold Spec.extract_invariant.
    cbn [frame_count saved_count frames]. split; [|split; [reflexivity|lia]].
    split; [lia|]. split; [rewrite Hstep, Hs; reflexivity|exact Hf].
Qed.

Lemma loop_saves (video : list Image) : forall st,
  (1 <= frame_interval)%Z -> invariant st ->
  (saved_count st <= Z.max 0 (max_frames self))%Z ->
  exists st',
    loop video st = Ok st'
    /\ invariant st'
    /\ saved_count st'
       = Z.min (Z.max 0 (max_frames self))
           (Spec.multiples_below frame_interval
              (frame_count st + Z.of_nat (List.length video))).
Proof.
  induction video as [|img video IH]; intros st Hi Hinv Hmax.
  - exists st. cbn [FrameExtractor.loop List.length].
    destruct Hinv as (Hc & Hs & Hf). rewrite Z.add_0_r, <- Hs.
    split; [now destruct (_ <? _)%Z|].
    split; [repeat split; assumption|]. lia.
  - cbn [FrameExtractor.loop].
    pose proof Hinv as (Hc & Hs & Hf).
    pose proof (multiples_below_mono frame_interval (frame_count st)
                  (frame_count st + Z.of_nat (List.length (img :: video)))
                  Hi ltac:(lia)) as Hmono.
    assert (Hs0 : (0 <= saved_count st)%Z).
    { rewrite Hs, <- (multiples_below_zero frame_interval Hi).
      apply multiples_below_mono; lia. }
    destruct (Z.ltb_spec (saved_count st) (max_frames self)) as [Hlt|Hge].
    + destruct (loop_body_saves st Hi Hinv) as (st1 & E1 & Hinv1 & Hc1 & Hs1).
      rewrite E1.
      destruct (IH st1 Hi Hinv1 ltac:(lia)) as (st' & E' & Hinv' & Hs').
      exists st'. split; [exact E'|]. split; [exact Hinv'|].
      rewrite Hs', Hc1. do 2 f_equal. cbn [List.length]. lia.
    + exists st. split; [reflexivity|]. split; [exact Hinv|]. lia.
Qed.

End Extract.

Lemma seq_strongly_sorted {A : Type} (R : A -> A -> Prop) (f : nat -> A)
    (m : nat) : forall a,
  (forall j k, (j < k)%nat -> R (f j) (f k)) ->
  StronglySorted R (map f (seq a m)).
Proof.
  induction m as [|m IH]; intros a HR; cbn [seq map]; constructor.
  - apply IH, HR.
  - apply Forall_forall. intros x Hx. apply in_map_iff in Hx.
    destruct Hx as (k & <- & Hk). apply in_seq in Hk. apply HR. lia.
Qed.

Lemma saved_frame_timestamps_increase (output_dir : string) (fps : Q)
    (i : Z) (j k : nat) :
  0 < fps -> (1 <= i)%Z -> (j < k)%nat ->
  timestamp (Spec.saved_frame output_dir fps i j)
  < timestamp (Spec.saved_frame output_dir fps i k).
Proof.
  intros Hfps Hi Hjk. unfold Spec.saved_frame. cbn [timestamp].
  apply Qmult_lt_compat_r; [now apply Qinv_lt_0_compat|].
  rewrite <- Zlt_Qlt. nia.
Qed.

Lemma extract_saved_frames (Image : Type) (self : FrameExtractor.t)
    (output_dir : string) (fps : Q) (video : list Image) :
  (1 <= frame_interval self fps)%Z ->
  extract_frames_opencv Image self output_dir fps true video
  = Ok (map (Spec.saved_frame output_dir fps (frame_interval self fps))
          (seq 0
             (Z.to_nat
                (Z.min (Z.max 0 (max_frames self))
                   (Spec.multiples_below (frame_interval self fps)
                      (Z.of_nat (List.length video))))))).
Proof.
  intros Hi. unfold extract_frames_opencv. cbn [negb].
  destruct (loop_saves Image self output_dir fps video initial Hi)
    as (st & E & (_ & _ & Hf) & Hs).
  - unfold Spec.extract_invariant. cbn [frame_count saved_count frames initial].
    rewrite multiples_below_zero by exact Hi. repeat split; lia.
  - cbn [saved_count initial]. lia.
  - rewrite E, Hf, Hs. reflexivity.
Qed.

Lemma saved_frames_sorted (output_dir : string) (fps : Q) (i : Z)
    (m a : nat) :
  0 < fps -> (1 <= i)%Z ->
  Sorted Qle
    (map timestamp (map (Spec.saved_frame output_dir fps i) (seq a m))).
Proof.
  intros Hfps Hi. apply StronglySorted_Sorted. rewrite map_map.
  apply seq_strongly_sorted. intros j k Hjk.
  apply Qlt_le_weak. now apply saved_frame_timestamps_increase.
Qed.

(** With an interval of at least one frame, extraction saves the frames at
    the multiples of the interval, as many as the video holds and at most
    [max_frames]: frame [j] is stamped [j * interval / fps] and named after
    [j]. *)
Theorem extract_frames_opencv_saves (Image : Type) (self : FrameExtractor.t)
    (output_dir : string) (fps : Q) (video : list Image) :
  (1 <= frame_interval self fps)%Z ->
  let saved :=
    Z.to_nat
      (Z.min (Z.max 0 (max_frames self))
         (Spec.multiples_below (frame_interval self fps)
            (Z.of_nat (List.length video)))) in
  extract_frames_opencv Image self output_dir fps true video
  = Ok (map (Spec.saved_frame output_dir fps (frame_interval self fps))
          (seq 0 saved))
  /\ (Z.of_nat saved <= Z.max 0 (max_frames self))%Z
  /\ (saved <= List.length video)%nat.
Proof.
  intros Hi saved. unfold extract_frames_opencv. cbn [negb].
  destruct (loop_saves Image self output_dir fps video initial Hi)
    as (st & E & (_ & _ & Hf) & Hs).
  - unfold Spec.extract_invariant. cbn [frame_count saved_count frames initial].
    rewrite multiples_below_zero by exact Hi. repeat split; lia.
  - cbn [saved_count initial]. lia.
  - rewrite E, Hf, Hs. cbn [frame_count initial Z.add].
    fold saved. split; [reflexivity|].
    pose proof (multiples_below_zero _ Hi) as H0.
    pose proof (multiples_below_mono (frame_interval self fps) 0
                  (Z.of_nat (List.length video)) Hi ltac:(lia)) as Hm.
    assert (Hle : (Spec.multiples_below (frame_interval self fps)
                     (Z.of_nat (List.length video))
                   <= Z.of_nat (List.length video))%Z).
    { destruct (List.length video) as [|n].
      { change (Z.of_nat 0) with 0%Z. rewrite H0. lia. }
      unfold Spec.multiples_below.
      apply Z.div_le_upper_bound; [lia|]. nia. }
    unfold saved. split; lia.
Qed.

Lemma extract_frames_opencv_saves_witness :
  extract_frames_opencv unit (init settings None (Some 2%Z)) "/tmp/f" 30 true
    (repeat tt 150)
  = Ok (map (Spec.saved_frame "/tmp/f" 30
               (frame_interval (init settings None (Some 2%Z)) 30))
          (seq 0
             (Z.to_nat
                (Z.min (Z.max 0 (max_frames (init settings None (Some 2%Z))))
                   (Spec.multiples_below
                      (frame_interval (init settings None (Some 2%Z)) 30)
                      (Z.of_nat (List.length (repeat tt 150))))))))
  /\ (Z.of_nat
        (Z.to_nat
           (Z.min (Z.max 0 (max_frames (init settings None (Some 2%Z))))
              (Spec.multiples_below
                 (frame_interval (init settings None (Some 2%Z)) 30)
                 (Z.of_nat (List.length (repeat tt 150))))))
      <= Z.max 0 (max_frames (init settings None (Some 2%Z))))%Z
  /\ (Z.to_nat
        (Z.min (Z.max 0 (max_frames (init settings None (Some 2%Z))))
           (Spec.multiples_below
              (frame_interval (init settings None (Some 2%Z)) 30)
              (Z.of_nat (List.length (repeat tt 150)))))
      <= List.length (repeat tt 150))%nat.
Proof.
  apply (extract_frames_opencv_saves unit (init settings None (Some 2%Z))).
  vm_compute. discriminate.
Defined.

(** The frames extracted from a video with a positive frame rate are in
    strictly increasing order of time, so the timestamps handed to the
    detectors never decrease. *)
Theorem extracted_timestamps_increase (Image : Type)
    (self : FrameExtractor.t) (output_dir : string) (fps : Q)
    (video : list Image) :
  0 < fps -> (1 <= frame_interval self fps)%Z ->
  exists extracted,
    extract_frames_opencv Image self output_dir fps true video = Ok extracted
    /\ StronglySorted (fun a b => timestamp a < timestamp b) extracted
    /\ Sorted Qle (map timestamp extracted).
Proof.
  intros Hfps Hi.
  pose proof (extract_saved_frames Image self output_dir fps video Hi) as E.
  eexists. split; [exact E|]. split.
  - apply seq_strongly_sorted. intros j k Hjk.
    now apply saved_frame_timestamps_increase.
  - now apply saved_frames_sorted.
Qed.

Lemma extracted_timestamps_increase_witness :
  exists extracted,
    extract_frames_opencv unit (init settings None None) "/tmp/f" 30 true
      (repeat tt 150) = Ok extracted
    /\ StronglySorted (fun a b => timestamp a < timestamp b) extracted
    /\ Sorted Qle (map timestamp extracted).
Proof.
  apply extracted_timestamps_increase.
  - reflexivity.
  - vm_compute. discriminate.
Defined.

Lemma loop_body_ok (self : FrameExtractor.t) (output_dir : string) (fps : Q)
    (st : LoopState) :
  frame_interval self fps <> 0%Z ->
  exists st', loop_body self output_dir fps st = Ok st'.
Proof.
  intros Hi. unfold loop_body.
  destruct (Z.eqb_spec (frame_interval self fps) 0) as [E|_]; [contradiction|].
  destruct (_ || _); [|eauto].
  destruct (Qeq_bool fps 0) eqn:Efps; [|eauto].
  apply Qeq_bool_iff in Efps.
  apply (zero_fps_zero_interval self) in Efps. contradiction.
Qed.

Lemma loop_ok (Image : Type) (self : FrameExtractor.t) (output_dir : string)
    (fps : Q) (video : list Image) : forall st,
  frame_interval self fps <> 0%Z ->
  exists st', loop Image self output_dir fps video st = Ok st'.
Proof.
  induction video as [|img video IH]; intros st Hi; cbn [loop].
  - destruct (_ <? _)%Z; eauto.
  - destruct (_ <? _)%Z; [|eauto].
    destruct (loop_body_ok self output_dir fps st Hi) as [st1 E].
    rewrite E. apply IH, Hi.
Qed.

(** Extraction from an opened capture raises exactly when the interval
    [int(fps * sample_interval)] is zero, as it is for an unknown frame rate
    of 0, while there is a frame to read and room to save one; the exception
    is the [ZeroDivisionError] of the modulo. *)
Theorem extract_frames_opencv_raises (Image : Type) (self : FrameExtractor.t)
    (output_dir : string) (fps : Q) (video : list Image) (e : exn) :
  extract_frames_opencv Image self output_dir fps true video = Raise e
  <-> e = ZeroDivisionError
      /\ frame_interval self fps = 0%Z
      /\ video <> []
      /\ (0 < max_frames self)%Z.
Proof.
  unfold extract_frames_opencv. cbn [negb]. split.
  - destruct (Z.eq_dec (frame_interval self fps) 0) as [E0|Hi].
    + destruct video as [|img video]; cbn [loop saved_count initial].
      * now destruct (_ <? _)%Z.
      * destruct (Z.ltb_spec 0 (max_frames self)) as [Hm|Hm];
          [|discriminate].
        unfold loop_body. rewrite E0. cbn [Z.eqb].
        intros [= <-]. repeat split; [discriminate|exact Hm].
    + destruct (loop_ok Image self output_dir fps video initial Hi)
        as [st E].
      rewrite E. discriminate.
  - intros (-> & E0 & Hv & Hm).
    destruct video as [|img video]; [congruence|].
    cbn [loop saved_count initial].
    destruct (Z.ltb_spec 0 (max_frames self)) as [_|Hm']; [|lia].
    unfold loop_body. rewrite E0. reflexivity.
Qed.

End ExtractFacts.

(** ** File names of the extracted frames *)

Module PathFacts.
Import PyStr.

Lemma append_inv_head (s a b : string) :
  (s ++ a = s ++ b)%string -> a = b.
Proof.
  induction s as [|c s IH]; cbn [String.append]; [auto|].
  intros [= H]. apply IH, H.
Qed.

Lemma list_of_append (a b : string) :
  list_ascii_of_string (a ++ b)
  = list_ascii_of_string a ++ list_ascii_of_string b.
Proof.
  induction a as [|c a IH]; cbn [String.append list_ascii_of_string app].
  - reflexivity.
  - now rewrite IH.
Qed.

Lemma append_inv_tail (a b s : string) :
  (a ++ s = b ++ s)%string -> a = b.
Proof.
  intros H. apply (f_equal list_ascii_of_string) in H.
  rewrite !list_of_append in H. apply app_inv_tail in H.
  apply (f_equal string_of_list_ascii) in H.
  now rewrite !string_of_list_ascii_of_string in H.
Qed.

Lemma to_uint_not_nil (n : N) : N.to_uint n <> Decimal.Nil.
Proof.
  intros H. pose proof (DecimalN.Unsigned.of_to n) as E.
  rewrite H in E. cbn in E. subst n. discriminate.
Qed.

Lemma digits_parse (n : Z) :
  NilEmpty.uint_of_string (digits n) = Some (N.to_uint (Z.to_N n)).
Proof.
  unfold digits. pose proof (to_uint_not_nil (Z.to_N n)) as Hn.
  destruct (N.to_uint (Z.to_N n)) eqn:E; [congruence| | | | | | | | | |];
    rewrite <- E; unfold NilZero.string_of_uint; rewrite E;
    rewrite <- E; apply NilEmpty.usu.
Qed.

Lemma zeros_parse (k : nat) (s : string) (d : Decimal.uint) :
  NilEmpty.uint_of_string s = Some d ->
  exists d',
    NilEmpty.uint_of_string (zeros k ++ s) = Some d'
    /\ N.of_uint d' = N.of_uint d.
Proof.
  intros H. induction k as [|k (d' & E & Hd)]; cbn [zeros String.append].
  - eauto.
  - exists (Decimal.D0 d'). cbn [NilEmpty.uint_of_string]. rewrite E.
    split; [reflexivity|exact Hd].
Qed.

(** The index can be read back from its four-digit form. *)
Lemma format_04d_parse (n : Z) :
  (0 <= n)%Z ->
  exists d,
    NilEmpty.uint_of_string (format_04d n) = Some d
    /\ N.of_uint d = Z.to_N n.
Proof.
  intros Hn. unfold format_04d.
  destruct (Z.ltb_spec n 0) as [|_]; [lia|]. cbv zeta.
  destruct (zeros_parse (4 - String.length (digits n)) _ _ (digits_parse n))
    as (d & E & Hd).
  exists d. split; [exact E|].
  rewrite Hd. apply DecimalN.Unsigned.of_to.
Qed.

Lemma format_04d_inj (a b : Z) :
  (0 <= a)%Z -> (0 <= b)%Z -> format_04d a = format_04d b -> a = b.
Proof.
  intros Ha Hb H.
  destruct (format_04d_parse a Ha) as (da & Ea & Hda).
  destruct (format_04d_parse b Hb) as (db & Eb & Hdb).
  rewrite H, Eb in Ea. injection Ea as <-. lia.
Qed.

Lemma path_join_inj (dir a b : string) :
  String.prefix "/" a = false -> String.prefix "/" b = false ->
  path_join dir a = path_join dir b -> a = b.
Proof.
  intros Ha Hb. unfold path_join. rewrite Ha, Hb.
  destruct (_ || _).
  - apply append_inv_head.
  - intros H. apply append_inv_head in H. apply (append_inv_head "/"), H.
Qed.

Lemma saved_frame_path_inj (output_dir : string) (fps : Q) (i : Z)
    (j k : nat) :
  Frames.image_path (Spec.saved_frame output_dir fps i j)
  = Frames.image_path (Spec.saved_frame output_dir fps i k) ->
  j = k.
Proof.
  unfold Spec.saved_frame. cbn [Frames.image_path]. intros H.
  apply path_join_inj in H; [|reflexivity|reflexivity].
  apply (append_inv_head "frame_") in H.
  apply append_inv_tail in H.
  apply format_04d_inj in H; lia.
Qed.

(** No two extracted frames are written to the same file: the names differ,
    also beyond the four digits the name is padded to. *)
Theorem extracted_paths_distinct (Image : Type) (self : FrameExtractor.t)
    (output_dir : string) (fps : Q) (video : list Image) :
  (1 <= FrameExtractor.frame_interval self fps)%Z ->
  exists extracted,
    FrameExtractor.extract_frames_opencv Image self output_dir fps true video
    = FrameExtractor.Ok extracted
    /\ NoDup (map Frames.image_path extracted).
Proof.
  intros Hi.
  destruct (ExtractFacts.loop_saves Image self output_dir fps video
              FrameExtractor.initial Hi) as (st & E & (_ & _ & Hf) & _).
  - unfold Spec.extract_invariant.
    cbn [FrameExtractor.frame_count FrameExtractor.saved_count
         FrameExtractor.frames FrameExtractor.initial].
    rewrite ExtractFacts.multiples_below_zero by exact Hi.
    repeat split; lia.
  - cbn [FrameExtractor.saved_count FrameExtractor.initial]. lia.
  - unfold FrameExtractor.extract_frames_opencv. cbn [negb]. rewrite E.
    eexists. split; [reflexivity|]. rewrite Hf, map_map.
    generalize (Z.to_nat (FrameExtractor.saved_count st)) as m.
    generalize 0%nat as a. intros a m. revert a.
    induction m as [|m IH]; intros a; cbn [seq map]; constructor.
    + intros Hin. apply in_map_iff in Hin. destruct Hin as (k & Hk & Hin).
      apply saved_frame_path_inj in Hk. apply in_seq in Hin. lia.
    + apply IH.
Qed.

Lemma extracted_paths_distinct_witness :
  exists extracted,
    FrameExtractor.extract_frames_opencv unit
      (FrameExtractor.init FrameExtractor.settings None None) "/tmp/f" 30
      true (repeat tt 150)
    = FrameExtractor.Ok extracted
    /\ NoDup (map Frames.image_path extracted).
Proof.
  apply extracted_paths_distinct.
  vm_compute. discriminate.
Defined.

End PathFacts.

(** ** The vision client and the pipeline *)

Module PipelineFacts.
Import Py Schema.

Lemma clamp_score (x : Z) : (1 <= min_int 10 (max_int 1 x) <= 10)%Z.
Proof.
  rewrite QualityFacts.min_int_min, QualityFacts.max_int_max. lia.
Qed.

Lemma analyze_frame_timestamp (reply : Vision.Reply)
    (frame : Frames.Frame) :
  FrameAnalysis.timestamp (Vision.analyze_frame reply frame)
  = Frames.timestamp frame.
Proof.
  destruct reply; reflexivity.
Qed.

Lemma analyze_frame_valid (reply : Vision.Reply) (frame : Frames.Frame) :
  FrameAnalysis.valid (Vision.analyze_frame reply frame).
Proof.
  unfold FrameAnalysis.valid.
  destruct reply; cbn [Vision.analyze_frame Vision.from_data
                       Vision.error_analysis FrameAnalysis.interest_score];
    try apply clamp_score. lia.
Qed.

(** Whatever the request comes to, [analyze_frame] returns a record that
    carries the timestamp of the frame and an interest score from 1 to 10,
    so the constraint on [FrameAnalysis.interest_score] holds; after a
    failure the record has no tags, the flight style unknown, the score 5
    and the one issue analysis-error. *)
Theorem analyze_frame_wellformed (reply : Vision.Reply)
    (frame : Frames.Frame) :
  FrameAnalysis.timestamp (Vision.analyze_frame reply frame)
  = Frames.timestamp frame
  /\ FrameAnalysis.valid (Vision.analyze_frame reply frame)
  /\ (reply = Vision.Failed ->
      Spec.counted_tags (Vision.analyze_frame reply frame) = []
      /\ FrameAnalysis.interest_score (Vision.analyze_frame reply frame)
         = 5%Z
      /\ FrameAnalysis.quality_issues (Vision.analyze_frame reply frame)
         = ["analysis-error"%string]).
Proof.
  split; [apply analyze_frame_timestamp|].
  split; [apply analyze_frame_valid|].
  intros ->. repeat split.
Qed.

Lemma analyze_frame_wellformed_witness :
  Spec.counted_tags
    (Vision.analyze_frame Vision.Failed (Samples.frame_at 4)) = []
  /\ FrameAnalysis.interest_score
       (Vision.analyze_frame Vision.Failed (Samples.frame_at 4)) = 5%Z
  /\ FrameAnalysis.quality_issues
       (Vision.analyze_frame Vision.Failed (Samples.frame_at 4))
     = ["analysis-error"%string].
Proof.
  apply (proj2 (proj2 (analyze_frame_wellformed Vision.Failed
                         (Samples.frame_at 4)))).
  reflexivity.
Defined.

Lemma analyze_frames_fold
    (analyze_frame : Frames.Frame -> option FrameAnalysis.t)
    (frames : list Frames.Frame) (done : list FrameAnalysis.t) :
  fold_left
    (fun frame_analyses frame =>
       match analyze_frame frame with
       | Some analysis => frame_analyses ++ [analysis]
       | None => frame_analyses ++ [Pipeline.failed_analysis frame]
       end)
    frames done
  = done ++ map (fun frame =>
                   match analyze_frame frame with
                   | Some analysis => analysis
                   | None => Pipeline.failed_analysis frame
                   end) frames.
Proof.
  revert done.
  induction frames as [|frame frames IH]; intros done; cbn [fold_left map].
  - now rewrite app_nil_r.
  - rewrite IH. destruct (analyze_frame frame);
      now rewrite <- app_assoc.
Qed.

Lemma analyze_frames_map
    (analyze_frame : Frames.Frame -> option FrameAnalysis.t)
    (frames : list Frames.Frame) :
  Pipeline._analyze_frames analyze_frame frames
  = map (fun frame =>
           match analyze_frame frame with
           | Some analysis => analysis
           | None => Pipeline.failed_analysis frame
           end) frames.
Proof.
  unfold Pipeline._analyze_frames. now rewrite analyze_frames_fold.
Qed.

(** [_analyze_frames] returns one record for every frame, in the order of
    the frames and with their timestamps, each with a score from 1 to 10;
    a frame whose analysis fails is not dropped. *)
Theorem analyze_frames_one_per_frame (reply : Frames.Frame -> Vision.Reply)
    (frames : list Frames.Frame) :
  List.length (Pipeline._analyze_frames (Pipeline.vision_client reply) frames)
  = List.length frames
  /\ map FrameAnalysis.timestamp
       (Pipeline._analyze_frames (Pipeline.vision_client reply) frames)
     = map Frames.timestamp frames
  /\ Forall FrameAnalysis.valid
       (Pipeline._analyze_frames (Pipeline.vision_client reply) frames).
Proof.
  rewrite analyze_frames_map. unfold Pipeline.vision_client.
  split; [apply length_map|]. split.
  - rewrite map_map. apply map_ext. intros frame.
    apply analyze_frame_timestamp.
  - apply Forall_map, Forall_forall. intros frame _.
    apply analyze_frame_valid.
Qed.

Lemma no_tags_counted (self : Aggregation.Aggregator)
    (fas : list FrameAnalysis.t) :
  Forall (fun fa => Spec.counted_tags fa = []) fas ->
  Aggregation.extract_tags self fas = [].
Proof.
  intros H. rewrite TagFacts.extract_tags_frequent_tags.
  assert (E : flat_map Spec.counted_tags fas = []).
  { induction H as [|fa fas Hfa _ IH]; [reflexivity|].
    cbn [flat_map]. now rewrite Hfa, IH. }
  rewrite E. reflexivity.
Qed.

Lemma loop_none_pass (self : Aggregation.Aggregator)
    (fas : list FrameAnalysis.t) : forall prev st,
  Aggregation.in_highlight st = false ->
  Forall (fun fa => Aggregation.passes self fa = false) fas ->
  Aggregation.loop self prev fas st = Some st.
Proof.
  induction fas as [|fa fas IH]; intros prev st Hin Hall; [reflexivity|].
  apply Forall_cons_iff in Hall. destruct Hall as [Hfa Hall].
  cbn [Aggregation.loop]. unfold Aggregation.loop_body.
  unfold Aggregation.passes in Hfa. rewrite Hfa, Hin. cbn [bind].
  apply IH; assumption.
Qed.

Lemma none_pass_no_highlight (self : Aggregation.Aggregator)
    (fas : list FrameAnalysis.t) :
  Forall (fun fa => Aggregation.passes self fa = false) fas ->
  Aggregation.detect_highlights self fas = Some [].
Proof.
  intros Hall. destruct fas as [|fa fas]; [reflexivity|].
  unfold Aggregation.detect_highlights.
  rewrite (loop_none_pass self (fa :: fas) _ Aggregation.initial eq_refl Hall).
  reflexivity.
Qed.

Lemma uniform_existsb (p : string -> bool) (s : string)
    (fas : list FrameAnalysis.t) :
  fas <> [] ->
  Forall (fun fa => FrameAnalysis.quality_issues fa = [s]) fas ->
  existsb p (flat_map FrameAnalysis.quality_issues fas) = p s.
Proof.
  intros Hne Hall. induction Hall as [|fa fas Hfa Hrest IH]; [congruence|].
  cbn [flat_map]. rewrite Hfa. cbn [app existsb].
  destruct fas as [|fb fas].
  - cbn. apply orb_false_r.
  - rewrite IH by discriminate. apply orb_diag.
Qed.

(** The assessment of records that all carry the one issue [s]. *)
Lemma uniform_issue_quality (s : string) (fas : list FrameAnalysis.t) :
  fas <> [] ->
  Forall (fun fa => FrameAnalysis.quality_issues fa = [s]) fas ->
  QualityMetadata.issues (Aggregation.assess_quality fas) = [s]
  /\ QualityMetadata.overall_score (Aggregation.assess_quality fas)
     = max_int 1 (min_int 10 (Aggregation.deduct 10 s))
  /\ QualityMetadata.dvr_artifacts_detected (Aggregation.assess_quality fas)
     = (contains "dvr" (lower s) || contains "artifact" (lower s)).
Proof.
  intros Hne Hall.
  assert (Hc := QualityFacts.uniform_counter _ fas Hne Hall).
  pose proof (uniform_existsb
                (fun issue => contains "dvr" (lower issue)
                              || contains "artifact" (lower issue))
                s fas Hne Hall) as Hd. cbv beta in Hd.
  destruct fas as [|fa fas]; [congruence|].
  unfold Aggregation.assess_quality.
  cbn [QualityMetadata.overall_score QualityMetadata.issues
       QualityMetadata.dvr_artifacts_detected].
  rewrite QualityFacts.scan_frames_counter, QualityFacts.scan_frames_dvr.
  cbn [Aggregation.issue_counter Aggregation.dvr_artifacts_detected orb].
  rewrite Hc, Hd.
  assert (Hthr : (max_int 1
                    (int (inject_Z (Z.of_nat (List.length (fa :: fas)))
                          * 0.1))
                  <=? Z.of_nat (List.length (fa :: fas)))%Z = true).
  { apply Z.leb_le. rewrite QualityFacts.max_int_max.
    pose proof (QualityFacts.tenth_le (List.length (fa :: fas))).
    cbn [List.length] in *. lia. }
  unfold Counter.items. cbn [filter snd]. rewrite Hthr.
  cbn [map fst fold_left]. repeat split.
Qed.

(** When the analysis of every frame fails, the results hold no tag and no
    highlight, the one reported issue is analysis-error, and, as that issue
    takes no points off, the overall quality score is the best one, 10. *)
Theorem failed_analyses_score_ten
    (compute_frame_difference : Frames.Frame -> Frames.Frame -> Q)
    (reply : Frames.Frame -> Vision.Reply)
    (static_detector : Static.StaticDetector)
    (aggregator : Aggregation.Aggregator)
    (duration_seconds : Q) (frames : list Frames.Frame) :
  frames <> [] ->
  (forall frame, In frame frames -> reply frame = Vision.Failed) ->
  ~ Static.threshold static_detector == 0 ->
  (5 < Aggregation.highlight_score_threshold aggregator)%Z ->
  exists analysis,
    Pipeline.analyze_stages compute_frame_difference reply static_detector
      aggregator duration_seconds frames = Some analysis
    /\ Pipeline.tags analysis = []
    /\ Pipeline.highlights analysis = []
    /\ QualityMetadata.issues (Pipeline.quality analysis)
       = ["analysis-error"%string]
    /\ QualityMetadata.overall_score (Pipeline.quality analysis) = 10%Z
    /\ QualityMetadata.dvr_artifacts_detected (Pipeline.quality analysis)
       = false
    /\ QualityMetadata.signal_loss_segments (Pipeline.quality analysis) = [].
Proof.
  intros Hne Hfail Hthr Hscore.
  destruct (StaticContent.detect_total_nonzero compute_frame_difference
              static_detector duration_seconds frames Hthr) as [segs Es].
  set (fas := Pipeline._analyze_frames (Pipeline.vision_client reply) frames).
  assert (Hfas : Forall (fun fa =>
                   FrameAnalysis.environment fa = []
                   /\ FrameAnalysis.flight_style fa = "unknown"%string
                   /\ FrameAnalysis.interest_score fa = 5%Z
                   /\ FrameAnalysis.quality_issues fa
                      = ["analysis-error"%string]) fas).
  { unfold fas. rewrite analyze_frames_map. apply Forall_map, Forall_forall.
    intros frame Hin. unfold Pipeline.vision_client.
    rewrite (Hfail frame Hin). repeat split. }
  assert (Hfne : fas <> []).
  { unfold fas. rewrite analyze_frames_map.
    destruct frames; [congruence|discriminate]. }
  assert (Et : Aggregation.extract_tags aggregator fas = []).
  { apply no_tags_counted. eapply Forall_impl; [|exact Hfas].
    intros fa (He & Hs & _). unfold Spec.counted_tags.
    now rewrite He, Hs. }
  assert (Eh : Aggregation.detect_highlights aggregator fas = Some []).
  { apply none_pass_no_highlight. eapply Forall_impl; [|exact Hfas].
    intros fa (_ & _ & Hi & _). unfold Aggregation.passes. rewrite Hi.
    apply Z.leb_gt. exact Hscore. }
  destruct (uniform_issue_quality "analysis-error" fas Hfne)
    as (Ei & Eo & Ed).
  { eapply Forall_impl; [|exact Hfas]. intros fa H. apply H. }
  assert (Eseg : QualityMetadata.signal_loss_segments
                   (Aggregation.assess_quality fas) = []).
  { rewrite QualityFacts.assess_quality_segments.
    clear - Hfas. induction Hfas as [|fa fas' Hfa _ IH]; [reflexivity|].
    cbn [flat_map]. rewrite IH. unfold Spec.intervals_of.
    destruct Hfa as (_ & _ & _ & ->). reflexivity. }
  unfold Pipeline.analyze_stages.
  destruct frames as [|frame frames']; [congruence|].
  rewrite Es. cbn [bind]. fold fas. rewrite Eh. cbn [bind].
  eexists. split; [reflexivity|].
  cbn [Pipeline.tags Pipeline.highlights Pipeline.quality].
  rewrite Et, Ei, Eo, Ed, Eseg. repeat split.
Qed.

Lemma failed_analyses_score_ten_witness :
  exists analysis,
    Pipeline.analyze_stages Samples.low_until_two (fun _ => Vision.Failed)
      Samples.detector Samples.aggregator 120
      (map Samples.frame_at [0; 2; 4]) = Some analysis
    /\ Pipeline.tags analysis = []
    /\ Pipeline.highlights analysis = []
    /\ QualityMetadata.issues (Pipeline.quality analysis)
       = ["analysis-error"%string]
    /\ QualityMetadata.overall_score (Pipeline.quality analysis) = 10%Z
    /\ QualityMetadata.dvr_artifacts_detected (Pipeline.quality analysis)
       = false
    /\ QualityMetadata.signal_loss_segments (Pipeline.quality analysis) = [].
Proof.
  apply failed_analyses_score_ten.
  - simpl. discriminate.
  - reflexivity.
  - vm_compute. discriminate.
  - vm_compute. reflexivity.
Defined.

Lemma analyze_frames_timestamps (reply : Frames.Frame -> Vision.Reply)
    (frames : list Frames.Frame) :
  map FrameAnalysis.timestamp
    (Pipeline._analyze_frames (Pipeline.vision_client reply) frames)
  = map Frames.timestamp frames.
Proof.
  rewrite analyze_frames_map, map_map. apply map_ext. intros frame.
  unfold Pipeline.vision_client. now destruct (reply frame).
Qed.

Lemma extracted_not_empty (Image : Type) (self : FrameExtractor.t)
    (video : list Image) (fps : Q) :
  (1 <= FrameExtractor.frame_interval self fps)%Z ->
  video <> [] -> (0 < FrameExtractor.max_frames self)%Z ->
  (1 <= Z.to_nat
          (Z.min (Z.max 0 (FrameExtractor.max_frames self))
             (Spec.multiples_below (FrameExtractor.frame_interval self fps)
                (Z.of_nat (List.length video)))))%nat.
Proof.
  intros Hi Hv Hm.
  assert (H1 : Spec.multiples_below (FrameExtractor.frame_interval self fps) 1
               = 1%Z).
  { unfold Spec.multiples_below.
    replace (1 + FrameExtractor.frame_interval self fps - 1)%Z
      with (FrameExtractor.frame_interval self fps) by lia.
    apply Z.div_same. lia. }
  pose proof (ExtractFacts.multiples_below_mono
                (FrameExtractor.frame_interval self fps) 1
                (Z.of_nat (List.length video)) Hi) as Hmono.
  destruct video as [|img video]; [congruence|].
  cbn [List.length] in *. lia.
Qed.

(** From extraction to aggregation: for a video with a positive frame rate
    and an interval of at least one frame, the frames extracted are not
    empty and time-ordered, the stages after extraction do not raise, every
    frame is analysed, and the static segments and the highlights each come
    out non-overlapping, in time order and no shorter than their minimum
    durations. *)
Theorem pipeline_runs_ordered (Image : Type)
    (frame_extractor : FrameExtractor.t) (output_dir : string) (fps : Q)
    (video : list Image)
    (compute_frame_difference : Frames.Frame -> Frames.Frame -> Q)
    (reply : Frames.Frame -> Vision.Reply)
    (static_detector : Static.StaticDetector)
    (aggregator : Aggregation.Aggregator) (duration_seconds : Q) :
  0 < fps ->
  (1 <= FrameExtractor.frame_interval frame_extractor fps)%Z ->
  video <> [] ->
  (0 < FrameExtractor.max_frames frame_extractor)%Z ->
  ~ Static.threshold static_detector == 0 ->
  exists extracted analysis,
    FrameExtractor.extract_frames_opencv Image frame_extractor output_dir fps
      true video = FrameExtractor.Ok extracted
    /\ Pipeline.analyze_stages compute_frame_difference reply static_detector
         aggregator duration_seconds extracted = Some analysis
    /\ Pipeline.frames_analyzed analysis = Z.of_nat (List.length extracted)
    /\ List.length (Pipeline.frame_analysis analysis) = List.length extracted
    /\ Forall (fun s => Static.min_duration static_detector
                        <= StaticSegment.end_ s - StaticSegment.start s)
         (Pipeline.static_segments analysis)
    /\ ForallOrdPairs
         (fun a b => StaticSegment.end_ a <= StaticSegment.start b)
         (Pipeline.static_segments analysis)
    /\ Forall (fun h => Aggregation.highlight_min_duration aggregator
                        <= Highlight.end_ h - Highlight.start h)
         (Pipeline.highlights analysis)
    /\ ForallOrdPairs (fun a b => Highlight.end_ a <= Highlight.start b)
         (Pipeline.highlights analysis).
Proof.
  intros Hfps Hi Hv Hm Hthr.
  pose proof (ExtractFacts.extract_saved_frames Image frame_extractor
                output_dir fps video Hi) as Ex.
  pose proof (extracted_not_empty Image frame_extractor video fps Hi Hv Hm)
    as Hlen.
  pose proof (ExtractFacts.saved_frames_sorted output_dir fps
                (FrameExtractor.frame_interval frame_extractor fps)
                (Z.to_nat
                   (Z.min (Z.max 0 (FrameExtractor.max_frames frame_extractor))
                      (Spec.multiples_below
                         (FrameExtractor.frame_interval frame_extractor fps)
                         (Z.of_nat (List.length video))))) 0 Hfps Hi)
    as Hsorted.
  revert Ex Hlen Hsorted.
  generalize (Z.to_nat
                (Z.min (Z.max 0 (FrameExtractor.max_frames frame_extractor))
                   (Spec.multiples_below
                      (FrameExtractor.frame_interval frame_extractor fps)
                      (Z.of_nat (List.length video))))) as m.
  intros m Ex Hlen.
  remember (map (Spec.saved_frame output_dir fps
                   (FrameExtractor.frame_interval frame_extractor fps))
              (seq 0 m)) as extracted eqn:Hext.
  intros Hsorted.
  destruct extracted as [|frame rest].
  { destruct m; [lia|discriminate]. }
  clear Hext.
  destruct (StaticContent.detect_total_nonzero compute_frame_difference
              static_detector duration_seconds (frame :: rest) Hthr)
    as [segs Es].
  remember (Pipeline._analyze_frames (Pipeline.vision_client reply)
              (frame :: rest)) as fas eqn:Hfas.
  destruct (HighlightFacts.detect_highlights_total aggregator fas)
    as [hs Eh].
  assert (Hfs : Sorted Qle (map FrameAnalysis.timestamp fas)).
  { rewrite Hfas, analyze_frames_timestamps. exact Hsorted. }
  destruct (StaticFacts.detect_runs_ordered compute_frame_difference
              static_detector duration_seconds (frame :: rest) segs Hsorted Es)
    as [Hs1 Hs2].
  destruct (HighlightFacts.highlight_detect_runs_ordered aggregator fas hs
              Hfs Eh) as [Hh1 Hh2].
  exists (frame :: rest). eexists. split; [exact Ex|].
  unfold Pipeline.analyze_stages.
  rewrite Es. cbn [bind]. rewrite <- Hfas, Eh. cbn [bind].
  split; [reflexivity|].
  cbn [Pipeline.frames_analyzed Pipeline.frame_analysis
       Pipeline.static_segments Pipeline.highlights].
  split; [reflexivity|]. split.
  { rewrite Hfas, analyze_frames_map. apply length_map. }
  split; [|split; [exact Hs2|split; [|exact Hh2]]].
  - eapply Forall_impl; [|exact Hs1]. intros s H. apply H.
  - eapply Forall_impl; [|exact Hh1]. intros h H. apply H.
Qed.

Lemma pipeline_runs_ordered_witness :
  exists extracted analysis,
    FrameExtractor.extract_frames_opencv unit
      (FrameExtractor.init FrameExtractor.settings None None) "/tmp/f" 30
      true (repeat tt 150) = FrameExtractor.Ok extracted
    /\ Pipeline.analyze_stages Samples.low_until_two (fun _ => Vision.Unparsed)
         Samples.detector Samples.aggregator 5 extracted = Some analysis
    /\ Pipeline.frames_analyzed analysis = Z.of_nat (List.length extracted)
    /\ List.length (Pipeline.frame_analysis analysis) = List.length extracted
    /\ Forall (fun s => Static.min_duration Samples.detector
                        <= StaticSegment.end_ s - StaticSegment.start s)
         (Pipeline.static_segments analysis)
    /\ ForallOrdPairs
         (fun a b => StaticSegment.end_ a <= StaticSegment.start b)
         (Pipeline.static_segments analysis)
    /\ Forall (fun h => Aggregation.highlight_min_duration Samples.aggregator
                        <= Highlight.end_ h - Highlight.start h)
         (Pipeline.highlights analysis)
    /\ ForallOrdPairs (fun a b => Highlight.end_ a <= Highlight.start b)
         (Pipeline.highlights analysis).
Proof.
  apply pipeline_runs_ordered.
  - reflexivity.
  - vm_compute. discriminate.
  - simpl. discriminate.
  - reflexivity.
  - vm_compute. discriminate.
Defined.

End PipelineFacts.

(** ** The analysis route *)

Module RouteFacts.
Import Py PyStr Routes.

Lemma lower_append (a b : string) :
  lower (a ++ b) = (lower a ++ lower b)%string.
Proof.
  induction a as [|c a IH]; cbn [String.append lower]; [reflexivity|].
  now rewrite IH.
Qed.

Lemma length_append (a b : string) :
  String.length (a ++ b) = (String.length a + String.length b)%nat.
Proof.
  induction a as [|c a IH]; cbn [String.append String.length]; [reflexivity|].
  now rewrite IH.
Qed.

(** A suffix no longer than the tail is looked for in the tail alone. *)
Lemma endswith_tail (suffix p t : string) :
  (String.length suffix <= String.length t)%nat ->
  endswith suffix (p ++ t) = endswith suffix t.
Proof.
  intros Hlen. induction p as [|c p IH]; cbn [String.append]; [reflexivity|].
  cbn [endswith].
  destruct (String.eqb_spec (String c (p ++ t)) suffix) as [E|_];
    [|exact IH].
  apply (f_equal String.length) in E.
  cbn [String.length] in E. rewrite length_append in E. lia.
Qed.

Lemma sidecar_not_video (path : string) :
  is_video_file (sidecar_path path) = false.
Proof.
  unfold is_video_file, sidecar_path. rewrite lower_append.
  change (lower ".meta.json") with ".meta.json"%string.
  unfold video_extensions. cbn [existsb].
  rewrite !endswith_tail by (cbn; lia). reflexivity.
Qed.

(** The route never analyses a sidecar: a request for a path ending in
    .meta.json is answered with status 400, whatever the files present, the
    state of the model service and the force flag, and the pipeline's result
    plays no part. *)
Theorem sidecar_request_rejected (Metadata : Type)
    (path_exists : string -> bool) (ollama_available : bool)
    (run_pipeline : string -> bool -> Outcome Metadata)
    (video_path : string) (force : bool) :
  analyze_video Metadata path_exists ollama_available run_pipeline
    {| path := sidecar_path video_path; force := force |}
  = HTTPException 400.
Proof.
  unfold analyze_video. cbn [path].
  destruct (path_exists (sidecar_path video_path)); cbn [negb];
    [|reflexivity].
  now rewrite sidecar_not_video.
Qed.

End RouteFacts.
